(** * Face filter camera: the morph engine, the render loop and the
      adaptive performance controller

    A shallow embedding of [src/utils/mathUtils.js] (viewport utilities and
    the bilinear sampler), [src/filters/MorphFilter.js],
    [src/filters/FilterRenderer.js], the [PerformanceManager] class and the
    tables of [src/config/constants.js], followed by the properties the
    specification states about them.

    Number model.  A JavaScript number is embedded as [num]: not-a-number,
    the two infinities, or a finite value, which is an exact rational.  The
    special values follow IEEE 754 (a division by zero gives an infinity or
    NaN, every comparison with NaN is false); finite arithmetic is exact, so
    binary64 rounding and the sign of zero are not represented (a zero
    divisor counts as +0, which is what [Math.abs] and the products of
    non-negative values in this code produce).  Counters and table entries
    that only ever hold integers are embedded as [Z].  Where rounding
    decides a property, as for the inverse warp at intensity 0, the module
    [Binary64] repeats the code on binary64 numbers. *)

From Stdlib Require Import ZArith QArith Qround Qabs Lia Lqa Bool.
From Stdlib Require PrimFloat.
From stdpp Require Import base option list strings gmap.

Local Open Scope Q_scope.

(** ** JavaScript numbers *)

Module JS.

Inductive num : Type :=
  | NaN
  | PInf
  | NInf
  | Fin (q : Q).

Definition ofZ (z : Z) : num := Fin (inject_Z z).

Definition Qltb (a b : Q) : bool :=
  match a ?= b with Lt => true | _ => false end.

Definition Qis0 (a : Q) : bool :=
  match a ?= 0 with Eq => true | _ => false end.

Definition neg (a : num) : num :=
  match a with
  | NaN => NaN
  | PInf => NInf
  | NInf => PInf
  | Fin q => Fin (- q)
  end.

Definition add (a b : num) : num :=
  match a, b with
  | NaN, _ | _, NaN => NaN
  | PInf, NInf | NInf, PInf => NaN
  | PInf, _ | _, PInf => PInf
  | NInf, _ | _, NInf => NInf
  | Fin x, Fin y => Fin (x + y)
  end.

Definition sub (a b : num) : num := add a (neg b).

(** An infinity scaled by a finite factor: the sign of the factor decides,
    and a zero factor gives NaN. *)
Definition scaleInf (positive : bool) (q : Q) : num :=
  if Qis0 q then NaN
  else if Bool.eqb positive (Qltb 0 q) then PInf else NInf.

Definition mul (a b : num) : num :=
  match a, b with
  | NaN, _ | _, NaN => NaN
  | PInf, PInf | NInf, NInf => PInf
  | PInf, NInf | NInf, PInf => NInf
  | PInf, Fin q | Fin q, PInf => scaleInf true q
  | NInf, Fin q | Fin q, NInf => scaleInf false q
  | Fin x, Fin y => Fin (x * y)
  end.

Definition div (a b : num) : num :=
  match a, b with
  | NaN, _ | _, NaN => NaN
  | (PInf | NInf), (PInf | NInf) => NaN
  | PInf, Fin q => if Qltb q 0 then NInf else PInf
  | NInf, Fin q => if Qltb q 0 then PInf else NInf
  | Fin _, (PInf | NInf) => Fin 0
  | Fin x, Fin y =>
      if Qis0 y then
        (if Qis0 x then NaN else if Qltb 0 x then PInf else NInf)
      else Fin (x / y)
  end.

(** [a < b]; false as soon as one side is NaN. *)
Definition lt (a b : num) : bool :=
  match a, b with
  | NaN, _ | _, NaN => false
  | _, NInf | PInf, _ => false
  | NInf, _ | _, PInf => true
  | Fin x, Fin y => Qltb x y
  end.

Definition gt (a b : num) : bool := lt b a.

(** [a <= b]; false as soon as one side is NaN. *)
Definition le (a b : num) : bool :=
  match a, b with
  | NaN, _ | _, NaN => false
  | NInf, _ | _, PInf => true
  | _, NInf | PInf, _ => false
  | Fin x, Fin y => negb (Qltb y x)
  end.

Definition ge (a b : num) : bool := le b a.

Definition abs (a : num) : num :=
  match a with
  | NaN => NaN
  | PInf | NInf => PInf
  | Fin q => Fin (Qabs q)
  end.

(** [Math.max] and [Math.min] of two arguments: NaN is contagious. *)
Definition max (a b : num) : num :=
  match a, b with
  | NaN, _ | _, NaN => NaN
  | _, _ => if lt a b then b else a
  end.

Definition min (a b : num) : num :=
  match a, b with
  | NaN, _ | _, NaN => NaN
  | _, _ => if lt b a then b else a
  end.

Definition floor (a : num) : num :=
  match a with
  | Fin q => ofZ (Qfloor q)
  | _ => a
  end.

Definition ceil (a : num) : num :=
  match a with
  | Fin q => ofZ (Qceiling q)
  | _ => a
  end.

(** [Math.round]: the nearest integer, a tie going up. *)
Definition round (a : num) : num :=
  match a with
  | Fin q => ofZ (Qfloor (q + (1 # 2)))
  | _ => a
  end.

(** Truthiness of a number: 0 and NaN are falsy. *)
Definition truthy (a : num) : bool :=
  match a with
  | NaN => false
  | Fin q => negb (Qis0 q)
  | _ => true
  end.

(** [v || d] where [v] is a number or [undefined]. *)
Definition orElse (v : option num) (d : num) : num :=
  match v with
  | Some a => if truthy a then a else d
  | None => d
  end.

(** A number used as an array index names a slot only when it is a
    non-negative integer. *)
Definition asIndex (a : num) : option nat :=
  match a with
  | Fin q =>
      let z := Qfloor q in
      if Qis0 (q - inject_Z z) && (0 <=? z)%Z then Some (Z.to_nat z) else None
  | _ => None
  end.

(** Equality of numbers as values: finite values compare as rationals. *)
Definition eqv (a b : num) : Prop :=
  match a, b with
  | NaN, NaN | PInf, PInf | NInf, NInf => True
  | Fin x, Fin y => x == y
  | _, _ => False
  end.

Definition isFinite (a : num) : bool :=
  match a with Fin _ => true | _ => false end.

(** [a % b]: the remainder of the division truncated towards zero, which
    has the sign of [a]. *)
Definition rem (a b : num) : num :=
  match a, b with
  | Fin x, Fin y =>
      if Qis0 y then NaN
      else
        let t := if Qltb (x / y) 0 then Qceiling (x / y) else Qfloor (x / y) in
        Fin (x - y * inject_Z t)
  | Fin _, (PInf | NInf) => a
  | _, _ => NaN
  end.

(** [a === b] on two numbers. *)
Definition strictEq (a b : num) : bool :=
  match a, b with
  | Fin x, Fin y => Qeq_bool x y
  | PInf, PInf | NInf, NInf => true
  | _, _ => false
  end.


(** The transcendental part of [Math]: square root, cosine and power are
    taken as an interface, with the facts about them that hold for every
    conforming implementation and that the code below relies on. *)
Class MathLib : Type := {
  sqrt : num -> num;
  cos : num -> num;
  pow : num -> num -> num;
  sqrt_NaN : sqrt NaN = NaN;
  sqrt_PInf : sqrt PInf = PInf;
  sqrt_Fin : forall q, 0 <= q ->
    exists r, sqrt (Fin q) = Fin r /\ 0 <= r /\ (r == 0 <-> q == 0);
  cos_Fin : forall q, exists r, cos (Fin q) = Fin r /\ -1 <= r <= 1;
  cos_nonFin : forall a, isFinite a = false -> cos a = NaN;
  pow_square : forall a, pow a (Fin 2) = mul a a;
  pow_NaN : forall e, 0 < e -> pow NaN (Fin e) = NaN;
  pow_Fin : forall b e, 0 < e ->
    pow (Fin b) (Fin e) = NaN \/
    exists r, pow (Fin b) (Fin e) = Fin r
}.

(** [Math.PI], the binary64 value. *)
Definition PI : num := Fin (884279719003555 # 281474976710656).

(** [Math.sin], again as an interface, with the values of the sine and of
    the cosine at zero. *)
Class TrigLib {M : MathLib} : Type := {
  sin : num -> num;
  sin_Fin : forall q, exists r, sin (Fin q) = Fin r /\ -1 <= r <= 1;
  sin_nonFin : forall a, isFinite a = false -> sin a = NaN;
  sin_zero : forall q, q == 0 -> eqv (sin (Fin q)) (Fin 0);
  cos_zero : forall q, q == 0 -> eqv (cos (Fin q)) (Fin 1)
}.


End JS.

Import JS.

Declare Scope num_scope.
Delimit Scope num_scope with num.
Bind Scope num_scope with num.
Infix "+" := add : num_scope.
Infix "-" := sub : num_scope.
Infix "*" := mul : num_scope.
Infix "/" := div : num_scope.
Infix "<?" := lt : num_scope.
Infix "<=?" := le : num_scope.
Infix ">?" := gt : num_scope.
Infix ">=?" := ge : num_scope.
Notation "a ≐ b" := (eqv a b) (at level 70, no associativity).

(** ** Exceptions

    A call either returns a value or throws.  Only two kinds of exception
    arise in the embedded code: the [TypeError] of reading a property of
    [undefined], and the [IndexSizeError] of the canvas API. *)

Inductive exn : Type :=
  | TypeError
  | IndexSizeError.

Inductive result (A : Type) : Type :=
  | Ok (a : A)
  | Throw (e : exn).
Arguments Ok {A} a.
Arguments Throw {A} e.

Definition bind {A B : Type} (r : result A) (k : A -> result B) : result B :=
  match r with
  | Ok a => k a
  | Throw e => Throw e
  end.

#[global] Instance result_ret : MRet result := fun A a => Ok a.
#[global] Instance result_bind : MBind result := fun A B k r => bind r k.

(** [o[...]] on a value that may be [undefined]. *)
Definition deref {A : Type} (o : option A) : result A :=
  match o with
  | Some a => Ok a
  | None => Throw TypeError
  end.

(** ** Landmark data *)

(** A landmark is the array [[x, y, depth]]. *)
Definition Point : Type := list num.

(** [p[i]] used as a number: a missing component is [undefined], which
    every arithmetic operator and comparison reads as NaN. *)
Definition coord (p : Point) (i : nat) : num := default NaN (p !! i).

(** One detected face.  The code reads only [scaledMesh]; the remaining
    properties the detector attaches are carried along by object spreads. *)
Record Face : Type := mkFace {
  scaledMesh : list Point;
  otherProps : list (string * num)
}.

Inductive Tier : Type := high | medium | low.

(** ** Configuration tables ([src/config/constants.js]) *)

Module Constants.

Record PerformanceConfig : Type := {
  maxFaces : Z;
  skipFrames : Z;
  shadowBlur : Z;
  particleCount : Z;
  animationSpeed : Q;
  cleanupInterval : Z;
  targetFPS : Z;
  detectionConfidence : Q
}.

(** [PERFORMANCE[level.toUpperCase()]] *)
Definition PERFORMANCE (level : Tier) : PerformanceConfig :=
  match level with
  | high =>
      {| maxFaces := 5; skipFrames := 1; shadowBlur := 10; particleCount := 8;
         animationSpeed := 1; cleanupInterval := 60; targetFPS := 30;
         detectionConfidence := 0.5 |}
  | medium =>
      {| maxFaces := 3; skipFrames := 2; shadowBlur := 5; particleCount := 6;
         animationSpeed := 0.8; cleanupInterval := 40; targetFPS := 24;
         detectionConfidence := 0.6 |}
  | low =>
      {| maxFaces := 1; skipFrames := 5; shadowBlur := 0; particleCount := 4;
         animationSpeed := 0.6; cleanupInterval := 20; targetFPS := 20;
         detectionConfidence := 0.7 |}
  end.

Record MorphConfig : Type := {
  intensity : num;
  eyeScaleFactor : num;
  mouthScaleFactor : num;
  faceSlimFactor : num;
  jawReductionFactor : num;
  paddingMultiplier : num;
  faceMultiplier : num;
  heightMultiplier : num
}.

(** [MORPH[level.toUpperCase()]] *)
Definition MORPH (level : Tier) : MorphConfig :=
  match level with
  | high =>
      {| intensity := Fin 1; eyeScaleFactor := Fin 2.5;
         mouthScaleFactor := Fin 2.2; faceSlimFactor := Fin 0.85;
         jawReductionFactor := Fin 0.9; paddingMultiplier := Fin 0.8;
         faceMultiplier := Fin 1.2; heightMultiplier := Fin 1.3 |}
  | medium =>
      {| intensity := Fin 0.9; eyeScaleFactor := Fin 2;
         mouthScaleFactor := Fin 1.8; faceSlimFactor := Fin 0.88;
         jawReductionFactor := Fin 0.92; paddingMultiplier := Fin 0.6;
         faceMultiplier := Fin 1; heightMultiplier := Fin 1.1 |}
  | low =>
      {| intensity := Fin 0.8; eyeScaleFactor := Fin 1.6;
         mouthScaleFactor := Fin 1.4; faceSlimFactor := Fin 0.9;
         jawReductionFactor := Fin 0.95; paddingMultiplier := Fin 0.4;
         faceMultiplier := Fin 0.8; heightMultiplier := Fin 0.9 |}
  end.

Definition EYE_REGION_MULTIPLIER : num := Fin 1.2.
Definition EYE_EXTREME_MULTIPLIER : num := Fin 1.3.
Definition MOUTH_REGION_MULTIPLIER : num := Fin 0.9.
Definition MOUTH_EXTREME_MULTIPLIER : num := Fin 1.4.
Definition FACE_WIDTH_INFLUENCE : num := Fin 0.6.
Definition FACE_HEIGHT_INFLUENCE : num := Fin 0.6.
Definition FACE_SLIM_INTENSITY : num := Fin 0.8.

(** MediaPipe face-mesh landmark indices. *)
Module LANDMARKS.
Definition NOSE_TIP : nat := 1.
Definition LEFT_EYE : nat := 33.
Definition RIGHT_EYE : nat := 263.
Definition FOREHEAD_CENTER : nat := 9.
Definition LEFT_MOUTH : nat := 61.
Definition RIGHT_MOUTH : nat := 291.
Definition LEFT_CHEEK : nat := 116.
Definition RIGHT_CHEEK : nat := 345.
Definition LEFT_EYE_CENTER : nat := 468.
Definition RIGHT_EYE_CENTER : nat := 473.
Definition LEFT_EYE_INNER : nat := 133.
Definition LEFT_EYE_OUTER : nat := 33.
Definition FACE_LEFT : nat := 172.
Definition FACE_RIGHT : nat := 397.
Definition CHIN_TIP : nat := 175.
Definition MOUTH_LEFT_CORNER : nat := 61.
Definition MOUTH_RIGHT_CORNER : nat := 291.
Definition MOUTH_TOP_CENTER : nat := 13.
Definition MOUTH_BOTTOM_CENTER : nat := 17.
End LANDMARKS.

Definition PRESSURE_THRESHOLD_LOW : Z := 25.
Definition PRESSURE_THRESHOLD_HIGH : Z := 50.

(** [CULLING.MAX_FILTER_RADIUS_MULTIPLIER] *)
Definition MAX_FILTER_RADIUS_MULTIPLIER : num := Fin 0.8.

End Constants.

(** ** Viewport utilities and the bilinear sampler
       ([src/utils/mathUtils.js], second module) *)

Module ViewportUtils.
Import Constants.

Definition isInViewport (x y radius canvasWidth canvasHeight : num) : bool :=
  (x + radius >=? Fin 0)%num && (x - radius <=? canvasWidth)%num &&
  (y + radius >=? Fin 0)%num && (y - radius <=? canvasHeight)%num.

(** The object [getFacePoints] returns: each property holds the landmark, or
    [undefined] when the mesh has no such index. *)
Record FacePoints : Type := {
  noseTip : option Point;
  leftEye : option Point;
  rightEye : option Point;
  foreheadCenter : option Point;
  leftMouth : option Point;
  rightMouth : option Point;
  leftCheek : option Point;
  rightCheek : option Point
}.

Definition getFacePoints (face : Face) : FacePoints :=
  let mesh := scaledMesh face in
  {| noseTip := mesh !! LANDMARKS.NOSE_TIP;
     leftEye := mesh !! LANDMARKS.LEFT_EYE;
     rightEye := mesh !! LANDMARKS.RIGHT_EYE;
     foreheadCenter := mesh !! LANDMARKS.FOREHEAD_CENTER;
     leftMouth := mesh !! LANDMARKS.LEFT_MOUTH;
     rightMouth := mesh !! LANDMARKS.RIGHT_MOUTH;
     leftCheek := mesh !! LANDMARKS.LEFT_CHEEK;
     rightCheek := mesh !! LANDMARKS.RIGHT_CHEEK |}.

Record FaceDimensions : Type := {
  faceWidth : num;
  faceHeight : num;
  eyeCenter : Point
}.

(** The property reads happen in source order; the first [undefined] point
    that is indexed throws. *)
Definition getFaceDimensions (points : FacePoints) : result FaceDimensions :=
  rEye ← deref (rightEye points);
  lEye ← deref (leftEye points);
  forehead ← deref (foreheadCenter points);
  nose ← deref (noseTip points);
  Ok {| faceWidth := abs (coord rEye 0 - coord lEye 0);
        faceHeight := abs (coord forehead 1 - coord nose 1);
        eyeCenter := [ (coord lEye 0 + coord rEye 0) / Fin 2;
                       (coord lEye 1 + coord rEye 1) / Fin 2 ]%num |}.

Definition shouldCullAnimation (face : Face) (canvasWidth canvasHeight : num)
  : result bool :=
  let points := getFacePoints face in
  dims ← getFaceDimensions points;
  let maxRadius := (faceWidth dims * MAX_FILTER_RADIUS_MULTIPLIER)%num in
  nose ← deref (noseTip points);
  Ok (negb (isInViewport (coord nose 0) (coord nose 1) maxRadius
              canvasWidth canvasHeight)).

(** [imageData[index]] on a [Uint8ClampedArray]. *)
Definition readByte (imageData : list Z) (index : num) : option num :=
  i ← asIndex index; ofZ <$> imageData !! i.

Definition getPixel (imageData : list Z) (width : num) (px py : num) : Point :=
  let index := ((py * width + px) * Fin 4)%num in
  [ orElse (readByte imageData index) (Fin 0);
    orElse (readByte imageData (index + Fin 1)) (Fin 0);
    orElse (readByte imageData (index + Fin 2)) (Fin 0);
    orElse (readByte imageData (index + Fin 3)) (Fin 255) ].

Definition bilinearSample (imageData : list Z) (x y width height : num)
  : list num :=
  let x := max (Fin 0) (min (width - Fin 1) x) in
  let y := max (Fin 0) (min (height - Fin 1) y) in
  let x1 := floor x in
  let y1 := floor y in
  let x2 := min (x1 + Fin 1) (width - Fin 1) in
  let y2 := min (y1 + Fin 1) (height - Fin 1) in
  let fx := (x - x1)%num in
  let fy := (y - y1)%num in
  let p1 := getPixel imageData width x1 y1 in
  let p2 := getPixel imageData width x2 y1 in
  let p3 := getPixel imageData width x1 y2 in
  let p4 := getPixel imageData width x2 y2 in
  (fun i =>
     let top := (coord p1 i * (Fin 1 - fx) + coord p2 i * fx)%num in
     let bottom := (coord p3 i * (Fin 1 - fx) + coord p4 i * fx)%num in
     round (top * (Fin 1 - fy) + bottom * fy)) <$> [0; 1; 2; 3]%nat.

End ViewportUtils.

(** The object handed to a filter's [draw]: a copy of a [PERFORMANCE] entry,
    to which [FilterRenderer.render] adds [performanceLevel].  The entries of
    the table have no such property, so it is optional here. *)
Module Quality.
Record QualitySettings : Type := {
  settings : Constants.PerformanceConfig;
  performanceLevel : option Tier
}.
End Quality.

(** ** The 2D canvas

    The part of [CanvasRenderingContext2D] the morph filter touches: the
    bitmap as rows of RGBA bytes, [getImageData], [createImageData] and
    [putImageData].  The bitmap stores the bytes it is given (no alpha
    premultiplication). *)

Module Canvas2D.

Record Canvas : Type := {
  canvasWidth : Z;
  canvasHeight : Z;
  pixels : list Z
}.

Record ImageData : Type := {
  dataWidth : Z;
  dataHeight : Z;
  data : list Z
}.

(** Conversion of an argument to the IDL type [long]. *)
Definition toLong (a : num) : Z :=
  match a with
  | Fin q =>
      let t := if Qltb q 0 then Qceiling q else Qfloor q in
      ((t + 2147483648) mod 4294967296 - 2147483648)%Z
  | _ => 0%Z
  end.

(** Conversion of a number stored into a [Uint8ClampedArray]. *)
Definition toUint8Clamped (a : num) : Z :=
  match a with
  | NaN | NInf => 0%Z
  | PInf => 255%Z
  | Fin q =>
      let f := Qfloor q in
      let r :=
        match (q - inject_Z f) ?= (1 # 2) with
        | Lt => f
        | Gt => (f + 1)%Z
        | Eq => if Z.even f then f else (f + 1)%Z
        end in
      Z.max 0 (Z.min 255 r)
  end.

(** [array[index] = value] on a [Uint8ClampedArray]: a write outside the
    array, or at an index that is not an integer, is dropped. *)
Definition writeByte (array : list Z) (index value : num) : list Z :=
  match asIndex index with
  | Some i => <[i := toUint8Clamped value]> array
  | None => array
  end.

Definition pixelAt (c : Canvas) (px py : Z) : list Z :=
  if ((0 <=? px) && (px <? canvasWidth c) &&
      (0 <=? py) && (py <? canvasHeight c))%Z
  then
    let i := Z.to_nat (4 * (py * canvasWidth c + px)) in
    (fun k => default 0%Z (pixels c !! (i + k)%nat)) <$> [0; 1; 2; 3]%nat
  else [0; 0; 0; 0]%Z.

(** Pixels outside the bitmap read as transparent black; an empty rectangle
    is an [IndexSizeError]; a negative extent flips the rectangle. *)
Definition getImageData (c : Canvas) (sx sy sw sh : num) : result ImageData :=
  let '(sx, sy, sw, sh) := (toLong sx, toLong sy, toLong sw, toLong sh) in
  if ((sw =? 0) || (sh =? 0))%Z then Throw IndexSizeError
  else
    let '(sx, sw) := if (sw <? 0)%Z then (sx + sw, - sw)%Z else (sx, sw) in
    let '(sy, sh) := if (sh <? 0)%Z then (sy + sh, - sh)%Z else (sy, sh) in
    Ok {| dataWidth := sw; dataHeight := sh;
          data :=
            row ← seqZ 0 sh; col ← seqZ 0 sw;
            pixelAt c (sx + col) (sy + row) |}.

Definition createImageData (sw sh : num) : result ImageData :=
  let '(sw, sh) := (Z.abs (toLong sw), Z.abs (toLong sh)) in
  if ((sw =? 0) || (sh =? 0))%Z then Throw IndexSizeError
  else Ok {| dataWidth := sw; dataHeight := sh;
             data := replicate (Z.to_nat (4 * sw * sh)) 0%Z |}.

(** Every bitmap pixel covered by the image takes the image's bytes. *)
Definition putImageData (c : Canvas) (img : ImageData) (dx dy : num) : Canvas :=
  let '(dx, dy) := (toLong dx, toLong dy) in
  {| canvasWidth := canvasWidth c;
     canvasHeight := canvasHeight c;
     pixels :=
       py ← seqZ 0 (canvasHeight c); px ← seqZ 0 (canvasWidth c);
       if ((dx <=? px) && (px <? dx + dataWidth img) &&
           (dy <=? py) && (py <? dy + dataHeight img))%Z
       then
         let i := Z.to_nat (4 * ((py - dy) * dataWidth img + (px - dx))) in
         (fun k => default 0%Z (data img !! (i + k)%nat)) <$> [0; 1; 2; 3]%nat
       else pixelAt c px py |}.

End Canvas2D.

(** ** The morph filter ([src/filters/MorphFilter.js]) *)

Module MorphFilter.
Import ViewportUtils.
Module C := Constants.
Module L := Constants.LANDMARKS.

(** The fields of a [MorphFilter] object.  [morphCanvas] is the size of the
    scratch canvas once it exists. *)
Record MorphFilter : Type := {
  intensity : num;
  eyeScaleFactor : num;
  mouthScaleFactor : num;
  faceSlimFactor : num;
  jawReductionFactor : num;
  morphCanvas : option (Z * Z)
}.

(** The constructor. *)
Definition new : MorphFilter :=
  {| intensity := Fin 1; eyeScaleFactor := Fin 2.5;
     mouthScaleFactor := Fin 2.2; faceSlimFactor := Fin 0.85;
     jawReductionFactor := Fin 0.9; morphCanvas := None |}.

(** A fresh canvas element is 300 by 150. *)
Definition initCanvas (this : MorphFilter) : MorphFilter :=
  match morphCanvas this with
  | Some _ => this
  | None =>
      {| intensity := intensity this; eyeScaleFactor := eyeScaleFactor this;
         mouthScaleFactor := mouthScaleFactor this;
         faceSlimFactor := faceSlimFactor this;
         jawReductionFactor := jawReductionFactor this;
         morphCanvas := Some (300, 150)%Z |}
  end.

Definition adjustForPerformance (this : MorphFilter) (performanceLevel : Tier)
  : MorphFilter :=
  let config := C.MORPH performanceLevel in
  {| intensity := C.intensity config;
     eyeScaleFactor := C.eyeScaleFactor config;
     mouthScaleFactor := C.mouthScaleFactor config;
     faceSlimFactor := C.faceSlimFactor config;
     jawReductionFactor := C.jawReductionFactor config;
     morphCanvas := morphCanvas this |}.

Record Region : Type := {
  minX : num;
  minY : num;
  width : num;
  height : num
}.

Definition calculateProcessingRegion (eyeCenter : Point)
    (faceWidth faceHeight canvasWidth canvasHeight : num)
    (performanceLevel : Tier) : Region :=
  let config := C.MORPH performanceLevel in
  let padding := (max faceWidth faceHeight * C.paddingMultiplier config)%num in
  let minX := max (Fin 0)
    (floor (coord eyeCenter 0 - faceWidth * C.faceMultiplier config - padding)) in
  let maxX := min canvasWidth
    (ceil (coord eyeCenter 0 + faceWidth * C.faceMultiplier config + padding)) in
  let minY := max (Fin 0)
    (floor (coord eyeCenter 1 - faceHeight * C.heightMultiplier config - padding)) in
  let maxY := min canvasHeight
    (ceil (coord eyeCenter 1 + faceHeight * C.heightMultiplier config + padding)) in
  {| minX := minX; minY := minY;
     width := (maxX - minX)%num; height := (maxY - minY)%num |}.

Record Landmarks : Type := {
  leftEyeCenter : option Point;
  rightEyeCenter : option Point;
  leftEyeInner : option Point;
  leftEyeOuter : option Point;
  faceLeft : option Point;
  faceRight : option Point;
  chinTip : option Point;
  foreheadCenter : option Point;
  mouthLeftCorner : option Point;
  mouthRightCorner : option Point;
  mouthTopCenter : option Point;
  mouthBottomCenter : option Point;
  mouthCenter : option Point
}.

(** [a || b] on two values that are arrays or [undefined]. *)
Definition orPoint (a b : option Point) : option Point :=
  match a with Some _ => a | None => b end.

Definition getMorphingLandmarks (face : Face) : Landmarks :=
  let mesh := scaledMesh face in
  let mouthLeftCorner := mesh !! L.MOUTH_LEFT_CORNER in
  let mouthRightCorner := mesh !! L.MOUTH_RIGHT_CORNER in
  {| leftEyeCenter := orPoint (mesh !! L.LEFT_EYE_CENTER) (mesh !! L.LEFT_EYE);
     rightEyeCenter :=
       orPoint (mesh !! L.RIGHT_EYE_CENTER) (mesh !! L.RIGHT_EYE);
     leftEyeInner := mesh !! L.LEFT_EYE_INNER;
     leftEyeOuter := mesh !! L.LEFT_EYE_OUTER;
     faceLeft := mesh !! L.FACE_LEFT;
     faceRight := mesh !! L.FACE_RIGHT;
     chinTip := mesh !! L.CHIN_TIP;
     foreheadCenter := mesh !! L.FOREHEAD_CENTER;
     mouthLeftCorner := mouthLeftCorner;
     mouthRightCorner := mouthRightCorner;
     mouthTopCenter := mesh !! L.MOUTH_TOP_CENTER;
     mouthBottomCenter := mesh !! L.MOUTH_BOTTOM_CENTER;
     mouthCenter :=
       match mouthLeftCorner, mouthRightCorner with
       | Some l, Some r =>
           Some [ (coord l 0 + coord r 0) / Fin 2;
                  (coord l 1 + coord r 1) / Fin 2 ]%num
       | _, _ => None
       end |}.

Section Warp.
Context {M : MathLib}.
Variable this : MorphFilter.

Definition calculateEyeInfluence (x y : num) (eyeCenter : option Point)
    (landmarks : Landmarks) : result num :=
  match eyeCenter with
  | None => Ok (Fin 0)
  | Some eyeCenter =>
      let distance :=
        sqrt (pow (x - coord eyeCenter 0) (Fin 2) +
              pow (y - coord eyeCenter 1) (Fin 2))%num in
      outer ← deref (leftEyeOuter landmarks);
      inner ← deref (leftEyeInner landmarks);
      let baseEyeRadius :=
        (abs (coord outer 0 - coord inner 0) * C.EYE_REGION_MULTIPLIER)%num in
      let eyeRadius :=
        (baseEyeRadius *
         (if eyeScaleFactor this >? Fin 2 then C.EYE_EXTREME_MULTIPLIER
          else Fin 1))%num in
      if (distance >? eyeRadius)%num then Ok (Fin 0)
      else
        let normalizedDistance := (distance / eyeRadius)%num in
        let falloff :=
          if (eyeScaleFactor this >? Fin 2)%num
          then pow (cos (normalizedDistance * PI / Fin 2)) (Fin 0.7)
          else cos (normalizedDistance * PI / Fin 2) in
        Ok falloff
  end.

Definition calculateFaceSlimInfluence (x y : num) (landmarks : Landmarks)
  : result num :=
  fr ← deref (faceRight landmarks);
  fl ← deref (faceLeft landmarks);
  let faceWidth := abs (coord fr 0 - coord fl 0) in
  fh ← deref (foreheadCenter landmarks);
  ct ← deref (chinTip landmarks);
  let faceHeight := abs (coord fh 1 - coord ct 1) in
  let faceCenter := ((coord fl 0 + coord fr 0) / Fin 2)%num in
  let faceCenterY := ((coord fh 1 + coord ct 1) / Fin 2)%num in
  let distanceFromCenterX := abs (x - faceCenter) in
  let distanceFromCenterY := abs (y - faceCenterY) in
  if (distanceFromCenterX >? faceWidth * C.FACE_WIDTH_INFLUENCE)%num ||
     (distanceFromCenterY >? faceHeight * C.FACE_HEIGHT_INFLUENCE)%num
  then Ok (Fin 0)
  else
    let horizontalInfluence :=
      max (Fin 0) (Fin 1 - distanceFromCenterX / (faceWidth * Fin 0.3)) in
    let verticalInfluence :=
      max (Fin 0) (Fin 1 - distanceFromCenterY / (faceHeight * Fin 0.6)) in
    Ok (horizontalInfluence * verticalInfluence * C.FACE_SLIM_INTENSITY)%num.

Definition calculateMouthInfluence (x y : num) (mouthCenter : option Point)
    (landmarks : Landmarks) : result num :=
  match mouthCenter, mouthLeftCorner landmarks, mouthRightCorner landmarks with
  | Some mouthCenter, Some leftCorner, Some rightCorner =>
      let distance :=
        sqrt (pow (x - coord mouthCenter 0) (Fin 2) +
              pow (y - coord mouthCenter 1) (Fin 2))%num in
      let mouthWidth := abs (coord rightCorner 0 - coord leftCorner 0) in
      let mouthHeight :=
        match mouthBottomCenter landmarks, mouthTopCenter landmarks with
        | Some bottom, Some top => abs (coord bottom 1 - coord top 1)
        | _, _ => (mouthWidth * Fin 0.3)%num
        end in
      let scaleMultiplier :=
        if (mouthScaleFactor this >? Fin 1.8)%num
        then C.MOUTH_EXTREME_MULTIPLIER else Fin 1 in
      let mouthRadiusX :=
        (mouthWidth * C.MOUTH_REGION_MULTIPLIER * scaleMultiplier)%num in
      let mouthRadiusY :=
        (max (mouthHeight * Fin 1.5) (mouthWidth * Fin 0.5)
         * scaleMultiplier)%num in
      let normalizedX := ((x - coord mouthCenter 0) / mouthRadiusX)%num in
      let normalizedY := ((y - coord mouthCenter 1) / mouthRadiusY)%num in
      let ellipticalDistance :=
        sqrt (normalizedX * normalizedX + normalizedY * normalizedY)%num in
      if (ellipticalDistance >? Fin 1)%num then Ok (Fin 0)
      else
        let falloff :=
          if (mouthScaleFactor this >? Fin 1.8)%num
          then pow (cos (ellipticalDistance * PI / Fin 2)) (Fin 0.6)
          else cos (ellipticalDistance * PI / Fin 2) in
        Ok falloff
  | _, _, _ => Ok (Fin 0)
  end.

(** The block the source repeats for each eye and for the mouth: when the
    influence is positive, pull the running point towards [center] by the
    reciprocal of the scale. *)
Definition undoEnlargement (scaleFactor influence : num)
    (center : option Point) (p : num * num) : result (num * num) :=
  if (influence >? Fin 0)%num then
    let scale :=
      (Fin 1 + (scaleFactor - Fin 1) * influence * intensity this)%num in
    let shrinkFactor := (Fin 1 / scale)%num in
    c ← deref center;
    let centerX := coord c 0 in
    let centerY := coord c 1 in
    Ok (centerX + (p.1 - centerX) * shrinkFactor,
        centerY + (p.2 - centerY) * shrinkFactor)%num
  else Ok p.

Definition inverseTransformPoint (x y : num) (landmarks : Landmarks)
    (canvasWidth canvasHeight : num) : result (num * num) :=
  fl ← deref (faceLeft landmarks);
  fr ← deref (faceRight landmarks);
  let faceCenter := ((coord fl 0 + coord fr 0) / Fin 2)%num in
  faceInfluence ← calculateFaceSlimInfluence x y landmarks;
  let newX :=
    if (faceInfluence >? Fin 0)%num then
      let compressionFactor :=
        (Fin 1 - (Fin 1 - faceSlimFactor this) * faceInfluence
                 * intensity this)%num in
      let expansionFactor := (Fin 1 / compressionFactor)%num in
      (faceCenter + (x - faceCenter) * expansionFactor)%num
    else x in
  let newY := y in
  leftEyeInfluence ←
    calculateEyeInfluence x y (leftEyeCenter landmarks) landmarks;
  rightEyeInfluence ←
    calculateEyeInfluence x y (rightEyeCenter landmarks) landmarks;
  p ← undoEnlargement (eyeScaleFactor this) leftEyeInfluence
        (leftEyeCenter landmarks) (newX, newY);
  p ← undoEnlargement (eyeScaleFactor this) rightEyeInfluence
        (rightEyeCenter landmarks) p;
  mouthInfluence ←
    calculateMouthInfluence x y (mouthCenter landmarks) landmarks;
  undoEnlargement (mouthScaleFactor this) mouthInfluence
    (mouthCenter landmarks) p.

End Warp.

Section Draw.
Context {M : MathLib}.
Import Canvas2D.

(** [for (let i = 0; i < bound; i++) body], threading the loop state and
    stopping at the first exception.  [steps] is the number of iterations
    the bound allows. *)
Fixpoint forLoop {S : Type} (steps : nat) (i : nat)
    (body : nat -> S -> result S) (s : S) : result S :=
  match steps with
  | O => Ok s
  | S steps' => s' ← body i s; forLoop steps' (Datatypes.S i) body s'
  end.

(** How many [i = 0, 1, 2, ...] satisfy [i < bound].  An infinite bound does
    not reach the loops below: [getImageData] has thrown before. *)
Definition iterations (bound : num) : nat :=
  match bound with
  | Fin q => Z.to_nat (Qceiling q)
  | _ => O
  end.

(** The body of the [try] block of [draw]. *)
Definition morphRegion (this : MorphFilter) (ctx : Canvas)
    (landmarks : Landmarks) (region : Region) : result Canvas :=
  let canvasW := ofZ (canvasWidth ctx) in
  let canvasH := ofZ (canvasHeight ctx) in
  videoImageData ←
    getImageData ctx (minX region) (minY region) (width region) (height region);
  let sourceData := data videoImageData in
  outputImageData ← createImageData (width region) (height region);
  outputData ←
    forLoop (iterations (height region)) 0 (fun y (outputData : list Z) =>
      forLoop (iterations (width region)) 0 (fun x (outputData : list Z) =>
        let x := ofZ (Z.of_nat x) in
        let y := ofZ (Z.of_nat y) in
        let outputIndex := ((y * width region + x) * Fin 4)%num in
        let worldX := (minX region + x)%num in
        let worldY := (minY region + y)%num in
        source ←
          inverseTransformPoint this worldX worldY landmarks canvasW canvasH;
        let relativeSourceX := (source.1 - minX region)%num in
        let relativeSourceY := (source.2 - minY region)%num in
        let sample :=
          bilinearSample sourceData relativeSourceX relativeSourceY
            (width region) (height region) in
        let outputData := writeByte outputData outputIndex (coord sample 0) in
        let outputData :=
          writeByte outputData (outputIndex + Fin 1) (coord sample 1) in
        let outputData :=
          writeByte outputData (outputIndex + Fin 2) (coord sample 2) in
        Ok (writeByte outputData (outputIndex + Fin 3) (coord sample 3)))
        outputData)
      (data outputImageData);
  Ok (putImageData ctx
        {| dataWidth := dataWidth outputImageData;
           dataHeight := dataHeight outputImageData;
           data := outputData |}
        (minX region) (minY region)).

Definition resizeMorphCanvas (this : MorphFilter) (size : Z * Z) : MorphFilter :=
  {| intensity := intensity this; eyeScaleFactor := eyeScaleFactor this;
     mouthScaleFactor := mouthScaleFactor this;
     faceSlimFactor := faceSlimFactor this;
     jawReductionFactor := jawReductionFactor this;
     morphCanvas := Some size |}.

(** [draw] returns how the call completed together with the filter object
    and the canvas as the call left them. *)
Definition draw (this : MorphFilter) (ctx : Canvas) (face : Face)
    (animationTime : num) (qualitySettings : Quality.QualitySettings)
  : result unit * (MorphFilter * Canvas) :=
  let this := initCanvas this in
  match Quality.performanceLevel qualitySettings with
  | None => (Throw TypeError, (this, ctx))
  | Some level =>
      let this := adjustForPerformance this level in
      let this := resizeMorphCanvas this (canvasWidth ctx, canvasHeight ctx) in
      let landmarks := getMorphingLandmarks face in
      let points := getFacePoints face in
      match getFaceDimensions points with
      | Throw e => (Throw e, (this, ctx))
      | Ok dims =>
          let region :=
            calculateProcessingRegion (eyeCenter dims) (faceWidth dims)
              (faceHeight dims) (ofZ (canvasWidth ctx))
              (ofZ (canvasHeight ctx)) level in
          if (width region <=? Fin 0)%num || (height region <=? Fin 0)%num
          then (Ok tt, (this, ctx))
          else
            match morphRegion this ctx landmarks region with
            | Ok ctx' => (Ok tt, (this, ctx'))
            | Throw _ => (Ok tt, (this, ctx))
            end
      end
  end.

End Draw.
End MorphFilter.

(** ** The inverse warp on binary64 numbers

    The exact arithmetic of [num] leaves out the rounding of the code's
    numbers.  This module repeats [inverseTransformPoint], with the three
    influences, on Rocq's primitive floats, which are IEEE 754 binary64
    numbers, to show where rounding separates the code from the exact
    model.  [Math.cos] and [Math.pow], whose results the language leaves to
    the implementation, are parameters; [Math.sqrt] and [Math.abs] are
    those of IEEE 754. *)

Module Binary64.
Import PrimFloat.
Local Open Scope float_scope.
Local Set Warnings "-inexact-float".

Definition Point : Type := list float.

(** [point[i]] used as a number: [undefined] counts as NaN. *)
Definition coord (p : Point) (i : nat) : float := default nan (p !! i).

Record Landmarks : Type := {
  leftEyeCenter : option Point;
  rightEyeCenter : option Point;
  leftEyeInner : option Point;
  leftEyeOuter : option Point;
  faceLeft : option Point;
  faceRight : option Point;
  chinTip : option Point;
  foreheadCenter : option Point;
  mouthLeftCorner : option Point;
  mouthRightCorner : option Point;
  mouthTopCenter : option Point;
  mouthBottomCenter : option Point;
  mouthCenter : option Point
}.

Record MorphFilter : Type := {
  intensity : float;
  eyeScaleFactor : float;
  mouthScaleFactor : float;
  faceSlimFactor : float
}.

(** [a > b] *)
Definition gt (a b : float) : bool := b <? a.

(** [Math.max] of two arguments: NaN is contagious and +0 is larger than
    -0. *)
Definition max (a b : float) : float :=
  if is_nan a || is_nan b then nan
  else if a <? b then b
  else if b <? a then a
  else if is_zero a then a + b
  else a.

(** [Math.PI] *)
Definition PI : float := 0x1.921fb54442d18p+1.

Section Warp.
Variable cos : float -> float.
Variable pow : float -> float -> float.
Variable this : MorphFilter.

Definition calculateEyeInfluence (x y : float) (eyeCenter : option Point)
    (landmarks : Landmarks) : result float :=
  match eyeCenter with
  | None => Ok 0
  | Some eyeCenter =>
      let distance :=
        sqrt (pow (x - coord eyeCenter 0) 2 + pow (y - coord eyeCenter 1) 2) in
      outer ← deref (leftEyeOuter landmarks);
      inner ← deref (leftEyeInner landmarks);
      let baseEyeRadius := abs (coord outer 0 - coord inner 0) * 1.2 in
      let eyeRadius :=
        baseEyeRadius * (if gt (eyeScaleFactor this) 2 then 1.3 else 1) in
      if gt distance eyeRadius then Ok 0
      else
        let normalizedDistance := distance / eyeRadius in
        let falloff :=
          if gt (eyeScaleFactor this) 2
          then pow (cos (normalizedDistance * PI / 2)) 0.7
          else cos (normalizedDistance * PI / 2) in
        Ok falloff
  end.

Definition calculateFaceSlimInfluence (x y : float) (landmarks : Landmarks)
  : result float :=
  fr ← deref (faceRight landmarks);
  fl ← deref (faceLeft landmarks);
  let faceWidth := abs (coord fr 0 - coord fl 0) in
  fh ← deref (foreheadCenter landmarks);
  ct ← deref (chinTip landmarks);
  let faceHeight := abs (coord fh 1 - coord ct 1) in
  let faceCenter := (coord fl 0 + coord fr 0) / 2 in
  let faceCenterY := (coord fh 1 + coord ct 1) / 2 in
  let distanceFromCenterX := abs (x - faceCenter) in
  let distanceFromCenterY := abs (y - faceCenterY) in
  if gt distanceFromCenterX (faceWidth * 0.6) ||
     gt distanceFromCenterY (faceHeight * 0.6)
  then Ok 0
  else
    let horizontalInfluence :=
      max 0 (1 - distanceFromCenterX / (faceWidth * 0.3)) in
    let verticalInfluence :=
      max 0 (1 - distanceFromCenterY / (faceHeight * 0.6)) in
    Ok (horizontalInfluence * verticalInfluence * 0.8).

Definition calculateMouthInfluence (x y : float) (mouthCenter : option Point)
    (landmarks : Landmarks) : result float :=
  match mouthCenter, mouthLeftCorner landmarks, mouthRightCorner landmarks with
  | Some mouthCenter, Some leftCorner, Some rightCorner =>
      let distance :=
        sqrt (pow (x - coord mouthCenter 0) 2
              + pow (y - coord mouthCenter 1) 2) in
      let mouthWidth := abs (coord rightCorner 0 - coord leftCorner 0) in
      let mouthHeight :=
        match mouthBottomCenter landmarks, mouthTopCenter landmarks with
        | Some bottom, Some top => abs (coord bottom 1 - coord top 1)
        | _, _ => mouthWidth * 0.3
        end in
      let scaleMultiplier :=
        if gt (mouthScaleFactor this) 1.8 then 1.4 else 1 in
      let mouthRadiusX := mouthWidth * 0.9 * scaleMultiplier in
      let mouthRadiusY :=
        max (mouthHeight * 1.5) (mouthWidth * 0.5) * scaleMultiplier in
      let normalizedX := (x - coord mouthCenter 0) / mouthRadiusX in
      let normalizedY := (y - coord mouthCenter 1) / mouthRadiusY in
      let ellipticalDistance :=
        sqrt (normalizedX * normalizedX + normalizedY * normalizedY) in
      if gt ellipticalDistance 1 then Ok 0
      else
        let falloff :=
          if gt (mouthScaleFactor this) 1.8
          then pow (cos (ellipticalDistance * PI / 2)) 0.6
          else cos (ellipticalDistance * PI / 2) in
        Ok falloff
  | _, _, _ => Ok 0
  end.

Definition undoEnlargement (scaleFactor influence : float)
    (center : option Point) (p : float * float) : result (float * float) :=
  if gt influence 0 then
    let scale := 1 + (scaleFactor - 1) * influence * intensity this in
    let shrinkFactor := 1 / scale in
    c ← deref center;
    let centerX := coord c 0 in
    let centerY := coord c 1 in
    Ok (centerX + (p.1 - centerX) * shrinkFactor,
        centerY + (p.2 - centerY) * shrinkFactor)
  else Ok p.

Definition inverseTransformPoint (x y : float) (landmarks : Landmarks)
  : result (float * float) :=
  fl ← deref (faceLeft landmarks);
  fr ← deref (faceRight landmarks);
  let faceCenter := (coord fl 0 + coord fr 0) / 2 in
  faceInfluence ← calculateFaceSlimInfluence x y landmarks;
  let newX :=
    if gt faceInfluence 0 then
      let compressionFactor :=
        1 - (1 - faceSlimFactor this) * faceInfluence * intensity this in
      let expansionFactor := 1 / compressionFactor in
      faceCenter + (x - faceCenter) * expansionFactor
    else x in
  let newY := y in
  leftEyeInfluence ←
    calculateEyeInfluence x y (leftEyeCenter landmarks) landmarks;
  rightEyeInfluence ←
    calculateEyeInfluence x y (rightEyeCenter landmarks) landmarks;
  p ← undoEnlargement (eyeScaleFactor this) leftEyeInfluence
        (leftEyeCenter landmarks) (newX, newY);
  p ← undoEnlargement (eyeScaleFactor this) rightEyeInfluence
        (rightEyeCenter landmarks) p;
  mouthInfluence ←
    calculateMouthInfluence x y (mouthCenter landmarks) landmarks;
  undoEnlargement (mouthScaleFactor this) mouthInfluence
    (mouthCenter landmarks) p.

End Warp.

(** The filter of the constructor with its intensity set to 0. *)
Definition stilled : MorphFilter :=
  {| intensity := 0; eyeScaleFactor := 2.5; mouthScaleFactor := 2.2;
     faceSlimFactor := 0.85 |}.

(** The landmarks of a face that hangs over the left edge of the canvas,
    its eye centres and mouth corners not among them. *)
Definition leftEdgeFace : Landmarks :=
  {| leftEyeCenter := None; rightEyeCenter := None;
     leftEyeInner := Some [-100; 200]; leftEyeOuter := Some [-130; 200];
     faceLeft := Some [-180.3; 300]; faceRight := Some [55.7; 300];
     chinTip := Some [-62; 400]; foreheadCenter := Some [-62; 150];
     mouthLeftCorner := None; mouthRightCorner := None;
     mouthTopCenter := None; mouthBottomCenter := None;
     mouthCenter := None |}.

(** A pixel near the left edge of the canvas, and the binary64 number
    sixteen units in the last place above 3, which prints as
    3.000000000000007. *)
Definition edgePixel : float * float := (3, 260).

Definition aboveThree : float := 0x1.800000000001p+1.

End Binary64.

(** ** Fast trigonometry and small helpers
       ([src/utils/mathUtils.js], first module) *)

Module MathUtils.

(** [MATH.LOOKUP_SIZE] *)
Definition LOOKUP_SIZE : Z := 360.

(** A lookup table is a JavaScript array: a slot holds a number or is a
    hole, which reads as [undefined]. *)
Record MathUtils : Type := {
  sinLookup : list (option num);
  cosLookup : list (option num);
  lookupSize : Z;
  initialized : bool
}.

(** The constructor. *)
Definition new : MathUtils :=
  {| sinLookup := []; cosLookup := []; lookupSize := LOOKUP_SIZE;
     initialized := false |}.

(** [array[i] = value]: a write past the end extends the array, leaving
    holes in between. *)
Definition store (array : list (option num)) (i : nat) (value : num)
  : list (option num) :=
  if (i <? length array)%nat then <[i := Some value]> array
  else array ++ replicate (i - length array) None ++ [Some value].

(** [array[index]] *)
Definition read (array : list (option num)) (index : num) : option num :=
  i ← asIndex index; mjoin (array !! i).

Section Tables.
Context {M : MathLib} {T : TrigLib}.

(** The body of the loop of [init]. *)
Definition fill (this : MathUtils) (i : nat) : MathUtils :=
  let rad := (ofZ (Z.of_nat i) * PI * Fin 2 / ofZ (lookupSize this))%num in
  {| sinLookup := store (sinLookup this) i (sin rad);
     cosLookup := store (cosLookup this) i (cos rad);
     lookupSize := lookupSize this;
     initialized := initialized this |}.

Definition init (this : MathUtils) : MathUtils :=
  if initialized this then this
  else
    let this := foldl fill this (seq 0 (Z.to_nat (lookupSize this))) in
    {| sinLookup := sinLookup this; cosLookup := cosLookup this;
       lookupSize := lookupSize this; initialized := true |}.

(** The slot both fast functions read. *)
Definition lookupIndex (this : MathUtils) (angle : num) : num :=
  let index :=
    floor (rem angle (PI * Fin 2) / (PI * Fin 2) * ofZ (lookupSize this)) in
  max (Fin 0) (min (ofZ (lookupSize this) - Fin 1) index).

(** [fastSin] and [fastCos] return the slot's content, [undefined] when
    there is none, and the object, which the call may have initialised. *)
Definition fastSin (this : MathUtils) (angle : num)
  : option num * MathUtils :=
  let this := if initialized this then this else init this in
  (read (sinLookup this) (lookupIndex this angle), this).

Definition fastCos (this : MathUtils) (angle : num)
  : option num * MathUtils :=
  let this := if initialized this then this else init this in
  (read (cosLookup this) (lookupIndex this angle), this).

Definition distance2D (x1 y1 x2 y2 : num) : num :=
  sqrt (pow (x2 - x1) (Fin 2) + pow (y2 - y1) (Fin 2))%num.

Definition ellipticalDistance (x y centerX centerY radiusX radiusY : num)
  : num :=
  let normalizedX := ((x - centerX) / radiusX)%num in
  let normalizedY := ((y - centerY) / radiusY)%num in
  sqrt (normalizedX * normalizedX + normalizedY * normalizedY)%num.

(** [power] is optional and defaults to 1. *)
Definition smoothFalloff (normalizedDistance : num) (power : option num)
  : num :=
  let power := default (Fin 1) power in
  if (normalizedDistance >? Fin 1)%num then Fin 0
  else pow (cos (normalizedDistance * PI / Fin 2)) power.

End Tables.

Definition lerp (a b t : num) : num := (a + (b - a) * t)%num.

Definition clamp (value min max : num) : num :=
  JS.max min (JS.min max value).

End MathUtils.

(** ** The animated filters ([src/filters/AnimatedFilter.js])

    The 2D context is embedded as the sequence of calls and property writes
    made on it, in order; [ctx.canvas.width] and [ctx.canvas.height] do not
    change.  The lookup tables of the shared [mathUtils] object are part of
    the state, since the first fast sine or cosine fills them. *)

Module AnimatedFilter.
Import ViewportUtils.

Inductive Cmd : Type :=
  | Save
  | Restore
  | FillStyle (color : string)
  | ShadowColor (color : string)
  | ShadowBlur (blur : num)
  | BeginPath
  | ClosePath
  | Fill
  | Arc (x y radius startAngle endAngle : num)
  | Ellipse (x y radiusX radiusY rotation startAngle endAngle : num)
  | MoveTo (x y : num)
  | LineTo (x y : num)
  | BezierCurveTo (cp1x cp1y cp2x cp2y x y : num)
  | Translate (x y : num)
  | Rotate (angle : num)
  | Scale (x y : num).

Record World : Type := {
  canvasWidth : Z;
  canvasHeight : Z;
  trace : list Cmd;
  mathUtils : MathUtils.MathUtils
}.

(** One entry of [parts] in a filter definition; a property the entry
    does not have is [None]. *)
Record Part : Type := {
  type : string;
  position : string;
  color : string;
  size : option num;
  speed : option num;
  count : option num
}.

(** [ANIMATION], [FILTER_SIZES] and [CULLING] *)
Definition BOUNCE_AMPLITUDE : num := Fin 20.
Definition BOUNCE_SPEED : num := Fin 3.
Definition TWINKLE_SPEED : num := Fin 4.
Definition FLOAT_AMPLITUDE : num := Fin 15.
Definition FLOAT_SPEED : num := Fin 2.
Definition SCALE_SPEED : num := Fin 3.
Definition PARTICLE_BURST_DISTANCE : num := Fin 30.
Definition PARTICLE_BURST_AMPLITUDE : num := Fin 20.
Definition PARTICLE_SIZE_BASE : num := Fin 3.
Definition PARTICLE_SIZE_VARIANCE : num := Fin 2.
Definition FISH_CULL_RADIUS_MULTIPLIER : num := Fin 50.
Definition PARTICLE_MAX_DISTANCE : num := Fin 50.

(** A computation on the context: it returns or throws, and leaves the
    calls made so far. *)
Definition Draw (A : Type) : Type := World -> result A * World.

#[global] Instance draw_ret : MRet Draw := fun A a w => (Ok a, w).

#[global] Instance draw_bind : MBind Draw := fun A B k m w =>
  match m w with
  | (Ok a, w') => k a w'
  | (Throw e, w') => (Throw e, w')
  end.

Definition lift {A : Type} (r : result A) : Draw A := fun w => (r, w).

(** Calls and property writes on [ctx]. *)
Definition emit (cmds : list Cmd) : Draw unit := fun w =>
  (Ok tt,
   {| canvasWidth := canvasWidth w; canvasHeight := canvasHeight w;
      trace := trace w ++ cmds; mathUtils := mathUtils w |}).

(** [isInViewport(x, y, radius, ctx.canvas.width, ctx.canvas.height)] *)
Definition inViewport (x y radius : num) : Draw bool := fun w =>
  (Ok (isInViewport x y radius (ofZ (canvasWidth w)) (ofZ (canvasHeight w))),
   w).

(** [ctx.arc(x, y, radius, startAngle, endAngle)] with a radius computed
    from a part's [size].  A call with a NaN or infinite argument returns
    without doing anything; otherwise a negative radius throws an
    [IndexSizeError].  A call that returns is recorded as [Arc]. *)
Definition arc (x y radius startAngle endAngle : num) : Draw unit :=
  if forallb isFinite [x; y; radius; startAngle; endAngle]
     && (radius <? Fin 0)%num
  then lift (Throw IndexSizeError)
  else emit [Arc x y radius startAngle endAngle].

Section Drawing.
Context {M : MathLib} {T : TrigLib}.

(** [mathUtils.fastSin] and [mathUtils.fastCos] used as numbers:
    [undefined] counts as NaN. *)
Definition fastSin (angle : num) : Draw num := fun w =>
  let r := MathUtils.fastSin (mathUtils w) angle in
  (Ok (default NaN r.1),
   {| canvasWidth := canvasWidth w; canvasHeight := canvasHeight w;
      trace := trace w; mathUtils := r.2 |}).

Definition fastCos (angle : num) : Draw num := fun w =>
  let r := MathUtils.fastCos (mathUtils w) angle in
  (Ok (default NaN r.1),
   {| canvasWidth := canvasWidth w; canvasHeight := canvasHeight w;
      trace := trace w; mathUtils := r.2 |}).

Definition animationSpeed (quality : Quality.QualitySettings) : num :=
  Fin (Constants.animationSpeed (Quality.settings quality)).

Definition shadowBlur (quality : Quality.QualitySettings) : num :=
  ofZ (Constants.shadowBlur (Quality.settings quality)).

Definition particleCount (quality : Quality.QualitySettings) : num :=
  ofZ (Constants.particleCount (Quality.settings quality)).

(** [getPartPosition]; the two cheeks may be missing from the points. *)
Definition getPartPosition (part : Part) (points : FacePoints)
    (eyeCenter : Point) (faceWidth faceHeight : num) (index : nat)
  : result (num * num) :=
  let at_ (p : option Point) : result (num * num) :=
    p ← deref p; Ok (coord p 0, coord p 1) in
  if String.eqb (position part) "left_eye" then at_ (leftEye points)
  else if String.eqb (position part) "right_eye" then at_ (rightEye points)
  else if String.eqb (position part) "nose" then at_ (noseTip points)
  else if String.eqb (position part) "crown" then
    fore ← deref (foreheadCenter points);
    Ok (coord eyeCenter 0, coord fore 1 - faceHeight * Fin 0.5)%num
  else if String.eqb (position part) "left_cheek" then at_ (leftCheek points)
  else if String.eqb (position part) "right_cheek" then
    at_ (rightCheek points)
  else if String.eqb (position part) "random_orbit" ||
          String.eqb (position part) "horizontal_swim" then
    Ok (coord eyeCenter 0,
        coord eyeCenter 1 + (ofZ (Z.of_nat index) * Fin 40 - Fin 20))%num
  else Ok (coord eyeCenter 0, coord eyeCenter 1).

Definition drawBouncingBall (x y size : num) (color : string) (time : num)
    (quality : Quality.QualitySettings) : Draw unit :=
  s ← fastSin (time * BOUNCE_SPEED * animationSpeed quality)%num;
  let bounce := (abs s * BOUNCE_AMPLITUDE)%num in
  visible ← inViewport x (y - bounce)%num size;
  if negb visible then mret tt
  else
    emit [ FillStyle color; ShadowColor color;
           ShadowBlur (shadowBlur quality); BeginPath ];;
    arc x (y - bounce)%num size (Fin 0) (PI * Fin 2)%num;;
    emit [ Fill ].

(** The ten corners of the star. *)
Definition starPath (outerRadius innerRadius : num) : list Cmd :=
  (fun i : nat =>
     let radius :=
       if (i mod 2 =? 0)%nat then outerRadius else innerRadius in
     let angle := (ofZ (Z.of_nat i) * PI / Fin 5)%num in
     let px := (cos angle * radius)%num in
     let py := (sin angle * radius)%num in
     if (i =? 0)%nat then MoveTo px py else LineTo px py) <$> seq 0 10.

Definition drawTwinklingStar (x y size : num) (color : string) (time : num)
    (quality : Quality.QualitySettings) : Draw unit :=
  s ← fastSin (time * TWINKLE_SPEED * animationSpeed quality)%num;
  let twinkle := (Fin 0.5 + Fin 0.5 * s)%num in
  let outerRadius := (size * twinkle)%num in
  let innerRadius := (size * Fin 0.5 * twinkle)%num in
  visible ← inViewport x y outerRadius;
  if negb visible then mret tt
  else
    let rotation := (time * Fin 0.5 * animationSpeed quality)%num in
    emit ([ FillStyle color; ShadowColor color;
            ShadowBlur (shadowBlur quality * twinkle)%num;
            Save; Translate x y; Rotate rotation; BeginPath ]
          ++ starPath outerRadius innerRadius
          ++ [ ClosePath; Fill; Restore ]).

(** The callback of [heartPositions.forEach]. *)
Definition drawHeart (size : num) (color : string) (time : num)
    (pos : num * num) (i : nat) : Draw unit :=
  f ← fastSin (time * FLOAT_SPEED + ofZ (Z.of_nat i))%num;
  let float := (f * FLOAT_AMPLITUDE)%num in
  s ← fastSin (time * SCALE_SPEED + ofZ (Z.of_nat i))%num;
  let scale := (Fin 0.8 + Fin 0.2 * s)%num in
  let heartSize := (size * scale)%num in
  let finalY := (pos.2 + float)%num in
  visible ← inViewport pos.1 finalY (heartSize * Fin 30)%num;
  if negb visible then mret tt
  else
    emit [ Save; FillStyle color; ShadowColor color; ShadowBlur (Fin 8);
           Translate pos.1 finalY; Scale heartSize heartSize;
           BeginPath; MoveTo (Fin 0) (Fin 0);
           BezierCurveTo (Fin (-0.5)) (Fin (-0.5)) (Fin (-1)) (Fin (-0.2))
             (Fin (-0.5)) (Fin 0.2);
           BezierCurveTo (Fin 0) (Fin 0.8) (Fin 0) (Fin 0.8) (Fin 0) (Fin 0.8);
           BezierCurveTo (Fin 0) (Fin 0.8) (Fin 0) (Fin 0.8) (Fin 0.5)
             (Fin 0.2);
           BezierCurveTo (Fin 1) (Fin (-0.2)) (Fin 0.5) (Fin (-0.5)) (Fin 0)
             (Fin 0);
           Fill; Restore ].

(** [array.forEach] with the index, for a callback that does not throw
    more than [Draw] allows. *)
Fixpoint forEachIndexed {A : Type} (callback : A -> nat -> Draw unit)
    (items : list A) (index : nat) : Draw unit :=
  match items with
  | [] => mret tt
  | item :: rest =>
      callback item index;; forEachIndexed callback rest (S index)
  end.

Definition drawFloatingHearts (eyeCenter : Point)
    (faceWidth faceHeight size : num) (color : string) (time : num)
    (partIndex : nat) : Draw unit :=
  let ex := coord eyeCenter 0 in
  let ey := coord eyeCenter 1 in
  let heartPositions :=
    [ (ex - faceWidth * Fin 0.6, ey - faceHeight * Fin 0.3);
      (ex + faceWidth * Fin 0.6, ey - faceHeight * Fin 0.3);
      (ex - faceWidth * Fin 0.8, ey + faceHeight * Fin 0.2);
      (ex + faceWidth * Fin 0.8, ey + faceHeight * Fin 0.2);
      (ex, ey - faceHeight * Fin 0.8);
      (ex, ey + faceHeight * Fin 0.6) ]%num in
  forEachIndexed (drawHeart size color time) heartPositions 0.

Definition drawMovingDot (centerX centerY size : num) (color : string)
    (time speed faceWidth : num) (quality : Quality.QualitySettings)
  : Draw unit :=
  let radius := (faceWidth * Fin 0.6)%num in
  let angle := (time * speed)%num in
  c ← fastCos angle;
  let x := (centerX + c * radius)%num in
  s ← fastSin angle;
  let y := (centerY + s * radius * Fin 0.7)%num in
  visible ← inViewport x y size;
  if negb visible then mret tt
  else
    emit [ FillStyle color; ShadowColor color;
           ShadowBlur (shadowBlur quality); BeginPath ];;
    arc x y size (Fin 0) (PI * Fin 2)%num;;
    emit [ Fill ].

Definition drawSwimmingFish (baseX baseY baseSize : num) (color : string)
    (time speed faceWidth : num) (quality : Quality.QualitySettings)
  : Draw unit :=
  s ← fastSin (time * speed)%num;
  let swimX := (baseX + s * faceWidth * Fin 0.8)%num in
  c ← fastCos (time * speed * Fin 0.7)%num;
  let swimY := (baseY + c * Fin 20)%num in
  p ← fastSin (time * Fin 2)%num;
  let fishSize := (baseSize * (Fin 0.8 + Fin 0.2 * p))%num in
  visible ←
    inViewport swimX swimY (FISH_CULL_RADIUS_MULTIPLIER * fishSize)%num;
  if negb visible then mret tt
  else
    emit [ Save; FillStyle color; ShadowColor color;
           ShadowBlur (shadowBlur quality); Translate swimX swimY;
           Scale fishSize fishSize;
           BeginPath;
           Ellipse (Fin 0) (Fin 0) (Fin 30) (Fin 15) (Fin 0) (Fin 0)
             (PI * Fin 2)%num;
           Fill;
           BeginPath; MoveTo (Fin (-25)) (Fin 0);
           LineTo (Fin (-40)) (Fin (-10)); LineTo (Fin (-40)) (Fin 10);
           ClosePath; Fill;
           FillStyle "#000"; BeginPath;
           Arc (Fin 10) (Fin (-5)) (Fin 3) (Fin 0) (PI * Fin 2)%num; Fill;
           Restore ].

(** The body of the loop of [drawParticleBurst].  The radius of a sparkle
    is 3 plus twice an entry of the sine table: with the table [init] fills
    it lies between 1 and 5 or is NaN, so this call of [ctx.arc] returns and
    is recorded as it is. *)
Definition drawSparkle (x y time actualCount : num)
    (quality : Quality.QualitySettings) (i : nat) : Draw unit :=
  let angle := (ofZ (Z.of_nat i) / actualCount * PI * Fin 2)%num in
  d ← fastSin (time * Fin 3 * animationSpeed quality)%num;
  let distance :=
    (PARTICLE_BURST_DISTANCE + d * PARTICLE_BURST_AMPLITUDE)%num in
  c ← fastCos angle;
  let px := (x + c * distance)%num in
  s ← fastSin angle;
  let py := (y + s * distance)%num in
  v ← fastSin (time * Fin 4 * animationSpeed quality + ofZ (Z.of_nat i))%num;
  let sparkleSize := (PARTICLE_SIZE_BASE + v * PARTICLE_SIZE_VARIANCE)%num in
  visible ← inViewport px py sparkleSize;
  if (visible : bool) then
    emit [ BeginPath; Arc px py sparkleSize (Fin 0) (PI * Fin 2)%num; Fill ]
  else mret tt.

(** [count] is [undefined] when the part has none.  The bound of the loop
    is at most [quality.particleCount], so it is never infinite. *)
Definition drawParticleBurst (x y time : num) (color : string)
    (count : option num) (quality : Quality.QualitySettings) : Draw unit :=
  let actualCount := min (default NaN count) (particleCount quality) in
  visible ← inViewport x y PARTICLE_MAX_DISTANCE;
  if negb visible then mret tt
  else
    emit [ FillStyle color; ShadowColor color;
           ShadowBlur (shadowBlur quality) ];;
    forEachIndexed (fun i _ => drawSparkle x y time actualCount quality i)
      (seq 0 (MorphFilter.iterations actualCount)) 0.

(** The callback of [this.parts.forEach] in [draw]. *)
Definition drawPart (points : FacePoints) (dims : FaceDimensions)
    (animationTime : num) (qualitySettings : Quality.QualitySettings)
    (part : Part) (index : nat) : Draw unit :=
  xy ← lift (getPartPosition part points (eyeCenter dims) (faceWidth dims)
               (faceHeight dims) index);
  let size := (faceWidth dims * default NaN (size part))%num in
  if String.eqb (type part) "bouncing_ball" then
    drawBouncingBall xy.1 xy.2 size (color part) animationTime
      qualitySettings
  else if String.eqb (type part) "twinkling_star" then
    drawTwinklingStar xy.1 xy.2 size (color part) animationTime
      qualitySettings
  else if String.eqb (type part) "floating_heart" then
    drawFloatingHearts (eyeCenter dims) (faceWidth dims) (faceHeight dims)
      size (color part) animationTime index
  else if String.eqb (type part) "moving_dot" then
    drawMovingDot xy.1 xy.2 size (color part) animationTime
      (default NaN (speed part)) (faceWidth dims) qualitySettings
  else if String.eqb (type part) "swimming_fish" then
    drawSwimmingFish xy.1 xy.2 (default NaN (AnimatedFilter.size part))
      (color part) animationTime (default NaN (speed part)) (faceWidth dims)
      qualitySettings
  else if String.eqb (type part) "particle_burst" then
    drawParticleBurst xy.1 xy.2 animationTime (color part) (count part)
      qualitySettings
  else mret tt.

(** [draw] of an animated filter with the given parts. *)
Definition draw (parts : list Part) (face : Face) (animationTime : num)
    (qualitySettings : Quality.QualitySettings) : Draw unit :=
  let points := getFacePoints face in
  dims ← lift (getFaceDimensions points);
  emit [Save];;
  forEachIndexed (drawPart points dims animationTime qualitySettings)
    parts 0;;
  emit [Restore].

End Drawing.
End AnimatedFilter.

(** ** The filter renderer ([src/filters/FilterRenderer.js]) *)

Module FilterRenderer.
Import ViewportUtils.

Section Render.

(** What a [draw] call can change: the canvas behind [ctx] together with the
    state of the filter objects.  [canvasSize] reads [ctx.canvas.width] and
    [ctx.canvas.height]. *)
Variable World : Type.
Variable canvasSize : World -> Z * Z.

(** A filter object, as far as [render] uses it: its [draw] method, which
    returns how the call completed and the world as the call left it. *)
Definition Filter : Type :=
  World -> Face -> num -> Quality.QualitySettings -> result unit * World.

Record FilterRenderer : Type := {
  filters : gmap string Filter;
  currentFilterName : string;
  animationTime : num
}.

(** [setFilter] returns whether the name was accepted, and the renderer. *)
Definition setFilter (this : FilterRenderer) (filterName : string)
  : bool * FilterRenderer :=
  if String.eqb filterName "none" || bool_decide (is_Some (filters this !! filterName))
  then (true,
        {| filters := filters this; currentFilterName := filterName;
           animationTime := animationTime this |})
  else (false, this).

Definition getCurrentFilter (this : FilterRenderer) : string :=
  currentFilterName this.

Definition updateAnimationTime (this : FilterRenderer) (deltaTime : num)
  : FilterRenderer :=
  {| filters := filters this; currentFilterName := currentFilterName this;
     animationTime := (animationTime this + deltaTime / Fin 1000)%num |}.

Definition resetAnimationTime (this : FilterRenderer) : FilterRenderer :=
  {| filters := filters this; currentFilterName := currentFilterName this;
     animationTime := Fin 0 |}.

(** The callback [render] hands to [faces.forEach].  The cull test runs
    before the [try]; only the [draw] call is inside it. *)
Definition renderFace (filter : Filter) (animationTime : num)
    (qualitySettings : Quality.QualitySettings)
    (canvasWidth canvasHeight : num) (w : World) (face : Face)
  : result unit * World :=
  match shouldCullAnimation face canvasWidth canvasHeight with
  | Throw e => (Throw e, w)
  | Ok true => (Ok tt, w)
  | Ok false =>
      let drawn :=
        filter w face animationTime
          {| Quality.settings := Quality.settings qualitySettings;
             Quality.performanceLevel :=
               Some (default high (Quality.performanceLevel qualitySettings)) |} in
      (Ok tt, drawn.2)
  end.

(** [Array.prototype.forEach]: an exception thrown by the callback ends the
    iteration and propagates. *)
Fixpoint forEach (callback : World -> Face -> result unit * World)
    (faces : list Face) (w : World) : result unit * World :=
  match faces with
  | [] => (Ok tt, w)
  | face :: rest =>
      match callback w face with
      | (Ok _, w') => forEach callback rest w'
      | (Throw e, w') => (Throw e, w')
      end
  end.

Definition render (this : FilterRenderer) (w : World) (faces : list Face)
    (qualitySettings : Quality.QualitySettings) : result unit * World :=
  if String.eqb (currentFilterName this) "none" || (length faces =? 0)%nat
  then (Ok tt, w)
  else
    match filters this !! currentFilterName this with
    | None => (Ok tt, w)
    | Some filter =>
        let canvasWidth := ofZ (canvasSize w).1 in
        let canvasHeight := ofZ (canvasSize w).2 in
        forEach
          (renderFace filter (animationTime this) qualitySettings
             canvasWidth canvasHeight)
          faces w
    end.

End Render.

(** The world of a renderer whose filters are morph filters: the filter
    object and the canvas. *)
Definition MorphWorld : Type := MorphFilter.MorphFilter * Canvas2D.Canvas.


Definition morphFilter {M : MathLib} : Filter MorphWorld :=
  fun w face animationTime qualitySettings =>
    MorphFilter.draw w.1 w.2 face animationTime qualitySettings.

End FilterRenderer.

(** ** Browser detection ([src/utils/browserDetection.js])

    The detector reads [navigator.userAgent] once, in its constructor, and
    every getter caches its first answer; the getters are therefore
    functions of that string.  A string is a sequence of 8-bit characters,
    and the regular expressions of the source are embedded as the searches
    they perform. *)

Module BrowserDetector.

(** [s] begins with [pattern]. *)
Fixpoint startsWith (pattern s : string) : bool :=
  match pattern, s with
  | EmptyString, _ => true
  | String a pattern', String b s' => Ascii.eqb a b && startsWith pattern' s'
  | String _ _, EmptyString => false
  end.

(** [/pattern/.test(s)] for a pattern without metacharacters. *)
Fixpoint contains (pattern s : string) : bool :=
  startsWith pattern s ||
  match s with
  | EmptyString => false
  | String _ s' => contains pattern s'
  end.

(** [/a|b|.../.test(s)] for alternatives without metacharacters. *)
Definition containsAny (patterns : list string) (s : string) : bool :=
  existsb (fun pattern => contains pattern s) patterns.

Definition lowerChar (c : Ascii.ascii) : Ascii.ascii :=
  let n := Ascii.nat_of_ascii c in
  if (65 <=? n)%nat && (n <=? 90)%nat then Ascii.ascii_of_nat (n + 32) else c.

Fixpoint lowerCase (s : string) : string :=
  match s with
  | EmptyString => EmptyString
  | String c s' => String (lowerChar c) (lowerCase s')
  end.

(** The same with the [i] flag: both sides are compared in lower case. *)
Definition containsAnyI (patterns : list string) (s : string) : bool :=
  containsAny (lowerCase <$> patterns) (lowerCase s).

(** The characters [.] does not match. *)
Definition lineTerminator (c : Ascii.ascii) : bool :=
  (Ascii.nat_of_ascii c =? 10)%nat || (Ascii.nat_of_ascii c =? 13)%nat.

(** [/^((?!chrome|android).)*safari/i.test(s)], on the lower-cased text:
    [safari] is found here, or one character that does not begin [chrome]
    or [android] is passed over. *)
Fixpoint safariAhead (s : string) : bool :=
  startsWith "safari" s ||
  match s with
  | EmptyString => false
  | String c s' =>
      negb (startsWith "chrome" s) && negb (startsWith "android" s) &&
      negb (lineTerminator c) && safariAhead s'
  end.

(** The detector, with what it reads from its surroundings:
    [navigator.vendor] and whether [Worker] is defined. *)
Record BrowserDetector : Type := {
  userAgent : string;
  vendor : string;
  hasWorker : bool
}.

Definition isMobile (this : BrowserDetector) : bool :=
  containsAnyI
    ["Android"; "webOS"; "iPhone"; "iPad"; "iPod"; "BlackBerry"; "IEMobile";
     "Opera Mini"]%string
    (userAgent this).

Definition isIOS (this : BrowserDetector) : bool :=
  containsAny ["iPad"; "iPhone"; "iPod"]%string (userAgent this).

Definition isSafari (this : BrowserDetector) : bool :=
  safariAhead (lowerCase (userAgent this)) ||
  containsAny ["iPhone"; "iPad"; "iPod"]%string (userAgent this).

Definition isChrome (this : BrowserDetector) : bool :=
  contains "Chrome" (userAgent this) && contains "Google Inc" (vendor this).

Definition isFirefox (this : BrowserDetector) : bool :=
  contains "Firefox" (userAgent this).

(** [CAMERA_CONFIG]: the two timeouts and the three constraint sets. *)
Definition SAFARI_TIMEOUT_MS : Z := 15000.
Definition DEFAULT_TIMEOUT_MS : Z := 10000.

Record Dimension : Type := {
  ideal : option num;
  max : option num
}.

Record Constraints : Type := {
  facingMode : string;
  width : Dimension;
  height : Dimension;
  frameRate : option Dimension
}.

Definition DEFAULT_CONSTRAINTS : Constraints :=
  {| facingMode := "user";
     width := {| ideal := Some (Fin 640); max := None |};
     height := {| ideal := Some (Fin 480); max := None |};
     frameRate := None |}.

Definition SAFARI_CONSTRAINTS : Constraints :=
  {| facingMode := "user";
     width := {| ideal := Some (Fin 640); max := Some (Fin 1280) |};
     height := {| ideal := Some (Fin 480); max := Some (Fin 720) |};
     frameRate := None |}.

Definition IOS_CONSTRAINTS : Constraints :=
  {| facingMode := "user";
     width := {| ideal := Some (Fin 320); max := Some (Fin 640) |};
     height := {| ideal := Some (Fin 240); max := Some (Fin 480) |};
     frameRate := None |}.

Definition getCameraTimeout (this : BrowserDetector) : Z :=
  if isSafari this then SAFARI_TIMEOUT_MS else DEFAULT_TIMEOUT_MS.

Definition getCameraConstraints (this : BrowserDetector) : Constraints :=
  if isIOS this then IOS_CONSTRAINTS
  else if isSafari this then SAFARI_CONSTRAINTS
  else DEFAULT_CONSTRAINTS.

Definition supportsWebWorkers (this : BrowserDetector) : bool :=
  hasWorker this && negb (isSafari this).

Definition adjustPerformanceLevel (this : BrowserDetector)
    (detectedLevel : Tier) : Tier :=
  if isSafari this then
    match detectedLevel with
    | high => medium
    | _ => detectedLevel
    end
  else detectedLevel.

End BrowserDetector.

(** ** Face detection ([ModelLoader.detectFaces])

    The detector model is outside the program.  What a call of
    [detectFaces] obtains from it is an input: [estimate n] is the outcome
    of the [n]-th call of [estimateFaces], the faces it resolves to or
    [None] when it throws. *)

Module ModelLoader.

Record ModelLoader : Type := {
  modelLoaded : bool;
  backend : option string
}.

(** The filter of [detectFacesSafari]: a face counts when its mesh has at
    least 468 landmarks. *)
Definition validFace (face : Face) : bool :=
  (468 <=? length (scaledMesh face))%nat.

(** The loop of [detectFacesSafari] from [attempt] on, with [steps]
    attempts left; [maxAttempts] is 3. *)
Fixpoint detectFacesLoop (steps attempt : nat)
    (estimate : nat -> option (list Face)) : list Face :=
  match steps with
  | O => []
  | S steps' =>
      match estimate attempt with
      | Some faces =>
          let validFaces := List.filter validFace faces in
          if (0 <? length faces)%nat && (0 <? length validFaces)%nat
          then validFaces
          else detectFacesLoop steps' (S attempt) estimate
      | None =>
          if (3 <=? attempt)%nat then []
          else detectFacesLoop steps' (S attempt) estimate
      end
  end.

Definition detectFacesSafari (estimate : nat -> option (list Face))
  : list Face :=
  detectFacesLoop 3 1 estimate.

(** [detectFaces]: nothing without a model or before the video has a
    width; an error of the detector gives no faces. *)
Definition detectFaces (this : ModelLoader)
    (bd : BrowserDetector.BrowserDetector) (videoWidth : num)
    (estimate : nat -> option (list Face)) : list Face :=
  if negb (modelLoaded this) || negb (truthy videoWidth) then []
  else if BrowserDetector.isSafari bd then detectFacesSafari estimate
  else default [] (estimate 1%nat).

End ModelLoader.

(** ** The performance manager ([PerformanceManager]) *)

Module PerformanceManager.
Module C := Constants.

Record PerformanceManager : Type := {
  performanceLevel : Tier;
  fps : num;
  frameCount : Z;
  lastFrameTime : num;
  dynamicSkipInterval : Z;
  memoryPressureLevel : Z;
  lastFaces : list Face;
  cachedFaces : option (list Face);
  consecutiveStableFrames : Z
}.

(** The constructor. *)
Definition new : PerformanceManager :=
  {| performanceLevel := high; fps := Fin 0; frameCount := 0;
     lastFrameTime := Fin 0; dynamicSkipInterval := 1;
     memoryPressureLevel := 0; lastFaces := []; cachedFaces := None;
     consecutiveStableFrames := 0 |}.

Definition getQualitySettings (this : PerformanceManager)
  : Quality.QualitySettings :=
  let settings := C.PERFORMANCE (performanceLevel this) in
  let settings :=
    if (memoryPressureLevel this >? 0)%Z then
      {| C.maxFaces := C.maxFaces settings;
         C.skipFrames :=
           Z.min (C.skipFrames settings + memoryPressureLevel this) 5;
         C.shadowBlur :=
           Z.max (C.shadowBlur settings - memoryPressureLevel this * 2) 0;
         C.particleCount :=
           Z.max (C.particleCount settings - memoryPressureLevel this) 1;
         C.animationSpeed := C.animationSpeed settings;
         C.cleanupInterval := C.cleanupInterval settings;
         C.targetFPS := C.targetFPS settings;
         C.detectionConfidence := C.detectionConfidence settings |}
    else settings in
  {| Quality.settings := settings; Quality.performanceLevel := None |}.

(** The assignments [updateFPS] makes, on the record. *)
Definition withFrame (this : PerformanceManager) (frameCount : Z)
  : PerformanceManager :=
  {| performanceLevel := performanceLevel this; fps := fps this;
     frameCount := frameCount; lastFrameTime := lastFrameTime this;
     dynamicSkipInterval := dynamicSkipInterval this;
     memoryPressureLevel := memoryPressureLevel this;
     lastFaces := lastFaces this; cachedFaces := cachedFaces this;
     consecutiveStableFrames := consecutiveStableFrames this |}.

Definition withSample (this : PerformanceManager) (fps : num)
    (dynamicSkipInterval : Z) (performanceLevel : Tier) : PerformanceManager :=
  {| performanceLevel := performanceLevel; fps := fps;
     frameCount := frameCount this; lastFrameTime := lastFrameTime this;
     dynamicSkipInterval := dynamicSkipInterval;
     memoryPressureLevel := memoryPressureLevel this;
     lastFaces := lastFaces this; cachedFaces := cachedFaces this;
     consecutiveStableFrames := consecutiveStableFrames this |}.

Definition updateFPS (this : PerformanceManager) (deltaTime : num)
  : PerformanceManager :=
  let this := withFrame this (frameCount this + 1) in
  if (Z.rem (frameCount this) 30 =? 0)%Z then
    let fps := round (Fin 1000 / deltaTime) in
    let targetFPS := C.targetFPS (C.PERFORMANCE (performanceLevel this)) in
    if (fps <? ofZ (targetFPS - 5))%num then
      withSample this fps (Z.min (dynamicSkipInterval this + 1) 5)
        (match performanceLevel this with
         | high => medium
         | medium => low
         | low => low
         end)
    else if (fps >? ofZ (targetFPS + 5))%num && (dynamicSkipInterval this >? 1)%Z
    then
      withSample this fps (Z.max (dynamicSkipInterval this - 1) 1)
        (performanceLevel this)
    else withSample this fps (dynamicSkipInterval this) (performanceLevel this)
  else this.

Definition shouldSkipFrame (this : PerformanceManager) (skipFrameCounter : Z)
  : bool :=
  negb (Z.rem skipFrameCounter (dynamicSkipInterval this) =? 0)%Z.

Definition withCachedFaces (this : PerformanceManager) (faces : list Face)
  : PerformanceManager :=
  {| performanceLevel := performanceLevel this; fps := fps this;
     frameCount := frameCount this; lastFrameTime := lastFrameTime this;
     dynamicSkipInterval := dynamicSkipInterval this;
     memoryPressureLevel := memoryPressureLevel this;
     lastFaces := lastFaces this; cachedFaces := Some faces;
     consecutiveStableFrames := consecutiveStableFrames this |}.

(** The blend the inner [map] applies to a landmark that has a cached
    counterpart. *)
Definition blendPoint (cachedPoint point : Point) (progress : num) : Point :=
  [ coord cachedPoint 0 + (coord point 0 - coord cachedPoint 0) * progress;
    coord cachedPoint 1 + (coord point 1 - coord cachedPoint 1) * progress;
    coord cachedPoint 2 + (coord point 2 - coord cachedPoint 2) * progress ]%num.

(** Returns the interpolated faces and the manager with its cache replaced. *)
Definition interpolateFaces (this : PerformanceManager) (faces : list Face)
    (progress : num) : list Face * PerformanceManager :=
  match cachedFaces this with
  | None => (faces, withCachedFaces this faces)
  | Some cachedFaces =>
      if (length faces =? 0)%nat then (faces, withCachedFaces this faces)
      else
        let interpolated :=
          imap (fun index face =>
            match cachedFaces !! index with
            | None => face
            | Some cached =>
                {| scaledMesh :=
                     imap (fun pointIndex point =>
                       match scaledMesh cached !! pointIndex with
                       | None => point
                       | Some cachedPoint =>
                           blendPoint cachedPoint point progress
                       end) (scaledMesh face);
                   otherProps := otherProps face |}
            end) faces in
        (interpolated, withCachedFaces this faces)
  end.

(** The faces a skipped tick of the render loop ([animate]) renders: it
    hands [interpolateFaces] the manager's own cache, or an empty array when
    there is none, with factor 0.3. *)
Definition skippedTickFaces (this : PerformanceManager)
  : list Face * PerformanceManager :=
  interpolateFaces this (default [] (cachedFaces this)) (Fin 0.3).

(** [manageTensorMemory]: the new pressure level, and whether the cleanup of
    the tensor library is triggered. *)
Definition manageTensorMemory (this : PerformanceManager) (numTensors : Z)
  : PerformanceManager * bool :=
  let level :=
    if (numTensors >? C.PRESSURE_THRESHOLD_HIGH)%Z then 2%Z
    else if (numTensors >? C.PRESSURE_THRESHOLD_LOW)%Z then 1%Z
    else 0%Z in
  ({| performanceLevel := performanceLevel this; fps := fps this;
      frameCount := frameCount this; lastFrameTime := lastFrameTime this;
      dynamicSkipInterval := dynamicSkipInterval this;
      memoryPressureLevel := level;
      lastFaces := lastFaces this; cachedFaces := cachedFaces this;
      consecutiveStableFrames := consecutiveStableFrames this |},
   (level >? 1)%Z).

(** A run of the render loop's calls to [updateFPS], one frame time each. *)
Definition run (this : PerformanceManager) (deltaTimes : list num)
  : PerformanceManager :=
  foldl updateFPS this deltaTimes.

Definition withLastFaces (this : PerformanceManager) (faces : list Face)
  : PerformanceManager :=
  {| performanceLevel := performanceLevel this; fps := fps this;
     frameCount := frameCount this; lastFrameTime := lastFrameTime this;
     dynamicSkipInterval := dynamicSkipInterval this;
     memoryPressureLevel := memoryPressureLevel this;
     lastFaces := faces; cachedFaces := cachedFaces this;
     consecutiveStableFrames := consecutiveStableFrames this |}.

(** The body of the loop of [calculateFaceMovement] for one pair of faces:
    the distance the nose tip (landmark 1) has moved.  Reading a coordinate
    of a nose the mesh does not have throws. *)
Definition noseMovement {M : MathLib} (newFace oldFace : Face) : result num :=
  let newNose := scaledMesh newFace !! 1%nat in
  let oldNose := scaledMesh oldFace !! 1%nat in
  n ← deref newNose;
  o ← deref oldNose;
  Ok (sqrt (pow (coord n 0 - coord o 0) (Fin 2) +
            pow (coord n 1 - coord o 1) (Fin 2)))%num.

(** The loop over [i < Math.min(newFaces.length, this.lastFaces.length)],
    carrying [totalMovement] and [pairCount]. *)
Fixpoint movementLoop {M : MathLib} (pairs : list (Face * Face))
    (acc : num * Z) : result (num * Z) :=
  match pairs with
  | [] => Ok acc
  | (newFace, oldFace) :: rest =>
      movement ← noseMovement newFace oldFace;
      movementLoop rest ((acc.1 + movement)%num, (acc.2 + 1)%Z)
  end.

(** [lastFaces] is replaced on both normal exits; an exception leaves the
    manager as it was. *)
Definition calculateFaceMovement {M : MathLib} (this : PerformanceManager)
    (newFaces : list Face) : result num * PerformanceManager :=
  if (length (lastFaces this) =? 0)%nat || (length newFaces =? 0)%nat
  then (Ok PInf, withLastFaces this newFaces)
  else
    match movementLoop (zip newFaces (lastFaces this)) (Fin 0, 0%Z) with
    | Throw e => (Throw e, this)
    | Ok (totalMovement, pairCount) =>
        (Ok (if (pairCount >? 0)%Z then (totalMovement / ofZ pairCount)%num
             else PInf),
         withLastFaces this newFaces)
    end.

(** The values of the object [getStats] returns: the tier, a string, or a
    number. *)
Inductive StatValue : Type :=
  | StatLevel (level : Tier)
  | StatNum (n : num).

Definition getStats (this : PerformanceManager) : gmap string StatValue :=
  {[ "performanceLevel" := StatLevel (performanceLevel this);
     "fps" := StatNum (fps this);
     "frameCount" := StatNum (ofZ (frameCount this));
     "skipInterval" := StatNum (ofZ (dynamicSkipInterval this));
     "memoryPressure" := StatNum (ofZ (memoryPressureLevel this)) ]}.

(** A property of the stats object used as a number: a missing property is
    [undefined] and a tier name is not numeric, both convert to NaN. *)
Definition statNumber (v : option StatValue) : num :=
  match v with
  | Some (StatNum n) => n
  | _ => NaN
  end.

(** [PERFORMANCE_DETECTION] *)
Definition HIGH_THRESHOLD_MOBILE : num := Fin 15.
Definition HIGH_THRESHOLD_DESKTOP : num := Fin 10.
Definition MEDIUM_THRESHOLD_MOBILE : num := Fin 40.
Definition MEDIUM_THRESHOLD_DESKTOP : num := Fin 30.
Definition CACHE_DURATION_MS : num := Fin (24 * 60 * 60 * 1000).

(** The object [detectPerformance] keeps in [localStorage]. *)
Record CacheEntry : Type := {
  level : Tier;
  timestamp : num;
  cachedUserAgent : string
}.

(** What one call of [detectPerformance] obtains from outside: the stored
    entry ([None] when there is none, or when the stored text does not parse
    into one), the reading of [Date.now()] at the cache test, the time the
    benchmark loop took, the reading of [Date.now()] at the write, and
    whether [localStorage] accepts the write. *)
Record Detection : Type := {
  stored : option CacheEntry;
  nowAtCheck : num;
  testDuration : num;
  nowAtWrite : num;
  storageWritable : bool
}.

Definition withLevel (this : PerformanceManager) (performanceLevel : Tier)
  : PerformanceManager :=
  {| performanceLevel := performanceLevel; fps := fps this;
     frameCount := frameCount this; lastFrameTime := lastFrameTime this;
     dynamicSkipInterval := dynamicSkipInterval this;
     memoryPressureLevel := memoryPressureLevel this;
     lastFaces := lastFaces this; cachedFaces := cachedFaces this;
     consecutiveStableFrames := consecutiveStableFrames this |}.

(** The tier the benchmark time alone gives. *)
Definition benchmarkLevel (bd : BrowserDetector.BrowserDetector)
    (testDuration : num) : Tier :=
  let highThreshold :=
    if BrowserDetector.isMobile bd then HIGH_THRESHOLD_MOBILE
    else HIGH_THRESHOLD_DESKTOP in
  let mediumThreshold :=
    if BrowserDetector.isMobile bd then MEDIUM_THRESHOLD_MOBILE
    else MEDIUM_THRESHOLD_DESKTOP in
  if (testDuration <? highThreshold)%num then high
  else if (testDuration <? mediumThreshold)%num then medium
  else low.

(** [/OS [5-9]_|OS 10_|OS 11_/.test(userAgent)] *)
Definition isOlderiOS (userAgent : string) : bool :=
  BrowserDetector.containsAny
    ["OS 5_"; "OS 6_"; "OS 7_"; "OS 8_"; "OS 9_"; "OS 10_"; "OS 11_"]%string
    userAgent.

(** The adjustments for Safari and for the other mobile browsers. *)
Definition platformLevel (bd : BrowserDetector.BrowserDetector)
    (performanceLevel : Tier) : Tier :=
  let performanceLevel :=
    if BrowserDetector.isSafari bd then
      let performanceLevel :=
        match performanceLevel with
        | high => medium
        | _ => performanceLevel
        end in
      if BrowserDetector.isIOS bd then
        if isOlderiOS (BrowserDetector.userAgent bd) ||
           match performanceLevel with medium => true | _ => false end
        then low else performanceLevel
      else performanceLevel
    else performanceLevel in
  if BrowserDetector.isMobile bd && negb (BrowserDetector.isSafari bd) then
    match performanceLevel with
    | high => medium
    | _ => performanceLevel
    end
  else performanceLevel.

(** [detectPerformance] returns the manager, whose tier is the value the
    source returns, and the stored entry as the call leaves it. *)
Definition detectPerformance (this : PerformanceManager)
    (bd : BrowserDetector.BrowserDetector) (env : Detection)
  : PerformanceManager * option CacheEntry :=
  let fresh :=
    match stored env with
    | Some entry =>
        (nowAtCheck env - timestamp entry <? CACHE_DURATION_MS)%num &&
        String.eqb (cachedUserAgent entry) (BrowserDetector.userAgent bd)
    | None => false
    end in
  match stored env with
  | Some entry =>
      if fresh then (withLevel this (level entry), stored env)
      else
        let performanceLevel :=
          platformLevel bd (benchmarkLevel bd (testDuration env)) in
        (withLevel this performanceLevel,
         if storageWritable env
         then Some {| level := performanceLevel;
                      timestamp := nowAtWrite env;
                      cachedUserAgent := BrowserDetector.userAgent bd |}
         else stored env)
  | None =>
      let performanceLevel :=
        platformLevel bd (benchmarkLevel bd (testDuration env)) in
      (withLevel this performanceLevel,
       if storageWritable env
       then Some {| level := performanceLevel;
                    timestamp := nowAtWrite env;
                    cachedUserAgent := BrowserDetector.userAgent bd |}
       else stored env)
  end.



End PerformanceManager.

(** ** The memory manager ([MemoryManager]) *)

Module MemoryManager.

(** [getMemoryPressure], from the tensor count [tf.memory()] reports. *)
Definition getMemoryPressure (numTensors : Z) : Z :=
  if (numTensors >? Constants.PRESSURE_THRESHOLD_HIGH)%Z then 2
  else if (numTensors >? Constants.PRESSURE_THRESHOLD_LOW)%Z then 1
  else 0.

End MemoryManager.

(** ** The application's render loop ([FaceFilterApp.animate])

    One call of [animate] is one tick.  What the tick obtains from outside
    is an input: the clock reading, the faces the detector returns (the
    loader's [detectFaces] catches its own errors and returns an array) and
    the tensor count of the tensor library.  Scheduling the next tick, which
    both the [try] block and its [catch] end with, is left to the caller. *)

Module FaceFilterApp.

Section Animate.
Context {M : MathLib}.
Variable World : Type.
Variable canvasSize : World -> Z * Z.

(** [ctx.clearRect(0, 0, overlay.width, overlay.height)] *)
Variable clearRect : World -> World.

Record FaceFilterApp : Type := {
  performanceManager : PerformanceManager.PerformanceManager;
  filterRenderer : FilterRenderer.FilterRenderer World;
  lastFrameTime : num;
  skipFrameCounter : Z;
  isRunning : bool
}.

Record Tick : Type := {
  currentTime : num;
  detected : list Face;
  numTensors : Z
}.

Definition withManager (this : FaceFilterApp)
    (pm : PerformanceManager.PerformanceManager) : FaceFilterApp :=
  {| performanceManager := pm; filterRenderer := filterRenderer this;
     lastFrameTime := lastFrameTime this;
     skipFrameCounter := skipFrameCounter this; isRunning := isRunning this |}.

(** The faces of the tick: detected and cached, or interpolated from the
    cache.  The movement [calculateFaceMovement] returns is not used. *)
Definition tickFaces (pm : PerformanceManager.PerformanceManager)
    (shouldSkip : bool) (tick : Tick)
  : result (list Face) * PerformanceManager.PerformanceManager :=
  if negb shouldSkip then
    let faces := detected tick in
    match PerformanceManager.calculateFaceMovement pm faces with
    | (Throw e, pm) => (Throw e, pm)
    | (Ok movement, pm) =>
        (Ok faces, PerformanceManager.withCachedFaces pm faces)
    end
  else
    let r :=
      PerformanceManager.interpolateFaces pm
        (default [] (PerformanceManager.cachedFaces pm)) (Fin 0.3) in
    (Ok r.1, r.2).

(** The periodic cleanup: [stats.frameCount % stats.cleanupInterval === 0]
    on the object [getStats] returns. *)
Definition cleanupDue (pm : PerformanceManager.PerformanceManager) : bool :=
  let stats := PerformanceManager.getStats pm in
  strictEq
    (rem (PerformanceManager.statNumber (stats !! "frameCount"))
         (PerformanceManager.statNumber (stats !! "cleanupInterval")))
    (Fin 0).

(** The [try] block of [animate]: how it completed, and the application and
    the canvas as it left them. *)
Definition tryBlock (this : FaceFilterApp) (w : World) (tick : Tick)
  : result unit * (FaceFilterApp * World) :=
  let deltaTime := (currentTime tick - lastFrameTime this)%num in
  let pm := PerformanceManager.updateFPS (performanceManager this) deltaTime in
  let fr :=
    FilterRenderer.updateAnimationTime World (filterRenderer this) deltaTime in
  let shouldSkip := PerformanceManager.shouldSkipFrame pm (skipFrameCounter this) in
  let this :=
    {| performanceManager := pm; filterRenderer := fr;
       lastFrameTime := currentTime tick;
       skipFrameCounter := (skipFrameCounter this + 1)%Z;
       isRunning := isRunning this |} in
  match tickFaces pm shouldSkip tick with
  | (Throw e, pm) => (Throw e, (withManager this pm, w))
  | (Ok faces, pm) =>
      let this := withManager this pm in
      let w := clearRect w in
      let rendered :=
        if (0 <? length faces)%nat then
          FilterRenderer.render World canvasSize fr w faces
            (PerformanceManager.getQualitySettings pm)
        else (Ok tt, w) in
      match rendered with
      | (Throw e, w) => (Throw e, (this, w))
      | (Ok _, w) =>
          let pm :=
            if cleanupDue pm
            then (PerformanceManager.manageTensorMemory pm (numTensors tick)).1
            else pm in
          (Ok tt, (withManager this pm, w))
      end
  end.

(** [animate]: nothing happens unless the loop is running, and the [catch]
    discards whatever the [try] block threw. *)
Definition animate (this : FaceFilterApp) (w : World) (tick : Tick)
  : FaceFilterApp * World :=
  if negb (isRunning this) then (this, w)
  else (tryBlock this w tick).2.

(** A run of ticks. *)
Definition ticks (this : FaceFilterApp) (w : World) (inputs : list Tick)
  : FaceFilterApp * World :=
  foldl (fun s tick => animate s.1 s.2 tick) (this, w) inputs.

End Animate.
End FaceFilterApp.


(** ** A reference implementation of the [Math] interface

    Rational approximations that satisfy [MathLib]; they make the embedded
    code run on concrete inputs. *)

Module RefMath.

(** The square root of [n/d], rounded up to a multiple of [1/(1000000 d)]. *)
Definition sqrtQ (q : Q) : Q :=
  Z.sqrt_up (Qnum q * Zpos (Qden q) * 1000000000000)
  # (Qden q * 1000000).

Definition sqrt (a : num) : num :=
  match a with
  | NaN | NInf => NaN
  | PInf => PInf
  | Fin q => if Qltb q 0 then NaN else Fin (sqrtQ q)
  end.

(** The Taylor polynomial of the cosine up to the eighth power, kept inside
    [[-1, 1]] and cut to twelve decimals. *)
Definition cosQ (q : Q) : Q :=
  let q2 := Qred (q * q) in
  let c := 1 - q2 / 2 + q2 * q2 / 24 - q2 * q2 * q2 / 720
           + q2 * q2 * q2 * q2 / 40320 in
  let c := if Qltb c (-1) then -1 else if Qltb 1 c then 1 else c in
  Qfloor (c * 1000000000000) # 1000000000000.

Definition cos (a : num) : num :=
  match a with
  | Fin q => Fin (cosQ q)
  | _ => NaN
  end.

(** Squares are exact; any other power of a non-negative base is read off
    the tangent of [b ^ e] at [b = 1]. *)
Definition pow (a e : num) : num :=
  match e with
  | Fin eq =>
      if Qis0 (eq - 2) then mul a a
      else if Qis0 eq then Fin 1
      else
        match a with
        | Fin b =>
            if Qltb b 0 then NaN
            else if Qis0 b then Fin 0
            else Fin (1 + eq * (b - 1))
        | PInf => PInf
        | _ => NaN
        end
  | _ => NaN
  end.

End RefMath.

Module RefTrig.

(** The Taylor polynomial of the sine up to the seventh power, kept inside
    [[-1, 1]] and cut to twelve decimals. *)
Definition sinQ (q : Q) : Q :=
  let q := Qred q in
  let q2 := Qred (q * q) in
  let s := q * (1 - q2 / 6 + q2 * q2 / 120 - q2 * q2 * q2 / 5040) in
  let s := if Qltb s (-1) then -1 else if Qltb 1 s then 1 else s in
  Qfloor (s * 1000000000000) # 1000000000000.

Definition sin (a : num) : num :=
  match a with
  | Fin q => Fin (sinQ q)
  | _ => NaN
  end.

End RefTrig.


(** ** Sample data *)

Module Samples.

(** A mesh of [n] landmarks, all at [filler], except for the listed ones. *)
Definition meshWith (n : nat) (filler : Point) (named : list (nat * Point))
  : list Point :=
  foldr (fun '(i, p) mesh => <[i := p]> mesh) (replicate n filler) named.

Definition pt (x y z : Q) : Point := [Fin x; Fin y; Fin z].

(** The face of the specification's scenario: eyes at (220,200) and
    (420,200), nose at (320,260), on a 478-point mesh. *)
Definition frontalFace : Face :=
  {| scaledMesh :=
       meshWith 478 (pt 320 240 0)
         [ (1, pt 320 260 0); (9, pt 320 150 0);
           (33, pt 220 200 0); (133, pt 250 200 0); (263, pt 420 200 0);
           (61, pt 280 320 0); (291, pt 360 320 0);
           (13, pt 320 310 0); (17, pt 320 330 0);
           (172, pt 200 300 0); (397, pt 440 300 0); (175, pt 320 400 0);
           (468, pt 235 200 0); (473, pt 405 200 0) ]%nat;
     otherProps := [] |}.

(** The same face far to the right of a 640 by 480 canvas. *)
Definition offscreenFace : Face :=
  {| scaledMesh :=
       (fun p : Point => [coord p 0 + Fin 2000; coord p 1; coord p 2]%num)
         <$> scaledMesh frontalFace;
     otherProps := [] |}.

(** A face whose mesh stops before the right-eye landmark (index 263). *)
Definition truncatedFace : Face :=
  {| scaledMesh := take 200 (scaledMesh frontalFace); otherProps := [] |}.

(** A face whose mesh holds the landmarks of the cull test but stops
    before the face-edge landmark 397. *)
Definition shortFace : Face :=
  {| scaledMesh := take 300 (scaledMesh frontalFace); otherProps := [] |}.

(** A face without any landmark. *)
Definition emptyFace : Face := {| scaledMesh := []; otherProps := [] |}.

End Samples.

(** ** Notions the properties are stated with *)

(** The tier one step below, and the height of a tier. *)
Definition stepDown (t : Tier) : Tier :=
  match t with
  | high => medium
  | medium | low => low
  end.

Definition rank (t : Tier) : nat :=
  match t with
  | high => 2
  | medium => 1
  | low => 0
  end.

(** Whether the call [updateFPS this deltaTime] falls on a sampling instant,
    the frame rate it then measures, and the two signals it derives. *)
Definition sampled (this : PerformanceManager.PerformanceManager) : bool :=
  (Z.rem (PerformanceManager.frameCount this + 1) 30 =? 0)%Z.

Definition measured (deltaTime : num) : num := round (Fin 1000 / deltaTime).

Definition degradeSignal (this : PerformanceManager.PerformanceManager)
    (deltaTime : num) : bool :=
  sampled this &&
  (measured deltaTime
   <? ofZ (Constants.targetFPS
             (Constants.PERFORMANCE (PerformanceManager.performanceLevel this))
           - 5))%num.

Definition recoverSignal (this : PerformanceManager.PerformanceManager)
    (deltaTime : num) : bool :=
  sampled this && negb (degradeSignal this deltaTime) &&
  (measured deltaTime
   >? ofZ (Constants.targetFPS
             (Constants.PERFORMANCE (PerformanceManager.performanceLevel this))
           + 5))%num &&
  (PerformanceManager.dynamicSkipInterval this >? 1)%Z.


(** A landmark as the detector delivers it: x and y, and whatever follows,
    all finite. *)
Definition finitePoint (p : Point) : bool :=
  match p with
  | Fin _ :: Fin _ :: rest => forallb isFinite rest
  | _ => false
  end.

(** A landmark that is present and finite; one that is finite if present. *)
Definition finiteReq (o : option Point) : bool :=
  match o with Some p => finitePoint p | None => false end.

Definition finiteOpt (o : option Point) : bool :=
  match o with Some p => finitePoint p | None => true end.

(** A mesh that reaches past the last landmark the warp dereferences (397)
    and holds finite points only. *)
Definition fullMesh (face : Face) : bool :=
  (398 <=? length (scaledMesh face))%nat &&
  forallb finitePoint (scaledMesh face).

(** A landmark set the warp can work on: the six landmarks it dereferences
    unconditionally are present, and every landmark present is finite. *)
Definition completeLandmarks (lm : MorphFilter.Landmarks) : bool :=
  finiteReq (MorphFilter.faceLeft lm) &&
  finiteReq (MorphFilter.faceRight lm) &&
  finiteReq (MorphFilter.foreheadCenter lm) &&
  finiteReq (MorphFilter.chinTip lm) &&
  finiteReq (MorphFilter.leftEyeInner lm) &&
  finiteReq (MorphFilter.leftEyeOuter lm) &&
  finiteOpt (MorphFilter.leftEyeCenter lm) &&
  finiteOpt (MorphFilter.rightEyeCenter lm) &&
  finiteOpt (MorphFilter.mouthLeftCorner lm) &&
  finiteOpt (MorphFilter.mouthRightCorner lm) &&
  finiteOpt (MorphFilter.mouthTopCenter lm) &&
  finiteOpt (MorphFilter.mouthBottomCenter lm) &&
  finiteOpt (MorphFilter.mouthCenter lm).

(** Two landmarks that are present and agree on coordinate [i]. *)
Definition sameCoord (i : nat) (a b : option Point) : bool :=
  match a, b with
  | Some p, Some q =>
      match coord p i, coord q i with
      | Fin x, Fin y => Qeq_bool x y
      | _, _ => false
      end
  | _, _ => false
  end.

(** The degenerate regions: the landmarks that span the eye, the mouth or
    the face coincide along the axis the code measures. *)
Definition zeroWidthEye (lm : MorphFilter.Landmarks) : bool :=
  sameCoord 0 (MorphFilter.leftEyeOuter lm) (MorphFilter.leftEyeInner lm).

Definition zeroWidthMouth (lm : MorphFilter.Landmarks) : bool :=
  sameCoord 0 (MorphFilter.mouthRightCorner lm) (MorphFilter.mouthLeftCorner lm).

Definition zeroWidthFace (lm : MorphFilter.Landmarks) : bool :=
  sameCoord 0 (MorphFilter.faceRight lm) (MorphFilter.faceLeft lm).

Definition zeroHeightFace (lm : MorphFilter.Landmarks) : bool :=
  sameCoord 1 (MorphFilter.foreheadCenter lm) (MorphFilter.chinTip lm).

(** A number that is finite or NaN. *)
Definition notInf (v : num) : Prop := v = NaN \/ exists q, v = Fin q.

(** The pixel column (or row) a sampling coordinate falls on: [px] lies
    inside the extent and is 0 for a coordinate at or left of 0, the last
    one for a coordinate at or beyond it, and the coordinate itself when that
    is an integer. *)
Definition nearest (extent : Z) (x : Q) (px : Z) : bool :=
  (0 <=? px)%Z && (px <? extent)%Z &&
  (Qle_bool x 0 && (px =? 0)%Z ||
   Qle_bool (inject_Z (extent - 1)) x && (px =? extent - 1)%Z ||
   Qeq_bool x (inject_Z px)).

(** A landmark with exactly three finite components. *)
Definition point3 (p : Point) : bool :=
  match p with
  | [Fin _; Fin _; Fin _] => true
  | _ => false
  end.

(** Two faces with the same other properties and the same landmarks, as
    numbers. *)
Definition sameFace (r a : Face) : Prop :=
  otherProps r = otherProps a /\
  Forall2 (Forall2 eqv) (scaledMesh r) (scaledMesh a).

(** A face whose nose tip (landmark 1) is there and finite. *)
Definition noseFinite (face : Face) : bool :=
  match scaledMesh face !! 1%nat with
  | Some nose => finitePoint nose
  | None => false
  end.

(** The angle whose sine and cosine [init] stores in slot [i] of a table of
    [size] slots. *)
Definition rad (size : Z) (i : nat) : num :=
  (ofZ (Z.of_nat i) * PI * Fin 2 / ofZ size)%num.

(** The current filter of a renderer is ['none'] or a registered one. *)
Definition knownFilter {World : Type}
    (this : FilterRenderer.FilterRenderer World) : Prop :=
  FilterRenderer.currentFilterName World this = "none"%string \/
  is_Some (FilterRenderer.filters World this !!
             FilterRenderer.currentFilterName World this).

(** A pixel buffer whose entries are bytes. *)
Definition byteRange (imageData : list Z) : Prop :=
  Forall (fun b => (0 <= b <= 255)%Z) imageData.

(** The rectangle of canvas pixels [putImageData] is given for a region:
    its corner and its extent, converted as the canvas API converts them. *)
Definition regionCovers (r : MorphFilter.Region) (px py : Z) : bool :=
  let x0 := Canvas2D.toLong (MorphFilter.minX r) in
  let y0 := Canvas2D.toLong (MorphFilter.minY r) in
  ((x0 <=? px) && (px <? x0 + Z.abs (Canvas2D.toLong (MorphFilter.width r))) &&
   (y0 <=? py) &&
   (py <? y0 + Z.abs (Canvas2D.toLong (MorphFilter.height r))))%Z.

(** A value that is NaN or lies between 0 and [bound]. *)
Definition unitOrNaN (bound : Q) (v : num) : Prop :=
  v = NaN \/ exists q, v = Fin q /\ 0 <= q <= bound.

(** The calls of a trace that draw a circle, and their number. *)
Definition isArc (c : AnimatedFilter.Cmd) : bool :=
  match c with AnimatedFilter.Arc _ _ _ _ _ => true | _ => false end.

Definition arcs (cmds : list AnimatedFilter.Cmd) : nat :=
  length (List.filter isArc cmds).

(** The depth of the canvas state stack after [cmds], starting at depth
    [d]; [None] when a [restore] comes without a [save]. *)
Fixpoint nesting (d : nat) (cmds : list AnimatedFilter.Cmd) : option nat :=
  match cmds with
  | [] => Some d
  | AnimatedFilter.Save :: rest => nesting (S d) rest
  | AnimatedFilter.Restore :: rest =>
      match d with
      | O => None
      | S d' => nesting d' rest
      end
  | _ :: rest => nesting d rest
  end.

(** A drawing step that returns normally and adds calls that leave the
    state stack as deep as it was, of which at most [n] are arcs. *)
Definition tidy {A : Type} (n : nat) (m : AnimatedFilter.Draw A) : Prop :=
  forall w, exists a added,
    (m w).1 = Ok a /\
    AnimatedFilter.trace (m w).2 = AnimatedFilter.trace w ++ added /\
    AnimatedFilter.canvasWidth (m w).2 = AnimatedFilter.canvasWidth w /\
    AnimatedFilter.canvasHeight (m w).2 = AnimatedFilter.canvasHeight w /\
    nesting 0 added = Some 0%nat /\ (arcs added <= n)%nat.

(** The most arcs one part of an animated filter draws: one for a ball, a
    dot or a fish, and the tier's particle count for a burst. *)
Definition partArcs (quality : Quality.QualitySettings) : nat :=
  S (Z.to_nat (Constants.particleCount (Quality.settings quality))).

(** The world after the calls [cmds] on its canvas. *)
Definition pushed (w : AnimatedFilter.World) (cmds : list AnimatedFilter.Cmd)
  : AnimatedFilter.World :=
  {| AnimatedFilter.canvasWidth := AnimatedFilter.canvasWidth w;
     AnimatedFilter.canvasHeight := AnimatedFilter.canvasHeight w;
     AnimatedFilter.trace := AnimatedFilter.trace w ++ cmds;
     AnimatedFilter.mathUtils := AnimatedFilter.mathUtils w |}.

(** A part whose [size] is not a negative number.  [ctx.arc] gets the face
    width times [size] as the radius of a ball or of a dot. *)
Definition sizeNotNegative (part : AnimatedFilter.Part) : bool :=
  match AnimatedFilter.size part with
  | Some (Fin q) => negb (Qltb q 0)
  | _ => true
  end.

(** A drawing step that only appends calls, at most [n] arcs among them,
    leaves the state stack as deep as it was whether it returns or throws,
    and throws nothing but an [IndexSizeError], and that only when [bad]
    holds. *)
Definition contained {A : Type} (n : nat) (bad : Prop)
    (m : AnimatedFilter.Draw A) : Prop :=
  forall w, exists added,
    AnimatedFilter.trace (m w).2 = AnimatedFilter.trace w ++ added /\
    AnimatedFilter.canvasWidth (m w).2 = AnimatedFilter.canvasWidth w /\
    AnimatedFilter.canvasHeight (m w).2 = AnimatedFilter.canvasHeight w /\
    nesting 0 added = Some 0%nat /\ (arcs added <= n)%nat /\
    forall e, (m w).1 = Throw e -> e = IndexSizeError /\ bad.

(** ** Further sample data *)

(** A manager on tier MEDIUM whose tensor count (60) puts it at memory
    pressure 2. *)
Definition pressedMedium : PerformanceManager.PerformanceManager :=
  (PerformanceManager.manageTensorMemory
     (PerformanceManager.withSample PerformanceManager.new (Fin 0) 1 medium)
     60).1.

(** Two snapshots for the interpolation: one cached face with two
    landmarks, then two detected faces, the first with three landmarks. *)
Definition cachedSnapshot : list Face :=
  [ {| scaledMesh := [Samples.pt 0 0 0; Samples.pt 10 20 30];
       otherProps := [] |} ].

Definition detectedSnapshot : list Face :=
  [ {| scaledMesh :=
         [Samples.pt 10 10 10; Samples.pt 20 20 20; Samples.pt 7 8 9];
       otherProps := [("faceInViewConfidence"%string, Fin 1)] |};
    {| scaledMesh := [Samples.pt 5 5 5]; otherProps := [] |} ].

(** A renderer over a world that only records the faces handed to [draw],
    on a 640 by 480 canvas.  Its filter [fragile] throws on a face whose mesh
    has fewer than 400 landmarks, after recording it. *)
Definition Recording : Type := list Face.

Definition recordingCanvas (w : Recording) : Z * Z := (640, 480)%Z.

Definition recorder : FilterRenderer.Filter Recording :=
  fun w face _ _ => (Ok tt, w ++ [face]).

Definition fragile : FilterRenderer.Filter Recording :=
  fun w face _ _ =>
    (if (length (scaledMesh face) <? 400)%nat then Throw TypeError else Ok tt,
     w ++ [face]).

Definition recordingRenderer (name : string)
  : FilterRenderer.FilterRenderer Recording :=
  {| FilterRenderer.filters :=
       {[ "recorder"%string := recorder; "fragile"%string := fragile ]};
     FilterRenderer.currentFilterName := name;
     FilterRenderer.animationTime := Fin 0 |}.

(** The quality settings of a fresh manager. *)
Definition freshSettings : Quality.QualitySettings :=
  PerformanceManager.getQualitySettings PerformanceManager.new.

(** A 640 by 480 canvas, all transparent black, and a new morph filter. *)
Definition blankMorphWorld : FilterRenderer.MorphWorld :=
  (MorphFilter.new,
   {| Canvas2D.canvasWidth := 640; Canvas2D.canvasHeight := 480;
      Canvas2D.pixels := replicate (4 * 640 * 480) 0%Z |}).

(** The frontal face with the inner corner of the left eye moved onto the
    outer one, and its landmark set. *)
Definition pinchedFace : Face :=
  {| scaledMesh := <[133%nat := Samples.pt 220 200 0]> (scaledMesh Samples.frontalFace);
     otherProps := [] |}.

Definition pinchedLandmarks : MorphFilter.Landmarks :=
  MorphFilter.getMorphingLandmarks pinchedFace.

(** A face all of whose landmarks sit at one point, and its landmark set:
    every region is degenerate. *)
Definition collapsedLandmarks : MorphFilter.Landmarks :=
  MorphFilter.getMorphingLandmarks
    {| scaledMesh := replicate 478 (Samples.pt 320 240 0); otherProps := [] |}.

(** A morph filter whose intensity is 0. *)
Definition stilledFilter : MorphFilter.MorphFilter :=
  {| MorphFilter.intensity := Fin 0;
     MorphFilter.eyeScaleFactor := Fin 2.5;
     MorphFilter.mouthScaleFactor := Fin 2.2;
     MorphFilter.faceSlimFactor := Fin 0.85;
     MorphFilter.jawReductionFactor := Fin 0.9;
     MorphFilter.morphCanvas := None |}.

(** A 2 by 2 buffer: red, green (transparent), blue, white. *)
Definition fourPixels : list Z :=
  [ 255; 0; 0; 255;   0; 255; 0; 0;
    0; 0; 255; 255;   255; 255; 255; 255 ]%Z.

(** An application over the recording world: clearing the canvas empties
    the record.  [startedApp] is the application as [start] leaves it at
    clock 0; [trackingApp] has a frontal face on record and on the canvas. *)
Definition clearRecording (w : Recording) : Recording := [].

Definition startedApp : FaceFilterApp.FaceFilterApp Recording :=
  {| FaceFilterApp.performanceManager := PerformanceManager.new;
     FaceFilterApp.filterRenderer := recordingRenderer "recorder";
     FaceFilterApp.lastFrameTime := Fin 0;
     FaceFilterApp.skipFrameCounter := 0;
     FaceFilterApp.isRunning := true |}.

Definition trackingApp : FaceFilterApp.FaceFilterApp Recording :=
  {| FaceFilterApp.performanceManager :=
       PerformanceManager.withLastFaces PerformanceManager.new
         [Samples.frontalFace];
     FaceFilterApp.filterRenderer := recordingRenderer "recorder";
     FaceFilterApp.lastFrameTime := Fin 0;
     FaceFilterApp.skipFrameCounter := 0;
     FaceFilterApp.isRunning := true |}.

(** Three ticks 16 ms apart: a frontal face is detected, then a face
    without landmarks, then nothing, with a high tensor count throughout. *)
Definition threeTicks : list FaceFilterApp.Tick :=
  [ {| FaceFilterApp.currentTime := Fin 16;
       FaceFilterApp.detected := [Samples.frontalFace];
       FaceFilterApp.numTensors := 80 |};
    {| FaceFilterApp.currentTime := Fin 32;
       FaceFilterApp.detected := [Samples.emptyFace];
       FaceFilterApp.numTensors := 80 |};
    {| FaceFilterApp.currentTime := Fin 48;
       FaceFilterApp.detected := [];
       FaceFilterApp.numTensors := 80 |} ].

(** Two browsers: Safari on an iPhone, and Chrome on a desktop, whose user
    agent names Chrome before Safari. *)
Definition iphoneDetector : BrowserDetector.BrowserDetector :=
  {| BrowserDetector.userAgent :=
       "Mozilla/5.0 (iPhone; CPU iPhone OS 16_0 like Mac OS X) AppleWebKit/605.1.15 (KHTML, like Gecko) Version/16.0 Mobile/15E148 Safari/604.1";
     BrowserDetector.vendor := "Apple Computer, Inc.";
     BrowserDetector.hasWorker := true |}.

Definition chromePrefix : string :=
  "Mozilla/5.0 (Windows NT 10.0; Win64; x64) AppleWebKit/537.36 (KHTML, like Gecko) ".

Definition chromeSuffix : string := "Chrome/120.0.0.0 Safari/537.36".

Definition chromeDetector : BrowserDetector.BrowserDetector :=
  {| BrowserDetector.userAgent := chromePrefix +:+ chromeSuffix;
     BrowserDetector.vendor := "Google Inc.";
     BrowserDetector.hasWorker := true |}.

(** A first visit, with nothing stored, whose benchmark takes [duration]
    milliseconds; and a visit one hour later that finds [entry] stored and
    whose benchmark would take half a second. *)
Definition firstVisit (duration : Q) : PerformanceManager.Detection :=
  {| PerformanceManager.stored := None;
     PerformanceManager.nowAtCheck := Fin 1000;
     PerformanceManager.testDuration := Fin duration;
     PerformanceManager.nowAtWrite := Fin 1005;
     PerformanceManager.storageWritable := true |}.

Definition laterVisit (entry : option PerformanceManager.CacheEntry)
  : PerformanceManager.Detection :=
  {| PerformanceManager.stored := entry;
     PerformanceManager.nowAtCheck := Fin 3601005;
     PerformanceManager.testDuration := Fin 500;
     PerformanceManager.nowAtWrite := Fin 3601505;
     PerformanceManager.storageWritable := true |}.

(** A small face in the middle of the canvas: eyes 40 pixels apart. *)
Definition smallFace : Face :=
  {| scaledMesh :=
       Samples.meshWith 478 (Samples.pt 320 205 0)
         [ (1, Samples.pt 320 210 0); (9, Samples.pt 320 190 0);
           (33, Samples.pt 300 200 0); (133, Samples.pt 308 200 0);
           (263, Samples.pt 340 200 0);
           (61, Samples.pt 312 220 0); (291, Samples.pt 328 220 0);
           (172, Samples.pt 295 215 0); (397, Samples.pt 345 215 0);
           (175, Samples.pt 320 235 0) ]%nat;
     otherProps := [] |}.

(** The settings [render] hands to [draw] on a fresh manager. *)
Definition highSettings : Quality.QualitySettings :=
  {| Quality.settings := Constants.PERFORMANCE high;
     Quality.performanceLevel := Some high |}.

(** A loaded model, and a detector that always answers with the frontal
    face and a face without landmarks. *)
Definition loadedModel : ModelLoader.ModelLoader :=
  {| ModelLoader.modelLoaded := true;
     ModelLoader.backend := Some "webgl"%string |}.

Definition twoFaces (attempt : nat) : option (list Face) :=
  Some [Samples.frontalFace; Samples.emptyFace].

(** A 640 by 480 canvas nothing was drawn on, before the first table
    lookup. *)
Definition blankCanvas : AnimatedFilter.World :=
  {| AnimatedFilter.canvasWidth := 640;
     AnimatedFilter.canvasHeight := 480;
     AnimatedFilter.trace := [];
     AnimatedFilter.mathUtils := MathUtils.new |}.

(** The parts of the filter [twinkling_stars] and the part of
    [sparkle_burst] in [filterDefinitions]. *)
Definition star (position : string) : AnimatedFilter.Part :=
  {| AnimatedFilter.type := "twinkling_star";
     AnimatedFilter.position := position;
     AnimatedFilter.color := "#FFD700";
     AnimatedFilter.size := Some (Fin 0.1);
     AnimatedFilter.speed := None;
     AnimatedFilter.count := None |}.

Definition twinkling_stars : list AnimatedFilter.Part :=
  [star "crown"; star "left_cheek"; star "right_cheek"].

Definition sparkle_burst : AnimatedFilter.Part :=
  {| AnimatedFilter.type := "particle_burst";
     AnimatedFilter.position := "nose";
     AnimatedFilter.color := "#FFD700";
     AnimatedFilter.size := None;
     AnimatedFilter.speed := None;
     AnimatedFilter.count := Some (Fin 8) |}.

(** A ball at the nose whose [size] is negative. *)
Definition shrunkBall : AnimatedFilter.Part :=
  {| AnimatedFilter.type := "bouncing_ball";
     AnimatedFilter.position := "nose";
     AnimatedFilter.color := "#FFE66D";
     AnimatedFilter.size := Some (Fin (-0.08));
     AnimatedFilter.speed := None;
     AnimatedFilter.count := None |}.

Module C := Constants.

(** * Properties *)

(** ** Facts about numbers *)

Lemma Qltb_reflect (a b : Q) : reflect (a < b) (Qltb a b).
Proof.
  unfold Qltb. destruct (a ?= b) eqn:E; constructor.
  - apply Qeq_alt in E. rewrite E. apply Qlt_irrefl.
  - now apply Qlt_alt.
  - apply Qgt_alt in E. apply Qle_not_lt, Qlt_le_weak, E.
Qed.

Lemma Qis0_reflect (a : Q) : reflect (a == 0) (Qis0 a).
Proof.
  unfold Qis0. destruct (a ?= 0) eqn:E; constructor.
  - now apply Qeq_alt.
  - apply Qlt_alt in E. intros E'. rewrite E' in E. exact (Qlt_irrefl _ E).
  - apply Qgt_alt in E. intros E'. rewrite E' in E. exact (Qlt_irrefl _ E).
Qed.

(** Case analysis on every rational test in sight. *)
Ltac qcases :=
  repeat match goal with
    | |- context [Qltb ?a ?b] => destruct (Qltb_reflect a b)
    | |- context [Qis0 ?a] => destruct (Qis0_reflect a)
    | H : context [Qltb ?a ?b] |- _ => destruct (Qltb_reflect a b)
    | H : context [Qis0 ?a] |- _ => destruct (Qis0_reflect a)
    end.

Lemma lt_Fin (a b : Q) : (Fin a <? Fin b)%num = true <-> a < b.
Proof. simpl. destruct (Qltb_reflect a b); split; (congruence || tauto). Qed.

Lemma le_Fin (a b : Q) : (Fin a <=? Fin b)%num = true <-> a <= b.
Proof.
  simpl. destruct (Qltb_reflect b a) as [L | L]; simpl; split; intros H.
  - discriminate.
  - exfalso. exact (Qlt_not_le _ _ L H).
  - apply Qnot_lt_le, L.
  - reflexivity.
Qed.


(** A comparison with NaN never holds. *)
Lemma gt_NaN (b : num) : (NaN >? b)%num = false.
Proof. now destruct b. Qed.

(** ** The reference [Math] implementation conforms *)

Lemma sqrtQ_nonneg (q : Q) : 0 <= RefMath.sqrtQ q.
Proof.
  unfold RefMath.sqrtQ, Qle. simpl. rewrite Z.mul_1_r.
  apply Z.sqrt_up_nonneg.
Qed.

Lemma sqrtQ_zero (q : Q) : 0 <= q -> (RefMath.sqrtQ q == 0 <-> q == 0).
Proof.
  destruct q as [n d]. unfold RefMath.sqrtQ, Qle, Qeq. simpl.
  rewrite !Z.mul_1_r. intros Hn.
  pose proof (Z.sqrt_up_pos (n * Z.pos d * 1000000000000)) as P.
  pose proof (Z.sqrt_up_nonneg (n * Z.pos d * 1000000000000)).
  split; intros E.
  - assert (~ (0 < n * Z.pos d * 1000000000000)%Z) by (rewrite <- P; lia).
    nia.
  - subst n. reflexivity.
Qed.

Lemma refSqrt_Fin (q : Q) :
  0 <= q ->
  exists r, RefMath.sqrt (Fin q) = Fin r /\ 0 <= r /\ (r == 0 <-> q == 0).
Proof.
  intros Hq. exists (RefMath.sqrtQ q). simpl.
  destruct (Qltb_reflect q 0) as [L | _].
  - exfalso. exact (Qlt_not_le _ _ L Hq).
  - split; [reflexivity | split; [apply sqrtQ_nonneg | now apply sqrtQ_zero]].
Qed.

Lemma cut12_bounds (c : Q) :
  -1 <= c <= 1 -> -1 <= (Qfloor (c * 1000000000000) # 1000000000000) <= 1.
Proof.
  intros [Hl Hu].
  assert (L : (-1000000000000 <= Qfloor (c * 1000000000000))%Z).
  { rewrite <- (Qfloor_Z (-1000000000000)).
    apply Qfloor_resp_le. unfold inject_Z. lra. }
  assert (U : (Qfloor (c * 1000000000000) <= 1000000000000)%Z).
  { rewrite <- (Qfloor_Z (1000000000000)) at 2.
    apply Qfloor_resp_le. unfold inject_Z. lra. }
  unfold Qle. cbn [Qnum Qden]. lia.
Qed.

Lemma refCos_Fin (q : Q) :
  exists r, RefMath.cos (Fin q) = Fin r /\ -1 <= r <= 1.
Proof.
  exists (RefMath.cosQ q). split; [reflexivity |].
  unfold RefMath.cosQ. apply cut12_bounds. qcases; lra.
Qed.

Lemma refCos_nonFin (a : num) : isFinite a = false -> RefMath.cos a = NaN.
Proof. destruct a; simpl; congruence. Qed.

Lemma refPow_square (a : num) : RefMath.pow a (Fin 2) = (a * a)%num.
Proof. reflexivity. Qed.

Lemma refPow_NaN (e : Q) : 0 < e -> RefMath.pow NaN (Fin e) = NaN.
Proof. intros He. unfold RefMath.pow. qcases; try reflexivity. lra. Qed.

Lemma refPow_Fin (b e : Q) :
  0 < e ->
  RefMath.pow (Fin b) (Fin e) = NaN \/
  exists r, RefMath.pow (Fin b) (Fin e) = Fin r.
Proof. intros He. unfold RefMath.pow. qcases; simpl; eauto. Qed.

#[global] Instance refMath : MathLib := {|
  JS.sqrt := RefMath.sqrt;
  JS.cos := RefMath.cos;
  JS.pow := RefMath.pow;
  sqrt_NaN := eq_refl;
  sqrt_PInf := eq_refl;
  sqrt_Fin := refSqrt_Fin;
  cos_Fin := refCos_Fin;
  cos_nonFin := refCos_nonFin;
  pow_square := refPow_square;
  pow_NaN := refPow_NaN;
  pow_Fin := refPow_Fin
|}.

(** ** Quality settings under memory pressure *)

Section QualitySettings.
Import PerformanceManager.

(** Every base table entry already respects the three clamps. *)
Lemma PERFORMANCE_within_clamps (level : Tier) :
  (C.skipFrames (C.PERFORMANCE level) <= 5 /\
   1 <= C.particleCount (C.PERFORMANCE level) /\
   0 <= C.shadowBlur (C.PERFORMANCE level))%Z.
Proof. destruct level; simpl; lia. Qed.

(** C9.  For every tier and every memory-pressure level (a non-negative
    integer), [getQualitySettings] returns the tier's table entry with
    [skipFrames] raised by the level and capped at 5, [particleCount] lowered
    by the level and floored at 1, [shadowBlur] lowered by twice the level
    and floored at 0, and every other field as in the table; on tier MEDIUM
    at level 2 the three values are 4, 4 and 1. *)
Theorem getQualitySettings_memory_pressure (this : PerformanceManager) :
  (0 <= memoryPressureLevel this)%Z ->
  let base := C.PERFORMANCE (performanceLevel this) in
  let p := memoryPressureLevel this in
  let s := Quality.settings (getQualitySettings this) in
  (C.skipFrames s = Z.min (C.skipFrames base + p) 5 /\
   C.particleCount s = Z.max (C.particleCount base - p) 1 /\
   C.shadowBlur s = Z.max (C.shadowBlur base - p * 2) 0)%Z /\
  (C.skipFrames base <= C.skipFrames s <= 5 /\
   1 <= C.particleCount s <= C.particleCount base /\
   0 <= C.shadowBlur s <= C.shadowBlur base)%Z /\
  (C.maxFaces s = C.maxFaces base /\
   C.animationSpeed s = C.animationSpeed base /\
   C.cleanupInterval s = C.cleanupInterval base /\
   C.targetFPS s = C.targetFPS base /\
   C.detectionConfidence s = C.detectionConfidence base) /\
  (performanceLevel this = medium -> p = 2%Z ->
   C.skipFrames s = 4%Z /\ C.particleCount s = 4%Z /\ C.shadowBlur s = 1%Z).
Proof.
  intros Hp base p s.
  pose proof (PERFORMANCE_within_clamps (performanceLevel this)) as (Hs & Hc & Hb).
  fold base in Hs, Hc, Hb.
  assert (E : (C.skipFrames s = Z.min (C.skipFrames base + p) 5 /\
               C.particleCount s = Z.max (C.particleCount base - p) 1 /\
               C.shadowBlur s = Z.max (C.shadowBlur base - p * 2) 0)%Z).
  { subst s. unfold getQualitySettings. fold base. fold p.
    destruct (Z.gtb_spec p 0); simpl; [tauto | lia]. }
  destruct E as (E1 & E2 & E3).
  split; [tauto |]. split; [lia |]. split.
  - subst s. unfold getQualitySettings. fold base.
    now destruct (memoryPressureLevel this >? 0)%Z.
  - intros Hm Hp2. rewrite E1, E2, E3. subst base. rewrite Hm, Hp2. now simpl.
Qed.

(** Tier MEDIUM at pressure 2. *)
Lemma getQualitySettings_memory_pressure_witness :
  let s := Quality.settings (getQualitySettings pressedMedium) in
  C.skipFrames s = 4%Z /\ C.particleCount s = 4%Z /\ C.shadowBlur s = 1%Z.
Proof.
  apply (getQualitySettings_memory_pressure pressedMedium); vm_compute; congruence.
Defined.

End QualitySettings.

(** ** The tier and the skip interval under [updateFPS] *)

Section UpdateFPS.
Import PerformanceManager.

Lemma updateFPS_level (this : PerformanceManager) (deltaTime : num) :
  performanceLevel (updateFPS this deltaTime) =
  if degradeSignal this deltaTime then stepDown (performanceLevel this)
  else performanceLevel this.
Proof.
  unfold updateFPS, degradeSignal, sampled, measured. cbn [frameCount withFrame performanceLevel].
  destruct (Z.rem (frameCount this + 1) 30 =? 0)%Z; [| reflexivity].
  cbn [andb].
  destruct (_ <? _)%num; [now destruct (performanceLevel this) |].
  now destruct (_ && _).
Qed.

Lemma updateFPS_skip (this : PerformanceManager) (deltaTime : num) :
  dynamicSkipInterval (updateFPS this deltaTime) =
  if degradeSignal this deltaTime
  then Z.min (dynamicSkipInterval this + 1) 5
  else if recoverSignal this deltaTime
  then Z.max (dynamicSkipInterval this - 1) 1
  else dynamicSkipInterval this.
Proof.
  unfold updateFPS, recoverSignal, degradeSignal, sampled, measured.
  cbn [frameCount withFrame performanceLevel dynamicSkipInterval].
  destruct (Z.rem (frameCount this + 1) 30 =? 0)%Z; [| reflexivity].
  cbn [andb negb].
  destruct (_ <? _)%num; [reflexivity |]. cbn [negb andb].
  now destruct (_ >? _)%num, (_ >? _)%Z.
Qed.

Lemma run_snoc (this : PerformanceManager) (dts : list num) (dt : num) :
  run this (dts ++ [dt]) = updateFPS (run this dts) dt.
Proof. unfold run. now rewrite foldl_app. Qed.

Lemma stepDown_rank (t : Tier) :
  (rank (stepDown t) <= rank t <= S (rank (stepDown t)))%nat.
Proof. destruct t; simpl; lia. Qed.

(** C4.  One [updateFPS] call leaves the tier alone unless it is a sampling
    instant with a low frame rate, and then moves it exactly one step down
    (HIGH to MEDIUM, MEDIUM to LOW, LOW stays); so a call never skips a tier
    and never raises it, along any sequence of calls the tier only goes
    down, and from LOW it stays LOW. *)
Theorem tier_moves_one_step_down_only :
  (forall this deltaTime,
     performanceLevel (updateFPS this deltaTime) =
     if degradeSignal this deltaTime then stepDown (performanceLevel this)
     else performanceLevel this) /\
  (forall this deltaTime,
     (rank (performanceLevel (updateFPS this deltaTime))
      <= rank (performanceLevel this)
      <= S (rank (performanceLevel (updateFPS this deltaTime))))%nat) /\
  (forall this deltaTimes,
     (rank (performanceLevel (run this deltaTimes))
      <= rank (performanceLevel this))%nat) /\
  (forall this deltaTimes,
     performanceLevel this = low ->
     performanceLevel (run this deltaTimes) = low).
Proof.
  assert (Step : forall this deltaTime,
    (rank (performanceLevel (updateFPS this deltaTime))
     <= rank (performanceLevel this)
     <= S (rank (performanceLevel (updateFPS this deltaTime))))%nat).
  { intros this dt. rewrite updateFPS_level.
    destruct (degradeSignal this dt); [apply stepDown_rank | lia]. }
  assert (Mono : forall this deltaTimes,
    (rank (performanceLevel (run this deltaTimes))
     <= rank (performanceLevel this))%nat).
  { intros this dts. induction dts as [| dt dts IH] using rev_ind.
    - reflexivity.
    - rewrite run_snoc. specialize (Step (run this dts) dt). lia. }
  split; [exact updateFPS_level |]. split; [exact Step |].
  split; [exact Mono |].
  intros this dts Hlow. specialize (Mono this dts). rewrite Hlow in Mono.
  destruct (performanceLevel (run this dts)); simpl in Mono; (reflexivity || lia).
Qed.

(** The tier from HIGH under two low-rate sampling instants, and from LOW. *)
Lemma tier_moves_one_step_down_only_witness :
  performanceLevel (run new (replicate 30 (Fin 100))) = medium /\
  performanceLevel (run new (replicate 60 (Fin 100))) = low /\
  performanceLevel (run (run new (replicate 60 (Fin 100))) (replicate 90 (Fin 1)))
  = low.
Proof.
  split; [vm_compute; reflexivity |]. split; [vm_compute; reflexivity |].
  apply (proj2 (proj2 (proj2 tier_moves_one_step_down_only))).
  vm_compute; reflexivity.
Defined.

(** C5.  From the constructor's state the dynamic skip interval stays in
    [[1, 5]] under every sequence of [updateFPS] calls: a degrade signal
    adds 1 up to the ceiling 5, a recover signal (frame rate above target
    plus 5 while the interval exceeds 1) takes 1 off down to the floor 1,
    and any other call leaves it alone. *)
Theorem skip_interval_stays_within_1_5 :
  (forall deltaTimes,
     (1 <= dynamicSkipInterval (run new deltaTimes) <= 5)%Z) /\
  (forall this deltaTime,
     dynamicSkipInterval (updateFPS this deltaTime) =
     if degradeSignal this deltaTime
     then Z.min (dynamicSkipInterval this + 1) 5
     else if recoverSignal this deltaTime
     then Z.max (dynamicSkipInterval this - 1) 1
     else dynamicSkipInterval this).
Proof.
  split; [| exact updateFPS_skip].
  intros dts. induction dts as [| dt dts IH] using rev_ind.
  - simpl. lia.
  - rewrite run_snoc, updateFPS_skip.
    destruct (degradeSignal _ _); [lia |].
    destruct (recoverSignal _ _); lia.
Qed.

End UpdateFPS.

(** ** Interpolation of landmark snapshots *)

Section Interpolation.
Import PerformanceManager.

Lemma interpolateFaces_cache (this : PerformanceManager) (faces : list Face)
    (progress : num) :
  cachedFaces (interpolateFaces this faces progress).2 = Some faces.
Proof.
  unfold interpolateFaces. destruct (cachedFaces this) as [cached |]; [| reflexivity].
  now destruct (length faces =? 0)%nat.
Qed.

(** With a cache in place the result is the indexed map of the source, also
    when the new snapshot is empty. *)
Lemma interpolateFaces_imap (this : PerformanceManager)
    (cached faces : list Face) (progress : num) :
  cachedFaces this = Some cached ->
  (interpolateFaces this faces progress).1 =
  imap (fun index face =>
    match cached !! index with
    | None => face
    | Some c =>
        {| scaledMesh :=
             imap (fun pointIndex point =>
               match scaledMesh c !! pointIndex with
               | None => point
               | Some cachedPoint => blendPoint cachedPoint point progress
               end) (scaledMesh face);
           otherProps := otherProps face |}
    end) faces.
Proof.
  intros Hc. unfold interpolateFaces. rewrite Hc.
  destruct faces as [| f faces]; reflexivity.
Qed.

(** C6.  With cached snapshot [A] and new snapshot [B], [interpolateFaces]
    at blend factor 0.3 returns one face per face of [B] and replaces the
    cache by [B].  A face of [B] whose index [A] also has keeps its other
    properties and its number of landmarks; each of its landmarks whose
    index the cached mesh also has becomes [a + (b - a) * 0.3] in x, y and
    depth, and each other landmark is returned as it is.  A face of [B]
    whose index [A] lacks is returned as it is. *)
Theorem interpolateFaces_blend (this : PerformanceManager) (A B : list Face) :
  cachedFaces this = Some A ->
  let R := (interpolateFaces this B (Fin 0.3)).1 in
  cachedFaces (interpolateFaces this B (Fin 0.3)).2 = Some B /\
  length R = length B /\
  forall i fb, B !! i = Some fb ->
    match A !! i with
    | None => R !! i = Some fb
    | Some fa =>
        exists fr,
          R !! i = Some fr /\
          otherProps fr = otherProps fb /\
          length (scaledMesh fr) = length (scaledMesh fb) /\
          forall j pb, scaledMesh fb !! j = Some pb ->
            match scaledMesh fa !! j with
            | None => scaledMesh fr !! j = Some pb
            | Some pa =>
                scaledMesh fr !! j = Some
                  [ coord pa 0 + (coord pb 0 - coord pa 0) * Fin 0.3;
                    coord pa 1 + (coord pb 1 - coord pa 1) * Fin 0.3;
                    coord pa 2 + (coord pb 2 - coord pa 2) * Fin 0.3 ]%num
            end
    end.
Proof.
  intros Hc R. split; [apply interpolateFaces_cache |].
  subst R. rewrite (interpolateFaces_imap this A B (Fin 0.3) Hc).
  split; [apply length_imap |].
  intros i fb Hb. rewrite list_lookup_imap, Hb.
  cbn [fmap option_fmap option_map].
  destruct (A !! i) as [fa |]; [| reflexivity].
  eexists. split; [reflexivity |]. cbn [otherProps scaledMesh].
  split; [reflexivity |]. split; [apply length_imap |].
  intros j pb Hp.
  destruct (scaledMesh fa !! j) as [pa |] eqn:Ha;
    rewrite list_lookup_imap, Hp; cbn [fmap option_fmap option_map];
    now rewrite Ha.
Qed.

(** One cached face against two detected ones. *)
Lemma interpolateFaces_blend_witness :
  let this := withCachedFaces new cachedSnapshot in
  let R := (interpolateFaces this detectedSnapshot (Fin 0.3)).1 in
  cachedFaces (interpolateFaces this detectedSnapshot (Fin 0.3)).2
  = Some detectedSnapshot /\
  length R = 2%nat /\
  (scaledMesh <$> R !! 0%nat) =
    Some [ [Fin 0 + (Fin 10 - Fin 0) * Fin 0.3;
            Fin 0 + (Fin 10 - Fin 0) * Fin 0.3;
            Fin 0 + (Fin 10 - Fin 0) * Fin 0.3];
           [Fin 10 + (Fin 20 - Fin 10) * Fin 0.3;
            Fin 20 + (Fin 20 - Fin 20) * Fin 0.3;
            Fin 30 + (Fin 20 - Fin 30) * Fin 0.3];
           Samples.pt 7 8 9 ]%num /\
  R !! 1%nat = detectedSnapshot !! 1%nat.
Proof.
  intros this R.
  destruct (interpolateFaces_blend this cachedSnapshot detectedSnapshot eq_refl)
    as (Hcache & Hlen & Hfaces).
  split; [exact Hcache |]. split; [exact Hlen |].
  split; [| exact (Hfaces 1%nat _ eq_refl)].
  reflexivity.
Defined.

(** What only the cached snapshot has does not pass through.  With the two
    detected faces as the cache and the one-face snapshot as the new
    detection, the result has one face of two landmarks: the second cached
    face is not in it, nor is the third landmark of the first. *)
Lemma interpolateFaces_drops_cached_only :
  let A := detectedSnapshot in
  let B := cachedSnapshot in
  let R := (interpolateFaces (withCachedFaces new A) B (Fin 0.3)).1 in
  ~ (forall i fa, A !! i = Some fa -> B !! i = None -> R !! i = Some fa) /\
  ~ (forall i fa fr j pa,
       A !! i = Some fa -> R !! i = Some fr ->
       scaledMesh fa !! j = Some pa ->
       (forall fb, B !! i = Some fb -> scaledMesh fb !! j = None) ->
       scaledMesh fr !! j = Some pa).
Proof.
  intros A B R. split.
  - intros H. specialize (H 1%nat _ eq_refl eq_refl). discriminate H.
  - intros H.
    specialize (H 0%nat _ _ 2%nat _ eq_refl eq_refl eq_refl).
    assert (E : forall fb, B !! 0%nat = Some fb -> scaledMesh fb !! 2%nat = None)
      by (now intros fb [= <-]).
    specialize (H E). discriminate H.
Qed.

End Interpolation.

(** ** The render loop: culling and faces without landmarks *)

Section RenderLoop.
Import ViewportUtils FilterRenderer.
Variable World : Type.
Variable canvasSize : World -> Z * Z.

Lemma renderFace_not_drawn (filter filter' : Filter World) (t : num)
    (qs : Quality.QualitySettings) (cw ch : num) (w : World) (face : Face) :
  shouldCullAnimation face cw ch <> Ok false ->
  (renderFace World filter t qs cw ch w face).2 = w /\
  renderFace World filter t qs cw ch w face
  = renderFace World filter' t qs cw ch w face.
Proof.
  unfold renderFace. intros H.
  destruct (shouldCullAnimation face cw ch) as [[|] | e]; [easy | | easy].
  now destruct H.
Qed.




(** C1, as the code has it.  [getFacePoints] never fails: a named point is
    [undefined] exactly when the mesh is too short to hold its index.  A face
    whose mesh lacks index 263 (so one of the landmarks the cull test reads)
    is never handed to the filter.  For a face that passes the cull test,
    whatever [draw] does, an exception included, [render] goes on with the
    remaining faces from the world that call left. *)
Theorem malformed_face_handling :
  (forall face,
     let p := getFacePoints face in
     let n := length (scaledMesh face) in
     (noseTip p = None <-> n <= 1)%nat /\
     (leftEye p = None <-> n <= 33)%nat /\
     (rightEye p = None <-> n <= 263)%nat /\
     (foreheadCenter p = None <-> n <= 9)%nat /\
     (leftMouth p = None <-> n <= 61)%nat /\
     (rightMouth p = None <-> n <= 291)%nat /\
     (leftCheek p = None <-> n <= 116)%nat /\
     (rightCheek p = None <-> n <= 345)%nat) /\
  (forall face (filter filter' : Filter World) t qs cw ch w,
     (length (scaledMesh face) <= 263)%nat ->
     (renderFace World filter t qs cw ch w face).2 = w /\
     renderFace World filter t qs cw ch w face
     = renderFace World filter' t qs cw ch w face) /\
  (forall face (filter : Filter World) t qs cw ch w rest,
     shouldCullAnimation face cw ch = Ok false ->
     forEach World (renderFace World filter t qs cw ch) (face :: rest) w
     = forEach World (renderFace World filter t qs cw ch) rest
         (filter w face t
            {| Quality.settings := Quality.settings qs;
               Quality.performanceLevel :=
                 Some (default high (Quality.performanceLevel qs)) |}).2).
Proof.
  split; [| split].
  - intros face p n. subst p n. unfold getFacePoints.
    cbn [noseTip leftEye rightEye foreheadCenter leftMouth rightMouth
         leftCheek rightCheek].
    repeat split; intros H; now apply lookup_ge_None.
  - intros face filter filter' t qs cw ch w Hlen.
    apply renderFace_not_drawn.
    unfold shouldCullAnimation, getFaceDimensions, getFacePoints.
    cbn [rightEye].
    apply (lookup_ge_None (scaledMesh face) 263) in Hlen.
    unfold C.LANDMARKS.RIGHT_EYE. rewrite Hlen. discriminate.
  - intros face filter t qs cw ch w rest Hcull.
    simpl. unfold renderFace at 1. now rewrite Hcull.
Qed.

End RenderLoop.


(** The mesh of [truncatedFace] stops at 200 landmarks: the face is never
    drawn.  [shortFace] passes the cull test and makes [fragile] throw: the
    loop goes on with the next face. *)
Lemma malformed_face_handling_witness :
  (FilterRenderer.renderFace Recording recorder (Fin 0) freshSettings
     (Fin 640) (Fin 480) [] Samples.truncatedFace).2 = [] /\
  FilterRenderer.forEach Recording
    (FilterRenderer.renderFace Recording fragile (Fin 0) freshSettings
       (Fin 640) (Fin 480))
    [Samples.shortFace; Samples.frontalFace] []
  = (Ok tt, [Samples.shortFace; Samples.frontalFace]).
Proof.
  split.
  - refine (proj1 (proj1 (proj2 (malformed_face_handling Recording))
                     Samples.truncatedFace recorder recorder (Fin 0)
                     freshSettings (Fin 640) (Fin 480) [] _)).
    vm_compute. lia.
  - rewrite (proj2 (proj2 (malformed_face_handling Recording))
               Samples.shortFace fragile (Fin 0) freshSettings
               (Fin 640) (Fin 480) [] [Samples.frontalFace]);
      vm_compute; reflexivity.
Defined.

(** C1 as stated fails.  Alone, the frontal face is drawn.  Behind a face
    without landmarks it is not: the cull test of the first face throws
    outside the [try], the exception leaves [forEach], and [render] ends
    without having called [draw].  Nor does [getFacePoints] report the bad
    face: it returns eight [undefined] points. *)
Lemma malformed_face_stops_render :
  FilterRenderer.render Recording recordingCanvas
    (recordingRenderer "recorder") [] [Samples.frontalFace] freshSettings
  = (Ok tt, [Samples.frontalFace]) /\
  FilterRenderer.render Recording recordingCanvas
    (recordingRenderer "recorder") []
    [Samples.emptyFace; Samples.frontalFace] freshSettings
  = (Throw TypeError, []) /\
  ViewportUtils.getFacePoints Samples.emptyFace
  = {| ViewportUtils.noseTip := None; ViewportUtils.leftEye := None;
       ViewportUtils.rightEye := None; ViewportUtils.foreheadCenter := None;
       ViewportUtils.leftMouth := None; ViewportUtils.rightMouth := None;
       ViewportUtils.leftCheek := None; ViewportUtils.rightCheek := None |}.
Proof. repeat split; vm_compute; reflexivity. Qed.

(** ** Arithmetic on finite numbers *)

Create Rewrite HintDb num_fin.

Lemma add_Fin (a b : Q) : (Fin a + Fin b)%num = Fin (a + b).
Proof. reflexivity. Qed.

Lemma sub_Fin (a b : Q) : (Fin a - Fin b)%num = Fin (a + - b).
Proof. reflexivity. Qed.

Lemma mul_Fin (a b : Q) : (Fin a * Fin b)%num = Fin (a * b).
Proof. reflexivity. Qed.

Lemma max_Fin (a b : Q) : max (Fin a) (Fin b) = Fin (if Qltb a b then b else a).
Proof. unfold max, lt. now destruct (Qltb a b). Qed.

Lemma min_Fin (a b : Q) : min (Fin a) (Fin b) = Fin (if Qltb b a then b else a).
Proof. unfold min, lt. now destruct (Qltb b a). Qed.

Lemma floor_Fin (a : Q) : floor (Fin a) = Fin (inject_Z (Qfloor a)).
Proof. reflexivity. Qed.

Lemma ceil_Fin (a : Q) : ceil (Fin a) = Fin (inject_Z (Qceiling a)).
Proof. reflexivity. Qed.

Lemma abs_Fin (a : Q) : abs (Fin a) = Fin (Qabs a).
Proof. reflexivity. Qed.

Lemma coord_0 (a : num) (l : Point) : coord (a :: l) 0 = a.
Proof. reflexivity. Qed.

Lemma coord_1 (a b : num) (l : Point) : coord (a :: b :: l) 1 = b.
Proof. reflexivity. Qed.

#[local] Hint Rewrite add_Fin sub_Fin mul_Fin max_Fin min_Fin floor_Fin
  ceil_Fin abs_Fin coord_0 coord_1 : num_fin.

(** Every entry of the morph table is finite, with non-negative region
    multipliers. *)
Lemma MORPH_finite (level : Tier) :
  exists i e m s j p f h,
    C.MORPH level =
    {| C.intensity := Fin i; C.eyeScaleFactor := Fin e;
       C.mouthScaleFactor := Fin m; C.faceSlimFactor := Fin s;
       C.jawReductionFactor := Fin j; C.paddingMultiplier := Fin p;
       C.faceMultiplier := Fin f; C.heightMultiplier := Fin h |} /\
    0 <= p /\ 0 <= f /\ 0 <= h.
Proof.
  destruct level; simpl; do 8 eexists; (split; [reflexivity |]); lra.
Qed.

(** ** The processing region of the morph filter *)

Section ProcessingRegion.
Import ViewportUtils MorphFilter.
Context {M : MathLib}.

(** C2, as the code has it.  For finite inputs the region starts at or after
    0 on both axes and ends at or before the canvas width and height; its
    width and height are non-negative when the eye centre lies on the canvas
    (and the face dimensions are non-negative), and may be negative
    otherwise.  A region of width or height at most 0 is "nothing to draw":
    [draw] returns normally and leaves the canvas as it was. *)
Theorem processing_region_clipped :
  (forall (ex ey fw fh cw ch : Q) (level : Tier),
     let r := calculateProcessingRegion [Fin ex; Fin ey] (Fin fw) (Fin fh)
                (Fin cw) (Fin ch) level in
     (Fin 0 <=? minX r)%num = true /\
     (Fin 0 <=? minY r)%num = true /\
     (minX r + width r <=? Fin cw)%num = true /\
     (minY r + height r <=? Fin ch)%num = true /\
     (0 <= fw -> 0 <= fh -> 0 <= ex <= cw ->
      (Fin 0 <=? width r)%num = true) /\
     (0 <= fw -> 0 <= fh -> 0 <= ey <= ch ->
      (Fin 0 <=? height r)%num = true)) /\
  (forall (this : MorphFilter) (ctx : Canvas2D.Canvas) (face : Face) (t : num)
          (qs : Quality.QualitySettings) (level : Tier) (dims : FaceDimensions),
     Quality.performanceLevel qs = Some level ->
     getFaceDimensions (getFacePoints face) = Ok dims ->
     let r :=
       calculateProcessingRegion (eyeCenter dims) (faceWidth dims)
         (faceHeight dims) (ofZ (Canvas2D.canvasWidth ctx))
         (ofZ (Canvas2D.canvasHeight ctx)) level in
     (width r <=? Fin 0)%num || (height r <=? Fin 0)%num = true ->
     draw this ctx face t qs =
     (Ok tt,
      (resizeMorphCanvas (adjustForPerformance (initCanvas this) level)
         (Canvas2D.canvasWidth ctx, Canvas2D.canvasHeight ctx),
       ctx))).
Proof.
  split.
  - intros ex ey fw fh cw ch level r. subst r.
    unfold calculateProcessingRegion.
    destruct (MORPH_finite level)
      as (i & e & m & s & j & p & f & h & -> & Hp & Hf & Hh).
    cbn [C.paddingMultiplier C.faceMultiplier C.heightMultiplier
         minX minY width height].
    autorewrite with num_fin. rewrite !le_Fin.
    set (X0 := ex + - (fw * f) + - ((if Qltb fw fh then fh else fw) * p)).
    set (X1 := ex + fw * f + (if Qltb fw fh then fh else fw) * p).
    set (Y0 := ey + - (fh * h) + - ((if Qltb fw fh then fh else fw) * p)).
    set (Y1 := ey + fh * h + (if Qltb fw fh then fh else fw) * p).
    pose proof (Qfloor_le X0). pose proof (Qfloor_le Y0).
    pose proof (Qle_ceiling X1). pose proof (Qle_ceiling Y1).
    assert (0 <= fw -> 0 <= fh ->
            X0 <= ex /\ ex <= X1 /\ Y0 <= ey /\ ey <= Y1).
    { intros. subst X0 X1 Y0 Y1. qcases; nra. }
    repeat split; intros; qcases; lra.
  - intros this ctx face t qs level dims Hl Hd r Hr.
    unfold draw. rewrite Hl, Hd. fold r. now rewrite Hr.
Qed.

End ProcessingRegion.

(** The face that passes the cull test of no canvas: drawn directly, its
    region has a negative width and the canvas stays as it was. *)
Lemma processing_region_clipped_witness :
  (MorphFilter.draw blankMorphWorld.1 blankMorphWorld.2 Samples.offscreenFace
     (Fin 0)
     {| Quality.settings := C.PERFORMANCE high;
        Quality.performanceLevel := Some high |}).2.2
  = blankMorphWorld.2.
Proof.
  erewrite (proj2 processing_region_clipped blankMorphWorld.1
              blankMorphWorld.2 Samples.offscreenFace (Fin 0) _ high);
    [reflexivity | reflexivity | vm_compute; reflexivity |
     vm_compute; reflexivity].
Defined.

(** C2 as stated fails.  Eye centre (2320, 200), face 200 by 110, canvas 640
    by 480, tier HIGH: the region starts at x = 1920, right of the canvas,
    and its width is -1280. *)
Lemma processing_region_negative_width :
  let r := MorphFilter.calculateProcessingRegion [Fin 2320; Fin 200]
             (Fin 200) (Fin 110) (Fin 640) (Fin 480) high in
  MorphFilter.minX r = Fin 1920 /\ MorphFilter.width r = Fin (-1280) /\
  (MorphFilter.width r <? Fin 0)%num = true /\
  (MorphFilter.minX r >? Fin 640)%num = true.
Proof. vm_compute. repeat split; reflexivity. Qed.

(** ** The inverse warp: degenerate regions and zero intensity *)

Lemma finitePoint_inv (p : Point) :
  finitePoint p = true -> exists a b rest, p = Fin a :: Fin b :: rest.
Proof.
  destruct p as [| [| | |a] [| [| | |b] rest]]; try discriminate. eauto.
Qed.

Lemma finiteReq_inv (o : option Point) :
  finiteReq o = true -> exists a b rest, o = Some (Fin a :: Fin b :: rest).
Proof.
  destruct o as [p |]; [| discriminate]. intros H.
  destruct (finitePoint_inv p H) as (a & b & rest & ->). eauto.
Qed.

Lemma sumsq_nonneg (a b : Q) : 0 <= a * a + b * b.
Proof. nra. Qed.

Lemma Qabs_zero (a b : Q) : a == b -> Qabs (a + - b) == 0.
Proof.
  intros E. assert (H : a + - b == 0) by (rewrite E; ring). now rewrite H.
Qed.

Lemma notInf_Fin (q : Q) : notInf (Fin q).
Proof. right; eauto. Qed.

Lemma notInf_NaN : notInf NaN.
Proof. now left. Qed.

Lemma mul_notInf_Fin (a : num) (q : Q) : notInf a -> notInf (a * Fin q).
Proof. intros [-> | [r ->]]; [apply notInf_NaN | apply notInf_Fin]. Qed.

Lemma mul_notInf (a b : num) : notInf a -> notInf b -> notInf (a * b).
Proof.
  intros [-> | [r ->]] [-> | [q ->]]; first [apply notInf_NaN | apply notInf_Fin].
Qed.

(** Unfolding of the arithmetic on numbers, leaving the rational tests. *)
Ltac num_simpl :=
  cbn [add sub neg mul div lt gt le ge max min abs floor ceil round coord
       default from_option id lookup list_lookup scaleInf
       bind mbind result_bind deref isFinite].

(** One factor of the face-slim influence is never infinite. *)
Lemma influence_factor_notInf (d w : Q) :
  notInf (max (Fin 0) (Fin 1 - Fin (Qabs d) / Fin w)).
Proof.
  pose proof (Qabs_nonneg d).
  num_simpl. qcases; num_simpl; qcases; try (exfalso; lra);
    first [apply notInf_Fin | apply notInf_NaN].
Qed.

(** Equality as values is reflexive and transitive. *)
Lemma eqv_refl (a : num) : a ≐ a.
Proof. destruct a; cbn; [exact I | exact I | exact I | reflexivity]. Qed.

Lemma eqv_trans (a b c : num) : a ≐ b -> b ≐ c -> a ≐ c.
Proof.
  destruct a, b, c; cbn; try tauto. intros -> ->. reflexivity.
Qed.

(** A scale that is 1 has the reciprocal 1, and pulling a coordinate towards
    a centre by the factor 1 gives the same number, also for NaN and the
    infinities. *)
Lemma unit_reciprocal (k : Q) :
  k == 1 -> exists r, (Fin 1 / Fin k)%num = Fin r /\ r == 1.
Proof.
  intros Hk. cbn [div].
  destruct (Qis0_reflect k) as [E | _]; [exfalso; lra |].
  eexists. split; [reflexivity |]. rewrite Hk. reflexivity.
Qed.

Lemma recenter_one (c r : Q) (a : num) :
  r == 1 -> (Fin c + (a - Fin c) * Fin r)%num ≐ a.
Proof.
  intros Hr. destruct a as [| | |q].
  - exact I.
  - num_simpl. unfold scaleInf.
    qcases; cbn [Bool.eqb add eqv]; try exact I; exfalso; lra.
  - num_simpl. unfold scaleInf.
    qcases; cbn [Bool.eqb add eqv]; try exact I; exfalso; lra.
  - num_simpl. cbn [eqv]. rewrite Hr. ring.
Qed.

Lemma influence_factor_notInf_any (d : num) (w : Q) :
  0 <= w -> notInf (max (Fin 0) (Fin 1 - abs d / Fin w)).
Proof.
  intros Hw. destruct d as [| | |q].
  - apply notInf_NaN.
  - num_simpl. qcases; num_simpl; try (exfalso; lra); apply notInf_Fin.
  - num_simpl. qcases; num_simpl; try (exfalso; lra); apply notInf_Fin.
  - apply influence_factor_notInf.
Qed.

Section InverseWarp.
Import ViewportUtils MorphFilter.
Context {M : MathLib}.
Variable this : MorphFilter.

Ltac nan_finish :=
  repeat first
    [ rewrite sqrt_NaN | rewrite sqrt_PInf
    | rewrite (cos_nonFin NaN eq_refl)
    | rewrite pow_NaN by lra
    | progress num_simpl ];
  eauto.

Lemma distance_Fin (x y cx cy : Q) :
  exists r,
    sqrt (pow (Fin x - Fin cx) (Fin 2) + pow (Fin y - Fin cy) (Fin 2))%num
    = Fin r /\ 0 <= r.
Proof.
  rewrite !pow_square. num_simpl.
  destruct (sqrt_Fin _ (sumsq_nonneg (x + - cx) (y + - cy)))
    as (r & -> & Hr & _).
  eauto.
Qed.

Lemma cos_notInf (a : num) : notInf (cos a).
Proof.
  destruct a as [| | |q]; try (left; now apply cos_nonFin).
  destruct (cos_Fin q) as (r & -> & _). apply notInf_Fin.
Qed.

Lemma pow_notInf (b : num) (e : Q) :
  0 < e -> notInf b -> notInf (pow b (Fin e)).
Proof.
  intros He [-> | [q ->]].
  - left. now apply pow_NaN.
  - destruct (pow_Fin q e He) as [-> | [r ->]];
      [apply notInf_NaN | apply notInf_Fin].
Qed.

Lemma falloff_notInf (b : bool) (a : num) (e : Q) :
  0 < e -> notInf (if b then pow (cos a) (Fin e) else cos a).
Proof.
  intros He. destruct b; [apply pow_notInf; [exact He |] |]; apply cos_notInf.
Qed.

(** *** Degenerate regions *)

Lemma eye_degenerate (x y ox ix : Q) (ro ri : Point) (center : option Point)
    (lm : Landmarks) :
  leftEyeOuter lm = Some (Fin ox :: ro) ->
  leftEyeInner lm = Some (Fin ix :: ri) ->
  ox == ix ->
  finiteOpt center = true ->
  exists v,
    calculateEyeInfluence this (Fin x) (Fin y) center lm = Ok v /\
    (v = Fin 0 \/ v = NaN).
Proof.
  intros Ho Hi Hx Hc. unfold calculateEyeInfluence.
  destruct center as [c |]; [| eauto].
  destruct (finitePoint_inv c Hc) as (cx & cy & rest & ->).
  rewrite Ho, Hi.
  cbn [coord default from_option id lookup list_lookup bind mbind
       result_bind deref].
  destruct (distance_Fin x y cx cy) as (r & -> & Hr).
  pose proof (Qabs_zero ox ix Hx) as Hz.
  unfold C.EYE_REGION_MULTIPLIER, C.EYE_EXTREME_MULTIPLIER.
  destruct (eyeScaleFactor this >? Fin 2)%num; num_simpl; qcases; eauto.
  all: try (exfalso; nra).
  all: rewrite ?cos_nonFin by reflexivity; rewrite ?pow_NaN by lra; eauto.
Qed.

Lemma mouth_degenerate (x y lx rx : Q) (rl rr : Point)
    (center : option Point) (lm : Landmarks) :
  mouthLeftCorner lm = Some (Fin lx :: rl) ->
  mouthRightCorner lm = Some (Fin rx :: rr) ->
  rx == lx ->
  finiteOpt center = true ->
  finiteOpt (mouthBottomCenter lm) = true ->
  finiteOpt (mouthTopCenter lm) = true ->
  exists v,
    calculateMouthInfluence this (Fin x) (Fin y) center lm = Ok v /\
    (v = Fin 0 \/ v = NaN).
Proof.
  intros Hl Hr Hx Hc Hb Ht. unfold calculateMouthInfluence.
  destruct center as [c |]; [| eauto].
  destruct (finitePoint_inv c Hc) as (cx & cy & rest & ->).
  rewrite Hl, Hr.
  pose proof (Qabs_zero rx lx Hx) as Hz.
  unfold C.MOUTH_REGION_MULTIPLIER, C.MOUTH_EXTREME_MULTIPLIER.
  destruct (mouthBottomCenter lm) as [b |];
    [destruct (finitePoint_inv b Hb) as (bx & by_ & brest & ->) |];
    (destruct (mouthTopCenter lm) as [t |];
     [destruct (finitePoint_inv t Ht) as (tx & ty & trest & ->) |]);
    destruct (mouthScaleFactor this >? Fin 1.8)%num;
    repeat (progress (num_simpl; qcases)); try (exfalso; nra); nan_finish.
Qed.

Lemma face_degenerate (x y flx frx fhx fhy ctx cty : Q) (r1 r2 r3 r4 : Point)
    (lm : Landmarks) :
  faceLeft lm = Some (Fin flx :: r1) ->
  faceRight lm = Some (Fin frx :: r2) ->
  foreheadCenter lm = Some (Fin fhx :: Fin fhy :: r3) ->
  chinTip lm = Some (Fin ctx :: Fin cty :: r4) ->
  frx == flx \/ fhy == cty ->
  exists v,
    calculateFaceSlimInfluence (Fin x) (Fin y) lm = Ok v /\
    (v = Fin 0 \/ v = NaN).
Proof.
  intros Hl Hr Hf Hc Hz. unfold calculateFaceSlimInfluence.
  rewrite Hl, Hr, Hf, Hc.
  unfold C.FACE_WIDTH_INFLUENCE, C.FACE_HEIGHT_INFLUENCE, C.FACE_SLIM_INTENSITY.
  cbn [coord default from_option id lookup list_lookup bind mbind
       result_bind deref].
  cbn [add sub neg mul abs lt gt div].
  destruct (Qis0_reflect 2) as [E | _]; [exfalso; lra |].
  cbn [add sub neg mul abs lt gt div].
  set (dX := Qabs (x + - ((flx + frx) / 2))).
  set (dY := Qabs (y + - ((fhy + cty) / 2))).
  assert (HdX : 0 <= dX) by apply Qabs_nonneg.
  assert (HdY : 0 <= dY) by apply Qabs_nonneg.
  assert (Hw : frx == flx -> Qabs (frx + - flx) == 0) by apply Qabs_zero.
  assert (Hh : fhy == cty -> Qabs (fhy + - cty) == 0) by apply Qabs_zero.
  set (fw := Qabs (frx + - flx)) in *. set (fh := Qabs (fhy + - cty)) in *.
  destruct (Qltb_reflect (fw * 0.6) dX); [eauto |].
  destruct (Qltb_reflect (fh * 0.6) dY); [eauto |].
  cbn [orb].
  destruct Hz as [Hz | Hz]; [apply Hw in Hz | apply Hh in Hz].
  - destruct (Qis0_reflect (fw * 0.3)) as [_ | N];
      [| exfalso; apply N; rewrite Hz; ring].
    destruct (Qis0_reflect dX) as [_ | N]; [| exfalso; apply N; nra].
    nan_finish.
  - destruct (Qis0_reflect (fh * 0.6)) as [_ | N];
      [| exfalso; apply N; rewrite Hz; ring].
    destruct (Qis0_reflect dY) as [_ | N]; [| exfalso; apply N; nra].
    cbn [sub add neg max].
    match goal with
    | |- context [(?h * NaN)%num] =>
        replace (h * NaN)%num with NaN by (now destruct h)
    end.
    nan_finish.
Qed.

Lemma undoEnlargement_idle (s v : num) (c : option Point) (p : num * num) :
  v = Fin 0 \/ v = NaN -> undoEnlargement this s v c p = Ok p.
Proof. intros [-> | ->]; reflexivity. Qed.

(** *** Influences are never infinite *)

Lemma eye_notInf (x y : Q) (center : option Point) (lm : Landmarks) :
  (exists ox oy ro, leftEyeOuter lm = Some (Fin ox :: Fin oy :: ro)) ->
  (exists ix iy ri, leftEyeInner lm = Some (Fin ix :: Fin iy :: ri)) ->
  finiteOpt center = true ->
  exists v,
    calculateEyeInfluence this (Fin x) (Fin y) center lm = Ok v /\
    notInf v /\ (center = None -> v = Fin 0).
Proof.
  intros (ox & oy & ro & Ho) (ix & iy & ri & Hi) Hc.
  unfold calculateEyeInfluence.
  destruct center as [c |];
    [| eexists; split; [reflexivity | split; [apply notInf_Fin | reflexivity]]].
  destruct (finitePoint_inv c Hc) as (cx & cy & rest & ->).
  rewrite Ho, Hi.
  cbn [coord default from_option id lookup list_lookup bind mbind
       result_bind deref].
  destruct (distance_Fin x y cx cy) as (r & -> & Hr).
  match goal with
  | |- context [if ?c then Ok (Fin 0) else _] => destruct c
  end.
  - eexists; split; [reflexivity | split; [apply notInf_Fin | discriminate]].
  - eexists; split; [reflexivity | split; [| discriminate]].
    apply falloff_notInf. lra.
Qed.

Lemma mouth_notInf (x y : num) (center : option Point) (lm : Landmarks) :
  exists v,
    calculateMouthInfluence this x y center lm = Ok v /\
    notInf v /\ (center = None -> v = Fin 0).
Proof.
  unfold calculateMouthInfluence.
  destruct center as [c |];
    [| eexists; split; [reflexivity | split; [apply notInf_Fin | reflexivity]]].
  destruct (mouthLeftCorner lm) as [l |];
    [| eexists; split; [reflexivity | split; [apply notInf_Fin | discriminate]]].
  destruct (mouthRightCorner lm) as [r |];
    [| eexists; split; [reflexivity | split; [apply notInf_Fin | discriminate]]].
  cbv zeta.
  match goal with
  | |- context [if ?c then Ok (Fin 0) else _] => destruct c
  end.
  - eexists; split; [reflexivity | split; [apply notInf_Fin | discriminate]].
  - eexists; split; [reflexivity | split; [| discriminate]].
    apply falloff_notInf. lra.
Qed.

Lemma face_notInf (x y flx fly frx fry fhx fhy ctx cty : Q)
    (r1 r2 r3 r4 : Point) (lm : Landmarks) :
  faceLeft lm = Some (Fin flx :: Fin fly :: r1) ->
  faceRight lm = Some (Fin frx :: Fin fry :: r2) ->
  foreheadCenter lm = Some (Fin fhx :: Fin fhy :: r3) ->
  chinTip lm = Some (Fin ctx :: Fin cty :: r4) ->
  exists v, calculateFaceSlimInfluence (Fin x) (Fin y) lm = Ok v /\ notInf v.
Proof.
  intros Hl Hr Hf Hc. unfold calculateFaceSlimInfluence.
  rewrite Hl, Hr, Hf, Hc.
  cbn [coord default from_option id lookup list_lookup bind mbind
       result_bind deref].
  match goal with
  | |- context [if ?c then Ok (Fin 0) else _] => destruct c
  end.
  - eexists; split; [reflexivity | apply notInf_Fin].
  - eexists; split; [reflexivity |].
    unfold C.FACE_SLIM_INTENSITY. apply mul_notInf_Fin, mul_notInf.
    + cbn [add sub neg mul abs div].
      destruct (Qis0_reflect 2) as [E | _]; [exfalso; lra |].
      cbn [add neg]. apply (influence_factor_notInf (x + - ((flx + frx) / 2))).
    + cbn [add sub neg mul abs div].
      destruct (Qis0_reflect 2) as [E | _]; [exfalso; lra |].
      cbn [add neg]. apply (influence_factor_notInf (y + - ((fhy + cty) / 2))).
Qed.

(** At intensity 0 the scale is 1 and the block returns the running point,
    whatever the point is. *)
Lemma undo_zero_intensity_any (s : Q) (v : num) (c : option Point)
    (p : num * num) :
  intensity this = Fin 0 ->
  notInf v ->
  finiteOpt c = true ->
  (c = None -> v = Fin 0) ->
  exists p',
    undoEnlargement this (Fin s) v c p = Ok p' /\ p'.1 ≐ p.1 /\ p'.2 ≐ p.2.
Proof.
  intros Hi Hv Hc Hn. unfold undoEnlargement. rewrite Hi.
  destruct Hv as [-> | [q ->]].
  - exists p. cbn. repeat split; apply eqv_refl.
  - cbn [gt lt]. destruct (Qltb_reflect 0 q) as [Hq | Hq].
    2:{ exists p. repeat split; apply eqv_refl. }
    destruct c as [c |];
      [| specialize (Hn eq_refl); injection Hn as Hn; exfalso;
         rewrite Hn in Hq; lra].
    destruct (finitePoint_inv c Hc) as (cx & cy & rest & ->).
    cbn [deref bind mbind result_bind coord default from_option id lookup
         list_lookup].
    change (Fin 1 + (Fin s - Fin 1) * Fin q * Fin 0)%num
      with (Fin (1 + (s + - (1)) * q * 0)).
    destruct (unit_reciprocal (1 + (s + - (1)) * q * 0)) as (r & -> & Hr);
      [ring |].
    eexists. split; [reflexivity |]. cbn [fst snd].
    split; apply recenter_one; exact Hr.
Qed.

(** The influences at points that need not be finite. *)
Lemma eye_notInf_any (x y : num) (center : option Point) (lm : Landmarks) :
  (exists ox oy ro, leftEyeOuter lm = Some (Fin ox :: Fin oy :: ro)) ->
  (exists ix iy ri, leftEyeInner lm = Some (Fin ix :: Fin iy :: ri)) ->
  exists v,
    calculateEyeInfluence this x y center lm = Ok v /\
    notInf v /\ (center = None -> v = Fin 0).
Proof.
  intros (ox & oy & ro & Ho) (ix & iy & ri & Hi).
  unfold calculateEyeInfluence.
  destruct center as [c |];
    [| eexists; split; [reflexivity | split; [apply notInf_Fin | reflexivity]]].
  rewrite Ho, Hi.
  cbn [bind mbind result_bind deref]. cbv zeta.
  match goal with
  | |- context [if ?c then Ok (Fin 0) else _] => destruct c
  end.
  - eexists; split; [reflexivity | split; [apply notInf_Fin | discriminate]].
  - eexists; split; [reflexivity | split; [| discriminate]].
    apply falloff_notInf. lra.
Qed.

Lemma face_notInf_any (x y : num) (flx fly frx fry fhx fhy ctx cty : Q)
    (r1 r2 r3 r4 : Point) (lm : Landmarks) :
  faceLeft lm = Some (Fin flx :: Fin fly :: r1) ->
  faceRight lm = Some (Fin frx :: Fin fry :: r2) ->
  foreheadCenter lm = Some (Fin fhx :: Fin fhy :: r3) ->
  chinTip lm = Some (Fin ctx :: Fin cty :: r4) ->
  exists v, calculateFaceSlimInfluence x y lm = Ok v /\ notInf v.
Proof.
  intros Hl Hr Hf Hc. unfold calculateFaceSlimInfluence.
  rewrite Hl, Hr, Hf, Hc.
  cbn [coord default from_option id lookup list_lookup bind mbind
       result_bind deref]. cbv zeta.
  match goal with
  | |- context [if ?c then Ok (Fin 0) else _] => destruct c
  end.
  - eexists; split; [reflexivity | apply notInf_Fin].
  - eexists; split; [reflexivity |].
    unfold C.FACE_SLIM_INTENSITY. apply mul_notInf_Fin, mul_notInf.
    + change (abs (Fin frx - Fin flx) * Fin 0.3)%num
        with (Fin (Qabs (frx + - flx) * 0.3)).
      apply influence_factor_notInf_any.
      pose proof (Qabs_nonneg (frx + - flx)). lra.
    + change (abs (Fin fhy - Fin cty) * Fin 0.6)%num
        with (Fin (Qabs (fhy + - cty) * 0.6)).
      apply influence_factor_notInf_any.
      pose proof (Qabs_nonneg (fhy + - cty)). lra.
Qed.

End InverseWarp.

Lemma completeLandmarks_inv (lm : MorphFilter.Landmarks) :
  completeLandmarks lm = true ->
  (exists a b r, MorphFilter.faceLeft lm = Some (Fin a :: Fin b :: r)) /\
  (exists a b r, MorphFilter.faceRight lm = Some (Fin a :: Fin b :: r)) /\
  (exists a b r, MorphFilter.foreheadCenter lm = Some (Fin a :: Fin b :: r)) /\
  (exists a b r, MorphFilter.chinTip lm = Some (Fin a :: Fin b :: r)) /\
  (exists a b r, MorphFilter.leftEyeInner lm = Some (Fin a :: Fin b :: r)) /\
  (exists a b r, MorphFilter.leftEyeOuter lm = Some (Fin a :: Fin b :: r)) /\
  finiteOpt (MorphFilter.leftEyeCenter lm) = true /\
  finiteOpt (MorphFilter.rightEyeCenter lm) = true /\
  finiteOpt (MorphFilter.mouthLeftCorner lm) = true /\
  finiteOpt (MorphFilter.mouthRightCorner lm) = true /\
  finiteOpt (MorphFilter.mouthTopCenter lm) = true /\
  finiteOpt (MorphFilter.mouthBottomCenter lm) = true /\
  finiteOpt (MorphFilter.mouthCenter lm) = true.
Proof.
  unfold completeLandmarks. rewrite !andb_true_iff.
  intros H. repeat split; try apply finiteReq_inv; tauto.
Qed.

Lemma sameCoord_0_Some (a b : option Point) :
  sameCoord 0 a b = true ->
  exists x y ra rb, a = Some (Fin x :: ra) /\ b = Some (Fin y :: rb) /\ x == y.
Proof.
  destruct a as [[| [| | |x] ra] |], b as [[| [| | |y] rb] |]; try discriminate.
  cbn. intros H. apply Qeq_bool_iff in H. eauto 8.
Qed.

Lemma sameCoord_1_Some (a b : option Point) :
  sameCoord 1 a b = true ->
  exists x0 x y0 y ra rb,
    a = Some (x0 :: Fin x :: ra) /\ b = Some (y0 :: Fin y :: rb) /\ x == y.
Proof.
  destruct a as [[| x0 [| [| | |x] ra]] |], b as [[| y0 [| [| | |y] rb]] |];
    try discriminate.
  cbn. intros H. apply Qeq_bool_iff in H. eauto 10.
Qed.

Section WarpTheorems.
Import ViewportUtils MorphFilter.
Context {M : MathLib}.

Lemma face_degenerate_complete (x y : Q) (lm : Landmarks) :
  completeLandmarks lm = true ->
  zeroWidthFace lm = true \/ zeroHeightFace lm = true ->
  exists v,
    calculateFaceSlimInfluence (Fin x) (Fin y) lm = Ok v /\
    (v = Fin 0 \/ v = NaN).
Proof.
  intros Hc Hz.
  destruct (completeLandmarks_inv lm Hc)
    as ((flx & fly & r1 & Hfl) & (frx & fry & r2 & Hfr) &
        (fhx & fhy & r3 & Hfh) & (ctx & cty & r4 & Hct) & _).
  apply (face_degenerate x y flx frx fhx fhy ctx cty _ _ _ _ lm Hfl Hfr Hfh Hct).
  unfold zeroWidthFace, zeroHeightFace in Hz. rewrite Hfl, Hfr, Hfh, Hct in Hz.
  destruct Hz as [Hz | Hz]; [left | right]; cbn in Hz; now apply Qeq_bool_iff.
Qed.

Lemma eye_degenerate_complete (this : MorphFilter) (x y : Q)
    (center : option Point) (lm : Landmarks) :
  zeroWidthEye lm = true ->
  finiteOpt center = true ->
  exists v,
    calculateEyeInfluence this (Fin x) (Fin y) center lm = Ok v /\
    (v = Fin 0 \/ v = NaN).
Proof.
  intros Hz Hcen.
  destruct (sameCoord_0_Some _ _ Hz) as (ox & ix & ro & ri & Ho & Hi & E).
  exact (eye_degenerate this x y ox ix ro ri center lm Ho Hi E Hcen).
Qed.

Lemma mouth_degenerate_complete (this : MorphFilter) (x y : Q)
    (center : option Point) (lm : Landmarks) :
  completeLandmarks lm = true ->
  zeroWidthMouth lm = true ->
  finiteOpt center = true ->
  exists v,
    calculateMouthInfluence this (Fin x) (Fin y) center lm = Ok v /\
    (v = Fin 0 \/ v = NaN).
Proof.
  intros Hc Hz Hcen.
  destruct (completeLandmarks_inv lm Hc)
    as (_ & _ & _ & _ & _ & _ & _ & _ & _ & _ & Ht & Hb & _).
  destruct (sameCoord_0_Some _ _ Hz) as (rx & lx & rr & rl & Hr & Hl & E).
  exact (mouth_degenerate this x y lx rx rl rr center lm Hl Hr E Hcen Hb Ht).
Qed.

(** C3, as the code has it.  On a complete landmark set with finite
    coordinates, at every finite point: when the landmarks that span the eye,
    the mouth or the face coincide, the influence computation of that
    deformation returns without an exception, and what it returns is either
    0 or NaN (NaN where the point sits on the centre as well, a division of
    zero by zero); either way the deformation leaves the running point as it
    is, and when all three regions are degenerate [inverseTransformPoint]
    returns the point itself. *)
Theorem degenerate_region_leaves_point (this : MorphFilter) (lm : Landmarks)
    (x y : Q) (cw ch : num) :
  completeLandmarks lm = true ->
  (zeroWidthEye lm = true ->
   forall center, finiteOpt center = true ->
     exists v,
       calculateEyeInfluence this (Fin x) (Fin y) center lm = Ok v /\
       (v = Fin 0 \/ v = NaN) /\
       forall s p, undoEnlargement this s v center p = Ok p) /\
  (zeroWidthMouth lm = true ->
   forall center, finiteOpt center = true ->
     exists v,
       calculateMouthInfluence this (Fin x) (Fin y) center lm = Ok v /\
       (v = Fin 0 \/ v = NaN) /\
       forall s p, undoEnlargement this s v center p = Ok p) /\
  (zeroWidthFace lm = true \/ zeroHeightFace lm = true ->
   exists v,
     calculateFaceSlimInfluence (Fin x) (Fin y) lm = Ok v /\
     (v = Fin 0 \/ v = NaN) /\ (v >? Fin 0)%num = false) /\
  (zeroWidthEye lm = true ->
   zeroWidthMouth lm = true ->
   zeroWidthFace lm = true \/ zeroHeightFace lm = true ->
   inverseTransformPoint this (Fin x) (Fin y) lm cw ch = Ok (Fin x, Fin y)).
Proof.
  intros Hc.
  pose proof (completeLandmarks_inv lm Hc)
    as ((flx & fly & r1 & Hfl) & (frx & fry & r2 & Hfr) & _ & _ & _ & _ &
        Hlc & Hrc & _ & _ & _ & _ & Hmc).
  repeat split.
  - intros Hz center Hcen.
    destruct (eye_degenerate_complete this x y center lm Hz Hcen) as (v & Hv & Hor).
    exists v. repeat split; [exact Hv | exact Hor |].
    intros s p. now apply undoEnlargement_idle.
  - intros Hz center Hcen.
    destruct (mouth_degenerate_complete this x y center lm Hc Hz Hcen)
      as (v & Hv & Hor).
    exists v. repeat split; [exact Hv | exact Hor |].
    intros s p. now apply undoEnlargement_idle.
  - intros Hz.
    destruct (face_degenerate_complete x y lm Hc Hz) as (v & Hv & Hor).
    exists v. repeat split; [exact Hv | exact Hor |].
    now destruct Hor as [-> | ->].
  - intros He Hm Hf. unfold inverseTransformPoint. rewrite Hfl, Hfr.
    cbn [bind mbind result_bind deref].
    destruct (face_degenerate_complete x y lm Hc Hf) as (vf & -> & Hvf).
    cbn [bind mbind result_bind].
    replace (vf >? Fin 0)%num with false by (now destruct Hvf as [-> | ->]).
    destruct (eye_degenerate_complete this x y _ lm He Hlc) as (vl & -> & Hvl).
    destruct (eye_degenerate_complete this x y _ lm He Hrc) as (vr & -> & Hvr).
    cbn [bind mbind result_bind].
    rewrite (undoEnlargement_idle this _ vl _ _ Hvl).
    cbn [bind mbind result_bind].
    rewrite (undoEnlargement_idle this _ vr _ _ Hvr).
    cbn [bind mbind result_bind].
    destruct (mouth_degenerate_complete this x y _ lm Hc Hm Hmc) as (vm & -> & Hvm).
    cbn [bind mbind result_bind].
    now apply undoEnlargement_idle.
Qed.

(** C8.  With intensity 0 and finite scale factors, on a complete landmark
    set with finite coordinates, [inverseTransformPoint] returns without an
    exception for every point, NaN and infinite coordinates included, and
    what it returns is the point it was given, as numbers in exact
    arithmetic: every scale it applies is exactly 1. *)
Theorem zero_intensity_is_identity (this : MorphFilter) (lm : Landmarks)
    (x y cw ch : num) :
  intensity this = Fin 0 ->
  isFinite (eyeScaleFactor this) = true ->
  isFinite (mouthScaleFactor this) = true ->
  isFinite (faceSlimFactor this) = true ->
  completeLandmarks lm = true ->
  exists p,
    inverseTransformPoint this x y lm cw ch = Ok p /\
    p.1 ≐ x /\ p.2 ≐ y.
Proof.
  intros Hi He Hm Hs Hc.
  destruct (eyeScaleFactor this) as [| | |es] eqn:Ees; try discriminate He.
  destruct (mouthScaleFactor this) as [| | |ms] eqn:Ems; try discriminate Hm.
  destruct (faceSlimFactor this) as [| | |fs] eqn:Efs; try discriminate Hs.
  pose proof (completeLandmarks_inv lm Hc)
    as ((flx & fly & r1 & Hfl) & (frx & fry & r2 & Hfr) &
        (fhx & fhy & r3 & Hfh) & (ctx & cty & r4 & Hct) &
        Hin & Hout & Hlc & Hrc & _ & _ & _ & _ & Hmc).
  unfold inverseTransformPoint. rewrite Hfl, Hfr, Efs, Ees, Ems, Hi.
  cbn [bind mbind result_bind deref].
  destruct (face_notInf_any x y _ _ _ _ _ _ _ _ _ _ _ _ lm Hfl Hfr Hfh Hct)
    as (vf & -> & Nf).
  cbn [bind mbind result_bind].
  match goal with
  | |- context [undoEnlargement _ _ _ _ (?e, _)] => set (nx := e)
  end.
  assert (Hx : nx ≐ x); [subst nx | clearbody nx].
  { destruct Nf as [-> | [q ->]]; [apply eqv_refl |].
    cbn [gt lt]. destruct (Qltb_reflect 0 q) as [Hq | Hq]; [| apply eqv_refl].
    cbn [coord default from_option id lookup list_lookup].
    change ((Fin flx + Fin frx) / Fin 2)%num with (Fin ((flx + frx) / 2)).
    change (Fin 1 - (Fin 1 - Fin fs) * Fin q * Fin 0)%num
      with (Fin (1 + - ((1 + - fs) * q * 0))).
    destruct (unit_reciprocal (1 + - ((1 + - fs) * q * 0))) as (r & -> & Hr);
      [ring |].
    apply recenter_one, Hr. }
  destruct (eye_notInf_any this x y (leftEyeCenter lm) lm Hout Hin)
    as (vl & -> & Nl & Zl).
  destruct (eye_notInf_any this x y (rightEyeCenter lm) lm Hout Hin)
    as (vr & -> & Nr & Zr).
  cbn [bind mbind result_bind].
  destruct (undo_zero_intensity_any this es vl _ (nx, y) Hi Nl Hlc Zl)
    as (p2 & -> & Hx2 & Hy2).
  cbn [bind mbind result_bind].
  destruct (undo_zero_intensity_any this es vr _ p2 Hi Nr Hrc Zr)
    as (p3 & -> & Hx3 & Hy3).
  cbn [bind mbind result_bind].
  destruct (mouth_notInf this x y (mouthCenter lm) lm)
    as (vm & -> & Nm & Zm).
  cbn [bind mbind result_bind].
  destruct (undo_zero_intensity_any this ms vm _ p3 Hi Nm Hmc Zm)
    as (p4 & -> & Hx4 & Hy4).
  eexists. split; [reflexivity |]. cbn [fst snd] in *.
  split.
  - eapply eqv_trans; [exact Hx4 |]. eapply eqv_trans; [exact Hx3 |].
    eapply eqv_trans; [exact Hx2 | exact Hx].
  - eapply eqv_trans; [exact Hy4 |]. eapply eqv_trans; [exact Hy3 |].
    exact Hy2.
Qed.

End WarpTheorems.

(** Every region degenerate, at the point where all landmarks sit. *)
Lemma degenerate_region_leaves_point_witness :
  MorphFilter.inverseTransformPoint MorphFilter.new (Fin 320) (Fin 240)
    collapsedLandmarks (Fin 640) (Fin 480)
  = Ok (Fin 320, Fin 240).
Proof.
  refine (proj2 (proj2 (proj2
            (degenerate_region_leaves_point MorphFilter.new collapsedLandmarks
               320 240 (Fin 640) (Fin 480) _))) _ _ _);
    [| | | left]; vm_compute; reflexivity.
Defined.

(** C3 as stated fails.  The eye of [pinchedLandmarks] has width 0 and its
    centre is (235, 200); at that point the influence is NaN, not 0: the
    distance 0 is divided by the radius 0.  The point is left as it is all
    the same. *)
Lemma degenerate_eye_influence_is_NaN :
  zeroWidthEye pinchedLandmarks = true /\
  MorphFilter.calculateEyeInfluence MorphFilter.new (Fin 235) (Fin 200)
    (MorphFilter.leftEyeCenter pinchedLandmarks) pinchedLandmarks
  = Ok NaN.
Proof. split; vm_compute; reflexivity. Qed.

(** The frontal face under a filter of intensity 0, at a point inside the
    left eye region. *)
Lemma zero_intensity_is_identity_witness :
  exists p,
    MorphFilter.inverseTransformPoint stilledFilter (Fin 240) (Fin 205)
      (MorphFilter.getMorphingLandmarks Samples.frontalFace)
      (Fin 640) (Fin 480) = Ok p /\
    p.1 ≐ Fin 240 /\ p.2 ≐ Fin 205.
Proof.
  apply (zero_intensity_is_identity stilledFilter
           (MorphFilter.getMorphingLandmarks Samples.frontalFace)
           (Fin 240) (Fin 205));
    vm_compute; reflexivity.
Defined.

(** C8 as stated fails: not for every landmark set.  The landmarks of a
    mesh of 300 points lack the face-edge landmark 397, which the warp
    dereferences first; at intensity 0 the call throws, it does not return
    the point. *)
Lemma zero_intensity_throws_without_landmark :
  MorphFilter.faceRight (MorphFilter.getMorphingLandmarks Samples.shortFace)
  = None /\
  MorphFilter.inverseTransformPoint stilledFilter (Fin 240) (Fin 205)
    (MorphFilter.getMorphingLandmarks Samples.shortFace)
    (Fin 640) (Fin 480)
  = Throw TypeError.
Proof. split; vm_compute; reflexivity. Qed.

(** The identity of C8 is one of exact arithmetic.  On binary64 numbers
    every scale is still exactly 1, but a step that is applied recomputes
    the coordinate as [center + (coordinate - center)], and the difference
    is rounded.  For a face that hangs over the left edge of the canvas
    (face edges at x = -180.3 and x = 55.7, so the centre is at about -62.3)
    the pixel (3, 260), which the face-slim step reaches, comes back with
    x = 3.000000000000007, whatever [Math.cos] and [Math.pow] compute. *)
Lemma zero_intensity_rounds_in_binary64 :
  forall (cos : PrimFloat.float -> PrimFloat.float)
         (pow : PrimFloat.float -> PrimFloat.float -> PrimFloat.float),
    Binary64.inverseTransformPoint cos pow Binary64.stilled
      Binary64.edgePixel.1 Binary64.edgePixel.2 Binary64.leftEdgeFace
    = Ok (Binary64.aboveThree, Binary64.edgePixel.2) /\
    PrimFloat.ltb Binary64.edgePixel.1 Binary64.aboveThree = true.
Proof.
  intros cos pow. split; vm_compute; reflexivity.
Qed.

(** ** The bilinear sampler *)

Section Sampler.
Import ViewportUtils.

Lemma Qfloor_int (q : Q) (z : Z) : q == inject_Z z -> Qfloor q = z.
Proof. intros ->. apply Qfloor_Z. Qed.

Lemma Qfloor_half (q : Q) (z : Z) : q == inject_Z z -> Qfloor (q + (1 # 2)) = z.
Proof.
  intros E.
  pose proof (Qfloor_le (q + (1 # 2))) as L.
  pose proof (Qlt_floor (q + (1 # 2))) as U.
  set (f := Qfloor (q + (1 # 2))) in *.
  assert (L' : inject_Z f < inject_Z (z + 1)).
  { rewrite inject_Z_plus. change (inject_Z 1) with 1. lra. }
  assert (U' : inject_Z z < inject_Z (f + 1)) by lra.
  rewrite <- Zlt_Qlt in L', U'. lia.
Qed.

Lemma round_int (q : Q) (z : Z) : q == inject_Z z -> round (Fin q) = ofZ z.
Proof. intros E. cbn [round]. now rewrite (Qfloor_half q z E). Qed.

Lemma asIndex_int (q : Q) (z : Z) :
  q == inject_Z z -> (0 <= z)%Z -> asIndex (Fin q) = Some (Z.to_nat z).
Proof.
  intros E Hz. cbn [asIndex]. rewrite (Qfloor_int q z E).
  destruct (Qis0_reflect (q - inject_Z z)) as [_ | N]; [| exfalso; apply N; lra].
  now rewrite (proj2 (Z.leb_le 0 z) Hz).
Qed.

Lemma orElse_byte (v d : Z) :
  orElse (Some (ofZ v)) (ofZ d) = ofZ (if (v =? 0)%Z then d else v).
Proof.
  unfold orElse, truthy, ofZ.
  destruct (Qis0_reflect (inject_Z v)) as [E | N]; cbn [negb].
  - assert (v = 0%Z) by (apply (inject_Z_injective v 0); exact E). subst. reflexivity.
  - destruct (Z.eqb_spec v 0) as [-> | _]; [exfalso; apply N; reflexivity | reflexivity].
Qed.

Lemma orElse_finite (o : option Z) (d : Z) :
  exists c, orElse (ofZ <$> o) (ofZ d) = Fin c.
Proof.
  destruct o as [v |]; [| now exists (inject_Z d)].
  cbn [fmap option_fmap option_map]. rewrite orElse_byte. eexists. reflexivity.
Qed.

Lemma readByte_fmap (data : list Z) (index : num) :
  exists o, readByte data index = ofZ <$> o.
Proof.
  unfold readByte. destruct (asIndex index) as [i|]; cbn; [eauto | now exists None].
Qed.

Lemma getPixel_finite (data : list Z) (w px py : num) :
  exists c0 c1 c2 c3, getPixel data w px py = [Fin c0; Fin c1; Fin c2; Fin c3].
Proof.
  unfold getPixel.
  repeat match goal with
  | |- context [readByte data ?i] =>
      let o := fresh "o" in let E := fresh "E" in
      destruct (readByte_fmap data i) as [o E]; rewrite E; clear E
  end.
  change (Fin 0) with (ofZ 0). change (Fin 255) with (ofZ 255).
  destruct (orElse_finite o 0) as [c0 ->].
  destruct (orElse_finite o0 0) as [c1 ->].
  destruct (orElse_finite o1 0) as [c2 ->].
  destruct (orElse_finite o2 255) as [c3 ->].
  eauto.
Qed.

Lemma readByte_at (data : list Z) (q : Q) (z : Z) (v : Z) :
  q == inject_Z z -> (0 <= z)%Z -> data !! Z.to_nat z = Some v ->
  readByte data (Fin q) = Some (ofZ v).
Proof.
  intros E Hz Hv. unfold readByte. rewrite (asIndex_int q z E Hz).
  cbn [mbind option_bind]. now rewrite Hv.
Qed.

Lemma getPixel_at (data : list Z) (w px py r g b a : Z) :
  (0 <= py * w + px)%Z ->
  let i := Z.to_nat (4 * (py * w + px)) in
  data !! i = Some r -> data !! (i + 1)%nat = Some g ->
  data !! (i + 2)%nat = Some b -> data !! (i + 3)%nat = Some a ->
  getPixel data (ofZ w) (ofZ px) (ofZ py) =
  [ofZ r; ofZ g; ofZ b; ofZ (if (a =? 0)%Z then 255 else a)].
Proof.
  intros Hn i Hr Hg Hb Ha. unfold getPixel, ofZ.
  cbn [add mul].
  set (q := (inject_Z py * inject_Z w + inject_Z px) * 4).
  assert (E : q == inject_Z (4 * (py * w + px))).
  { subst q. rewrite !inject_Z_mult, inject_Z_plus, inject_Z_mult.
    change (inject_Z 4) with 4. ring. }
  assert (E1 : q + 1 == inject_Z (4 * (py * w + px) + 1)).
  { rewrite inject_Z_plus, <- E. reflexivity. }
  assert (E2 : q + 2 == inject_Z (4 * (py * w + px) + 2)).
  { rewrite inject_Z_plus, <- E. reflexivity. }
  assert (E3 : q + 3 == inject_Z (4 * (py * w + px) + 3)).
  { rewrite inject_Z_plus, <- E. reflexivity. }
  rewrite (readByte_at data q (4 * (py * w + px)) r E) by (lia || exact Hr).
  rewrite (readByte_at data (q + 1) (4 * (py * w + px) + 1) g E1)
    by (lia || (rewrite Z2Nat.inj_add by lia; exact Hg)).
  rewrite (readByte_at data (q + 2) (4 * (py * w + px) + 2) b E2)
    by (lia || (rewrite Z2Nat.inj_add by lia; exact Hb)).
  rewrite (readByte_at data (q + 3) (4 * (py * w + px) + 3) a E3)
    by (lia || (rewrite Z2Nat.inj_add by lia; exact Ha)).
  change (Fin 0) with (ofZ 0). change (Fin 255) with (ofZ 255).
  rewrite !orElse_byte.
  repeat f_equal;
    match goal with
    | |- context [(?v =? 0)%Z] =>
        destruct (Z.eqb_spec v 0) as [-> | _]; reflexivity
    end.
Qed.

Lemma nearest_spec (extent : Z) (x : Q) (px : Z) :
  nearest extent x px = true ->
  (0 <= px < extent)%Z /\
  ((x <= 0 /\ px = 0%Z) \/
   (inject_Z (extent - 1) <= x /\ px = (extent - 1)%Z) \/
   x == inject_Z px).
Proof.
  unfold nearest.
  rewrite !andb_true_iff, !orb_true_iff, !andb_true_iff, !Qle_bool_iff,
    Qeq_bool_iff, Z.leb_le, Z.ltb_lt, !Z.eqb_eq.
  tauto.
Qed.

Lemma clamp_nearest (extent : Z) (x : Q) (px : Z) :
  nearest extent x px = true ->
  exists c,
    max (Fin 0) (min (ofZ extent - Fin 1) (Fin x)) = Fin c /\ c == inject_Z px.
Proof.
  intros Hn. destruct (nearest_spec extent x px Hn) as [[Hl Hu] H]. unfold ofZ. autorewrite with num_fin.
  eexists. split; [reflexivity |].
  assert (Hw : inject_Z (extent - 1) == inject_Z extent + - 1).
  { unfold Z.sub. rewrite inject_Z_plus. reflexivity. }
  assert (0 <= inject_Z px) by (change 0 with (inject_Z 0); rewrite <- Zle_Qle; lia).
  assert (inject_Z px <= inject_Z (extent - 1)) by (rewrite <- Zle_Qle; lia).
  destruct H as [[Hx ->] | [[Hx ->] | Hx]];
    change (inject_Z 0) with 0 in *; qcases; lra.
Qed.

(** The sampler at a coordinate that names a pixel (an integer coordinate
    inside the buffer, or any coordinate outside it, which is clamped to the
    nearest edge): the red, green and blue bytes of that pixel come back as
    they are, and so does a non-zero alpha; an alpha of 0 comes back as
    255. *)
Theorem bilinearSample_nearest_pixel (data : list Z) (w h px py r g b a : Z)
    (x y : Q) :
  nearest w x px = true -> nearest h y py = true ->
  let i := Z.to_nat (4 * (py * w + px)) in
  data !! i = Some r -> data !! (i + 1)%nat = Some g ->
  data !! (i + 2)%nat = Some b -> data !! (i + 3)%nat = Some a ->
  bilinearSample data (Fin x) (Fin y) (ofZ w) (ofZ h) =
  [ofZ r; ofZ g; ofZ b; ofZ (if (a =? 0)%Z then 255 else a)].
Proof.
  intros Nx Ny i Hr Hg Hb Ha. unfold bilinearSample.
  destruct (clamp_nearest w x px Nx) as (cx & -> & Ex).
  destruct (clamp_nearest h y py Ny) as (cy & -> & Ey).
  cbn [floor]. rewrite (Qfloor_int cx px Ex), (Qfloor_int cy py Ey).
  rewrite (getPixel_at data w px py r g b a)
    by (try assumption;
        destruct (nearest_spec w x px Nx), (nearest_spec h y py Ny); nia).
  destruct (getPixel_finite data (ofZ w) (min (ofZ px + Fin 1) (ofZ w - Fin 1)) (ofZ py))
    as (a0 & a1 & a2 & a3 & ->).
  destruct (getPixel_finite data (ofZ w) (ofZ px) (min (ofZ py + Fin 1) (ofZ h - Fin 1)))
    as (b0 & b1 & b2 & b3 & ->).
  destruct (getPixel_finite data (ofZ w) (min (ofZ px + Fin 1) (ofZ w - Fin 1))
              (min (ofZ py + Fin 1) (ofZ h - Fin 1)))
    as (c0 & c1 & c2 & c3 & ->).
  cbn [fmap list_fmap coord default from_option id lookup list_lookup].
  unfold ofZ. cbn [sub add neg mul].
  assert (Fx : cx + - inject_Z px == 0) by lra.
  assert (Fy : cy + - inject_Z py == 0) by lra.
  repeat f_equal; apply round_int; rewrite Fx, Fy; ring.
Qed.

(** The blue pixel of [fourPixels], named by its own coordinate and by one
    beyond the lower left corner. *)
Lemma bilinearSample_nearest_pixel_witness :
  bilinearSample fourPixels (Fin 0) (Fin 1) (ofZ 2) (ofZ 2)
  = [ofZ 0; ofZ 0; ofZ 255; ofZ 255] /\
  bilinearSample fourPixels (Fin (-7)) (Fin 12) (ofZ 2) (ofZ 2)
  = [ofZ 0; ofZ 0; ofZ 255; ofZ 255].
Proof.
  split.
  - exact (bilinearSample_nearest_pixel fourPixels 2 2 0 1 0 0 255 255 0 1
             eq_refl eq_refl eq_refl eq_refl eq_refl eq_refl).
  - exact (bilinearSample_nearest_pixel fourPixels 2 2 0 1 0 0 255 255 (-7) 12
             eq_refl eq_refl eq_refl eq_refl eq_refl eq_refl).
Defined.

(** C7 at the input where the code departs from it.  The green pixel of
    [fourPixels], at column 1 of row 0, is transparent: its bytes are 0, 255,
    0, 0.  Sampled at its own integer coordinate it comes back with alpha
    255: the fallback [|| 255] that stands in for a missing byte also
    replaces a stored 0. *)
Theorem bilinearSample_transparent_pixel :
  bilinearSample fourPixels (Fin 1) (Fin 0) (ofZ 2) (ofZ 2)
  = [Fin 0; Fin 255; Fin 0; Fin 255] /\
  getPixel fourPixels (ofZ 2) (ofZ 1) (ofZ 0)
  = [Fin 0; Fin 255; Fin 0; Fin 255] /\
  (fun k => fourPixels !! (4 + k)%nat) <$> [0; 1; 2; 3]%nat
  = [Some 0; Some 255; Some 0; Some 0]%Z.
Proof. repeat split; vm_compute; reflexivity. Qed.

End Sampler.

(** ** Further properties of the code *)

Section FurtherProperties.
Import ViewportUtils MorphFilter.
Context {M : MathLib}.

(** The settings [getQualitySettings] returns carry no [performanceLevel],
    so [render] hands every filter the level ['high'] whatever the manager's
    tier is; a morph filter that has drawn holds the HIGH parameters. *)
Theorem render_draws_at_level_high (pm : PerformanceManager.PerformanceManager)
    (t cw ch : num) (w : FilterRenderer.MorphWorld) (face : Face) :
  shouldCullAnimation face cw ch = Ok false ->
  Quality.performanceLevel (PerformanceManager.getQualitySettings pm) = None /\
  let w' :=
    (FilterRenderer.renderFace FilterRenderer.MorphWorld
       FilterRenderer.morphFilter t (PerformanceManager.getQualitySettings pm)
       cw ch w face).2 in
  intensity w'.1 = C.intensity (C.MORPH high) /\
  eyeScaleFactor w'.1 = C.eyeScaleFactor (C.MORPH high) /\
  mouthScaleFactor w'.1 = C.mouthScaleFactor (C.MORPH high) /\
  faceSlimFactor w'.1 = C.faceSlimFactor (C.MORPH high).
Proof.
  intros Hcull. split; [reflexivity |].
  unfold FilterRenderer.renderFace. rewrite Hcull.
  unfold FilterRenderer.morphFilter, draw.
  cbn [Quality.performanceLevel PerformanceManager.getQualitySettings default
       from_option id snd fst].
  destruct (getFaceDimensions (getFacePoints face)) as [dims | e];
    [| repeat split].
  match goal with |- context [if ?c then _ else _] => destruct c end;
    [repeat split |].
  destruct (morphRegion _ _ _ _); repeat split.
Qed.

Lemma forLoop_first {S : Type} (steps : nat) (body : nat -> S -> result S)
    (s : S) (e : exn) :
  body 0%nat s = Throw e ->
  forLoop (Datatypes.S steps) 0 body s = Throw e.
Proof. intros H. cbn [forLoop]. now rewrite H. Qed.

Lemma iterations_positive (bound : num) :
  (bound <=? Fin 0)%num = false ->
  Canvas2D.toLong bound <> 0%Z ->
  exists n, iterations bound = Datatypes.S n.
Proof.
  destruct bound as [| | |q]; cbn [Canvas2D.toLong]; try easy.
  intros Hpos _. cbn [le iterations] in *.
  destruct (Qltb_reflect 0 q) as [Hq | Hq]; [| discriminate].
  assert (0 < Qceiling q)%Z.
  { pose proof (Qle_ceiling q) as Hc.
    assert (H0 : inject_Z 0 < inject_Z (Qceiling q))
      by (change (inject_Z 0) with 0; lra).
    now rewrite <- Zlt_Qlt in H0. }
  exists (Z.to_nat (Qceiling q - 1)). lia.
Qed.

(** Without one of the two face-edge landmarks every call of the inverse
    transform throws, so the [try] block of [draw] ends in its [catch]. *)
Lemma morphRegion_throws (this : MorphFilter) (ctx : Canvas2D.Canvas)
    (lm : Landmarks) (region : Region) :
  faceLeft lm = None \/ faceRight lm = None ->
  (width region <=? Fin 0)%num || (height region <=? Fin 0)%num = false ->
  exists e, morphRegion this ctx lm region = Throw e.
Proof.
  intros Hlm Hreg. apply orb_false_iff in Hreg as [Hw Hh].
  unfold morphRegion.
  destruct (Canvas2D.getImageData ctx (minX region) (minY region)
              (width region) (height region)) as [img | e] eqn:Hget;
    [| eauto].
  cbn [mbind result_bind bind].
  assert (Hnz : Canvas2D.toLong (width region) <> 0%Z /\
                Canvas2D.toLong (height region) <> 0%Z).
  { unfold Canvas2D.getImageData in Hget.
    destruct (Canvas2D.toLong (width region) =? 0)%Z eqn:E1;
      [discriminate Hget |].
    destruct (Canvas2D.toLong (height region) =? 0)%Z eqn:E2;
      [discriminate Hget |].
    split; now apply Z.eqb_neq. }
  destruct Hnz as [Hnw Hnh].
  destruct (Canvas2D.createImageData (width region) (height region))
    as [out | e]; [| eauto].
  cbn [mbind result_bind bind].
  destruct (iterations_positive _ Hh Hnh) as [nh ->].
  destruct (iterations_positive _ Hw Hnw) as [nw ->].
  exists TypeError.
  rewrite (forLoop_first nh _ _ TypeError); [reflexivity |].
  apply forLoop_first.
  unfold inverseTransformPoint.
  destruct Hlm as [-> | Hr]; [reflexivity |].
  rewrite Hr. now destruct (faceLeft lm).
Qed.

(** A face that has the landmarks of the cull test but lacks a face-edge
    landmark (its mesh stops at or before index 397): the morph filter's
    [draw] returns normally and leaves the canvas as it was. *)
Theorem draw_swallows_missing_landmark (this : MorphFilter)
    (ctx : Canvas2D.Canvas) (face : Face) (t : num)
    (qs : Quality.QualitySettings) (level : Tier) (dims : FaceDimensions) :
  Quality.performanceLevel qs = Some level ->
  getFaceDimensions (getFacePoints face) = Ok dims ->
  (length (scaledMesh face) <= 397)%nat ->
  draw this ctx face t qs =
  (Ok tt,
   (resizeMorphCanvas (adjustForPerformance (initCanvas this) level)
      (Canvas2D.canvasWidth ctx, Canvas2D.canvasHeight ctx),
    ctx)).
Proof.
  intros Hl Hd Hlen. unfold draw. rewrite Hl, Hd.
  match goal with |- context [if ?c then _ else _] => destruct c eqn:Hreg end;
    [reflexivity |].
  match goal with
  | |- context [morphRegion ?f ?c ?lm ?r] =>
      destruct (morphRegion_throws f c lm r) as [e ->]; [| exact Hreg | reflexivity]
  end.
  right. unfold getMorphingLandmarks. cbn [faceRight].
  now apply lookup_ge_None.
Qed.

End FurtherProperties.

(** The frontal face on the blank canvas, with the manager on tier LOW. *)
Lemma render_draws_at_level_high_witness :
  MorphFilter.intensity
    (FilterRenderer.renderFace FilterRenderer.MorphWorld
       FilterRenderer.morphFilter (Fin 0)
       (PerformanceManager.getQualitySettings
          (PerformanceManager.withSample PerformanceManager.new (Fin 0) 1 low))
       (Fin 640) (Fin 480) blankMorphWorld Samples.frontalFace).2.1
  = Fin 1.
Proof.
  refine (proj1 (proj2 (render_draws_at_level_high _ (Fin 0) (Fin 640) (Fin 480)
                          blankMorphWorld Samples.frontalFace _))).
  vm_compute. reflexivity.
Defined.

(** [shortFace] (300 landmarks) on the blank 640 by 480 canvas. *)
Lemma draw_swallows_missing_landmark_witness :
  (MorphFilter.draw MorphFilter.new blankMorphWorld.2 Samples.shortFace (Fin 0)
     {| Quality.settings := C.PERFORMANCE high;
        Quality.performanceLevel := Some high |}).2.2
  = blankMorphWorld.2.
Proof.
  erewrite (draw_swallows_missing_landmark MorphFilter.new blankMorphWorld.2
              Samples.shortFace (Fin 0) _ high);
    [reflexivity | reflexivity | vm_compute; reflexivity | vm_compute; lia].
Defined.

(** Tensor pressure only lowers the quality, and it is not remembered.
    Take [manageTensorMemory] at a tensor count followed by
    [getQualitySettings].  With more tensors the frame skip is not lower and
    the particle count and the shadow blur are not higher; a cleanup
    triggered at one count is triggered at every larger count; and with at
    most 25 tensors the settings are the tier's table entry again, whatever
    the pressure level was before the call. *)
Theorem more_tensors_never_raise_quality
    (this : PerformanceManager.PerformanceManager) (n n' : Z) :
  (n <= n')%Z ->
  let after k := PerformanceManager.manageTensorMemory this k in
  let s k :=
    Quality.settings (PerformanceManager.getQualitySettings (after k).1) in
  (C.skipFrames (s n) <= C.skipFrames (s n'))%Z /\
  (C.particleCount (s n') <= C.particleCount (s n))%Z /\
  (C.shadowBlur (s n') <= C.shadowBlur (s n))%Z /\
  ((after n).2 = true -> (after n').2 = true) /\
  ((n <= 25)%Z ->
   s n = C.PERFORMANCE (PerformanceManager.performanceLevel this)).
Proof.
  intros Hn after s. subst after s.
  unfold PerformanceManager.manageTensorMemory,
    PerformanceManager.getQualitySettings, C.PRESSURE_THRESHOLD_HIGH,
    C.PRESSURE_THRESHOLD_LOW.
  cbn [fst snd PerformanceManager.memoryPressureLevel
       PerformanceManager.performanceLevel Quality.settings].
  destruct (Z.gtb_spec n 50), (Z.gtb_spec n 25), (Z.gtb_spec n' 50),
    (Z.gtb_spec n' 25); try lia;
    destruct (PerformanceManager.performanceLevel this);
    cbn; repeat split; intros; try lia; try congruence.
Qed.

(** Ten tensors against sixty, on a new manager. *)
Lemma more_tensors_never_raise_quality_witness :
  let after k :=
    PerformanceManager.manageTensorMemory PerformanceManager.new k in
  let s k :=
    Quality.settings (PerformanceManager.getQualitySettings (after k).1) in
  (C.skipFrames (s 10) <= C.skipFrames (s 60))%Z /\
  (C.particleCount (s 60) <= C.particleCount (s 10))%Z /\
  (C.shadowBlur (s 60) <= C.shadowBlur (s 10))%Z /\
  ((after 10%Z).2 = true -> (after 60%Z).2 = true) /\
  ((10 <= 25)%Z ->
   s 10%Z = C.PERFORMANCE
              (PerformanceManager.performanceLevel PerformanceManager.new)).
Proof.
  apply (more_tensors_never_raise_quality PerformanceManager.new 10 60). lia.
Defined.

(** The landmark set [getMorphingLandmarks] extracts from a full mesh of
    finite points is complete: the hypotheses of the two warp theorems hold
    for every face the detector delivers in full. *)
Theorem getMorphingLandmarks_complete (face : Face) :
  fullMesh face = true ->
  completeLandmarks (MorphFilter.getMorphingLandmarks face) = true.
Proof.
  unfold fullMesh. rewrite andb_true_iff, Nat.leb_le, forallb_forall.
  intros [Hlen Hfin].
  assert (Hopt : forall i, finiteOpt (scaledMesh face !! i) = true).
  { intros i. destruct (scaledMesh face !! i) as [p |] eqn:E; [| reflexivity].
    apply Hfin. apply list_elem_of_In. now apply list_elem_of_lookup_2 in E. }
  assert (Hreq : forall i, (i < 398)%nat ->
                           finiteReq (scaledMesh face !! i) = true).
  { intros i Hi. specialize (Hopt i).
    destruct (lookup_lt_is_Some_2 (scaledMesh face) i) as [p E]; [lia |].
    now rewrite E in *. }
  unfold completeLandmarks, MorphFilter.getMorphingLandmarks.
  cbn [MorphFilter.faceLeft MorphFilter.faceRight MorphFilter.foreheadCenter
       MorphFilter.chinTip MorphFilter.leftEyeInner MorphFilter.leftEyeOuter
       MorphFilter.leftEyeCenter MorphFilter.rightEyeCenter
       MorphFilter.mouthLeftCorner MorphFilter.mouthRightCorner
       MorphFilter.mouthTopCenter MorphFilter.mouthBottomCenter
       MorphFilter.mouthCenter].
  rewrite !andb_true_iff. repeat split;
    try (apply Hreq; unfold MorphFilter.L.FACE_LEFT, MorphFilter.L.FACE_RIGHT,
           MorphFilter.L.FOREHEAD_CENTER, MorphFilter.L.CHIN_TIP,
           MorphFilter.L.LEFT_EYE_INNER, MorphFilter.L.LEFT_EYE_OUTER; lia);
    try apply Hopt.
  - unfold MorphFilter.orPoint.
    destruct (scaledMesh face !! MorphFilter.L.LEFT_EYE_CENTER) eqn:E;
      [rewrite <- E |]; apply Hopt.
  - unfold MorphFilter.orPoint.
    destruct (scaledMesh face !! MorphFilter.L.RIGHT_EYE_CENTER) eqn:E;
      [rewrite <- E |]; apply Hopt.
  - pose proof (Hopt MorphFilter.L.MOUTH_LEFT_CORNER) as Hl.
    pose proof (Hopt MorphFilter.L.MOUTH_RIGHT_CORNER) as Hr.
    destruct (scaledMesh face !! MorphFilter.L.MOUTH_LEFT_CORNER) as [l |];
      [| reflexivity].
    destruct (scaledMesh face !! MorphFilter.L.MOUTH_RIGHT_CORNER) as [r |];
      [| reflexivity].
    destruct (finitePoint_inv l Hl) as (lx & ly & lrest & ->).
    destruct (finitePoint_inv r Hr) as (rx & ry & rrest & ->).
    cbn [finiteOpt finitePoint coord default from_option id lookup list_lookup
         add div].
    now destruct (Qis0_reflect 2) as [E | _]; [exfalso; lra |].
Qed.

(** The frontal face has a full mesh. *)
Lemma getMorphingLandmarks_complete_witness :
  completeLandmarks (MorphFilter.getMorphingLandmarks Samples.frontalFace) = true.
Proof.
  apply getMorphingLandmarks_complete. vm_compute. reflexivity.
Defined.

(** On a skipped tick the render loop interpolates the cache against itself:
    the faces it renders are the cached faces, landmark for landmark (each
    [a + (a - a) * 0.3] is [a]), and there are none without a cache. *)
Theorem skipped_tick_renders_the_cache
    (this : PerformanceManager.PerformanceManager) :
  match PerformanceManager.cachedFaces this with
  | None => (PerformanceManager.skippedTickFaces this).1 = []
  | Some cached =>
      Forall (fun face => forallb point3 (scaledMesh face) = true) cached ->
      Forall2 sameFace (PerformanceManager.skippedTickFaces this).1 cached
  end.
Proof.
  unfold PerformanceManager.skippedTickFaces.
  destruct (PerformanceManager.cachedFaces this) as [cached |] eqn:Hc;
    [| unfold PerformanceManager.interpolateFaces; now rewrite Hc].
  intros Hfin. cbn [default from_option id].
  rewrite (interpolateFaces_imap this cached cached (Fin 0.3) Hc).
  apply Forall2_same_length_lookup_2; [apply length_imap |].
  intros i r a Hr Ha. rewrite list_lookup_imap, Ha in Hr.
  cbn [fmap option_fmap option_map] in Hr. rewrite ?Ha in Hr.
  injection Hr as <-. split; [reflexivity |]. cbn [scaledMesh].
  apply Forall2_same_length_lookup_2; [apply length_imap |].
  intros j q p Hq Hp. cbn [scaledMesh] in Hq.
  unfold Point in Hq, Hp. rewrite list_lookup_imap in Hq.
  rewrite Hp in Hq. cbn [fmap option_fmap option_map] in Hq.
  injection Hq as <-.
  pose proof (Forall_lookup_1 _ _ _ _ Hfin Ha) as Hmesh.
  rewrite forallb_forall in Hmesh.
  assert (H3 : point3 p = true).
  { apply Hmesh. apply list_elem_of_In. now apply list_elem_of_lookup_2 in Hp. }
  destruct p as [| [| | |x] [| [| | |y] [| [| | |z] [|]]]]; try discriminate H3.
  unfold PerformanceManager.blendPoint.
  cbn [coord default from_option id lookup list_lookup add sub neg mul].
  repeat constructor; cbn [eqv]; ring.
Qed.

(** The detected snapshot as the cache. *)
Lemma skipped_tick_renders_the_cache_witness :
  Forall2 sameFace
    (PerformanceManager.skippedTickFaces
       (PerformanceManager.withCachedFaces PerformanceManager.new
          detectedSnapshot)).1
    detectedSnapshot.
Proof.
  apply (skipped_tick_renders_the_cache
           (PerformanceManager.withCachedFaces PerformanceManager.new
              detectedSnapshot)).
  repeat constructor.
Defined.

(** ** The face tracker ([calculateFaceMovement]) *)

Section Movement.
Context {M : MathLib}.
Import PerformanceManager.

Lemma noseMovement_Fin (newFace oldFace : Face) :
  noseFinite newFace = true -> noseFinite oldFace = true ->
  exists r, noseMovement newFace oldFace = Ok (Fin r) /\ 0 <= r.
Proof.
  unfold noseFinite, noseMovement. intros Hn Ho.
  destruct (scaledMesh newFace !! 1%nat) as [n |]; [| discriminate].
  destruct (scaledMesh oldFace !! 1%nat) as [o |]; [| discriminate].
  apply finitePoint_inv in Hn as (nx & ny & nr & ->).
  apply finitePoint_inv in Ho as (ox & oy & or & ->).
  cbn [deref mbind result_bind bind].
  rewrite coord_0, coord_1, coord_0, coord_1.
  destruct (distance_Fin nx ny ox oy) as (r & -> & Hr). eauto.
Qed.

Lemma noseMovement_same (face : Face) :
  noseFinite face = true ->
  exists r, noseMovement face face = Ok (Fin r) /\ r == 0.
Proof.
  unfold noseFinite, noseMovement. intros Hn.
  destruct (scaledMesh face !! 1%nat) as [n |]; [| discriminate].
  apply finitePoint_inv in Hn as (nx & ny & nr & ->).
  cbn [deref mbind result_bind bind]. rewrite coord_0, coord_1.
  rewrite !pow_square. num_simpl.
  destruct (sqrt_Fin _ (sumsq_nonneg (nx + - nx) (ny + - ny)))
    as (r & -> & _ & Hiff).
  exists r. split; [reflexivity |]. apply Hiff. ring.
Qed.

Lemma movementLoop_Fin (pairs : list (Face * Face)) (total : Q) (count : Z) :
  Forall (fun p => noseFinite p.1 = true /\ noseFinite p.2 = true) pairs ->
  0 <= total ->
  exists total',
    movementLoop pairs (Fin total, count) =
      Ok (Fin total', (count + Z.of_nat (length pairs))%Z) /\
    0 <= total'.
Proof.
  intros Hall. revert total count.
  induction Hall as [| [n o] pairs [Hn Ho] _ IH]; intros total count Ht.
  - exists total. cbn [movementLoop length]. split; [| assumption].
    do 2 f_equal. lia.
  - cbn [movementLoop fst snd] in *.
    destruct (noseMovement_Fin n o Hn Ho) as (r & -> & Hr).
    cbn [mbind result_bind bind add].
    destruct (IH (total + r) (count + 1)%Z) as (t' & -> & Ht'); [lra |].
    exists t'. split; [| assumption]. do 2 f_equal. cbn [length]. lia.
Qed.

Lemma movementLoop_still (faces : list Face) (total : Q) (count : Z) :
  Forall (fun f => noseFinite f = true) faces ->
  exists total',
    movementLoop (zip faces faces) (Fin total, count) =
      Ok (Fin total', (count + Z.of_nat (length faces))%Z) /\
    total' == total.
Proof.
  intros Hall. revert total count.
  induction Hall as [| f faces Hf _ IH]; intros total count.
  - exists total. cbn [movementLoop zip zip_with length].
    split; [| reflexivity]. do 2 f_equal. lia.
  - cbn [zip zip_with movementLoop fst snd].
    destruct (noseMovement_same f Hf) as (r & -> & Hr).
    cbn [mbind result_bind bind add].
    destruct (IH (total + r) (count + 1)%Z) as (t' & -> & Ht').
    exists t'. split; [| lra]. do 2 f_equal. cbn [length]. lia.
Qed.

Lemma average_Fin (total : Q) (count : Z) :
  (0 < count)%Z ->
  (if (count >? 0)%Z then (Fin total / ofZ count)%num else PInf) =
  Fin (total / inject_Z count).
Proof.
  intros Hc. destruct (Z.gtb_spec count 0) as [_ | Hle]; [| lia].
  unfold ofZ. cbn [div].
  destruct (Qis0_reflect (inject_Z count)) as [E | _]; [| reflexivity].
  exfalso. rewrite Zlt_Qlt in Hc. change (inject_Z 0) with 0 in Hc. lra.
Qed.

(** Between two snapshots whose faces all have a finite nose tip,
    [calculateFaceMovement] does not throw and records the new snapshot as
    [lastFaces]; the movement it returns is [Infinity] when one of the two
    snapshots is empty and a finite, non-negative number otherwise. *)
Theorem movement_is_a_distance (this : PerformanceManager)
    (newFaces : list Face) :
  Forall (fun f => noseFinite f = true) newFaces ->
  Forall (fun f => noseFinite f = true) (lastFaces this) ->
  let r := calculateFaceMovement this newFaces in
  lastFaces r.2 = newFaces /\
  if (length (lastFaces this) =? 0)%nat || (length newFaces =? 0)%nat
  then r.1 = Ok PInf
  else exists m, r.1 = Ok (Fin m) /\ 0 <= m.
Proof.
  intros Hnew Hold r. unfold r, calculateFaceMovement.
  destruct (_ || _) eqn:Hempty; [now split |].
  apply orb_false_iff in Hempty as [Hl Hn].
  apply Nat.eqb_neq in Hl, Hn.
  destruct (movementLoop_Fin (zip newFaces (lastFaces this)) 0 0)
    as (total & -> & Ht); [| lra |].
  { apply Forall_forall. intros [n o] Hin.
    apply elem_of_zip_l in Hin as Hin1. apply elem_of_zip_r in Hin as Hin2.
    cbn [fst snd] in *. split.
    - now apply (proj1 (Forall_forall _ _) Hnew).
    - now apply (proj1 (Forall_forall _ _) Hold). }
  split; [reflexivity |]. cbn [fst].
  rewrite length_zip, average_Fin by lia.
  eexists. split; [reflexivity |].
  apply Qle_shift_div_l; [| lra].
  assert (H0 : (0 < 0 + Z.of_nat
                      (length newFaces `min` length (lastFaces this)))%Z)
    by lia.
  rewrite Zlt_Qlt in H0. exact H0.
Qed.

(** A non-empty snapshot compared with itself has not moved: when the
    snapshot on record is the one handed in, and every face has a finite
    nose tip, the movement returned is 0. *)
Theorem still_faces_have_not_moved (this : PerformanceManager)
    (faces : list Face) :
  faces <> [] ->
  Forall (fun f => noseFinite f = true) faces ->
  exists m,
    (calculateFaceMovement (withLastFaces this faces) faces).1 = Ok (Fin m) /\
    m == 0.
Proof.
  intros Hne Hall. unfold calculateFaceMovement. cbn [lastFaces withLastFaces].
  destruct faces as [| f faces]; [contradiction |].
  cbn [length Nat.eqb orb].
  destruct (movementLoop_still (f :: faces) 0 0 Hall) as (total & -> & Ht).
  cbn [fst]. rewrite average_Fin by (cbn [length]; lia).
  eexists. split; [reflexivity |].
  rewrite Ht. unfold Qdiv. ring.
Qed.

End Movement.

(** A frontal face on record, the same face shifted far right detected. *)
Lemma movement_is_a_distance_witness :
  exists m,
    (PerformanceManager.calculateFaceMovement
       (PerformanceManager.withLastFaces PerformanceManager.new
          [Samples.frontalFace])
       [Samples.offscreenFace]).1 = Ok (Fin m) /\ 0 <= m.
Proof.
  refine (proj2 (movement_is_a_distance
                   (PerformanceManager.withLastFaces PerformanceManager.new
                      [Samples.frontalFace])
                   [Samples.offscreenFace] _ _)).
  - repeat constructor.
  - repeat constructor.
Defined.

(** The frontal face, twice. *)
Lemma still_faces_have_not_moved_witness :
  exists m,
    (PerformanceManager.calculateFaceMovement
       (PerformanceManager.withLastFaces PerformanceManager.new
          [Samples.frontalFace])
       [Samples.frontalFace]).1 = Ok (Fin m) /\ m == 0.
Proof.
  apply (still_faces_have_not_moved PerformanceManager.new
           [Samples.frontalFace]).
  - discriminate.
  - repeat constructor.
Defined.

(** ** The render loop ([FaceFilterApp.animate]) *)

Section RenderLoopTicks.
Context {M : MathLib}.
Variable World : Type.
Variable canvasSize : World -> Z * Z.
Variable clearRect : World -> World.
Import FaceFilterApp.

Lemma getStats_cleanupInterval (pm : PerformanceManager.PerformanceManager) :
  PerformanceManager.getStats pm !! "cleanupInterval" = None.
Proof.
  unfold PerformanceManager.getStats.
  rewrite !lookup_insert_ne by discriminate.
  now rewrite lookup_singleton_ne by discriminate.
Qed.

(** The object [getStats] returns has no [cleanupInterval], so the
    remainder is NaN and the test for the periodic cleanup fails. *)
Lemma cleanupDue_never (pm : PerformanceManager.PerformanceManager) :
  cleanupDue pm = false.
Proof.
  unfold cleanupDue. rewrite getStats_cleanupInterval.
  cbn [PerformanceManager.statNumber].
  now destruct (PerformanceManager.statNumber _).
Qed.

Lemma updateFPS_pressure (pm : PerformanceManager.PerformanceManager)
    (deltaTime : num) :
  PerformanceManager.memoryPressureLevel
    (PerformanceManager.updateFPS pm deltaTime) =
  PerformanceManager.memoryPressureLevel pm.
Proof.
  unfold PerformanceManager.updateFPS.
  repeat match goal with |- context [if ?c then _ else _] => destruct c end;
    reflexivity.
Qed.

Lemma updateFPS_faces (pm : PerformanceManager.PerformanceManager)
    (deltaTime : num) :
  PerformanceManager.lastFaces (PerformanceManager.updateFPS pm deltaTime) =
    PerformanceManager.lastFaces pm /\
  PerformanceManager.cachedFaces (PerformanceManager.updateFPS pm deltaTime) =
    PerformanceManager.cachedFaces pm.
Proof.
  unfold PerformanceManager.updateFPS.
  repeat match goal with |- context [if ?c then _ else _] => destruct c end;
    now split.
Qed.

Lemma calculateFaceMovement_pressure
    (pm : PerformanceManager.PerformanceManager) (faces : list Face) :
  PerformanceManager.memoryPressureLevel
    (PerformanceManager.calculateFaceMovement pm faces).2 =
  PerformanceManager.memoryPressureLevel pm.
Proof.
  unfold PerformanceManager.calculateFaceMovement.
  destruct (_ || _); [reflexivity |].
  destruct (PerformanceManager.movementLoop _ _) as [[total count] | e];
    reflexivity.
Qed.

Lemma interpolateFaces_pressure (pm : PerformanceManager.PerformanceManager)
    (faces : list Face) (progress : num) :
  PerformanceManager.memoryPressureLevel
    (PerformanceManager.interpolateFaces pm faces progress).2 =
  PerformanceManager.memoryPressureLevel pm.
Proof.
  unfold PerformanceManager.interpolateFaces.
  destruct (PerformanceManager.cachedFaces pm); [| reflexivity].
  now destruct (_ =? _)%nat.
Qed.

Lemma tickFaces_pressure (pm : PerformanceManager.PerformanceManager)
    (shouldSkip : bool) (tick : Tick) :
  PerformanceManager.memoryPressureLevel (tickFaces pm shouldSkip tick).2 =
  PerformanceManager.memoryPressureLevel pm.
Proof.
  unfold tickFaces. destruct shouldSkip; cbn [negb].
  - apply interpolateFaces_pressure.
  - pose proof (calculateFaceMovement_pressure pm (detected tick)) as H.
    destruct (PerformanceManager.calculateFaceMovement pm (detected tick))
      as [[movement | e] pm']; exact H.
Qed.

Lemma animate_pressure (this : FaceFilterApp World) (w : World) (tick : Tick) :
  PerformanceManager.memoryPressureLevel
    (performanceManager World
       (animate World canvasSize clearRect this w tick).1) =
  PerformanceManager.memoryPressureLevel (performanceManager World this).
Proof.
  unfold animate. destruct (isRunning World this); cbn [negb]; [| reflexivity].
  unfold tryBlock.
  match goal with
  | |- context [tickFaces ?pm ?s ?t] =>
      pose proof (tickFaces_pressure pm s t) as H;
      destruct (tickFaces pm s t) as [[faces | e] pm']
  end; cbn [snd fst] in *; rewrite updateFPS_pressure in H.
  - destruct (if (0 <? length faces)%nat then _ else _) as [[u | e] w'];
      cbn [snd fst withManager performanceManager]; [| exact H].
    now rewrite cleanupDue_never.
  - exact H.
Qed.

Lemma ticks_pressure (inputs : list Tick) (this : FaceFilterApp World)
    (w : World) :
  PerformanceManager.memoryPressureLevel
    (performanceManager World
       (ticks World canvasSize clearRect this w inputs).1) =
  PerformanceManager.memoryPressureLevel (performanceManager World this).
Proof.
  unfold ticks. revert this w.
  induction inputs as [| tick inputs IH]; intros this w; [reflexivity |].
  cbn [foldl fst snd].
  destruct (animate World canvasSize clearRect this w tick) as [this' w'] eqn:E.
  rewrite IH. cbn [fst].
  pose proof (animate_pressure this w tick) as H. now rewrite E in H.
Qed.

(** The render loop never runs the tensor memory management: the stats
    object it tests has no [cleanupInterval], so [manageTensorMemory] is not
    called on any tick.  Starting from a manager with pressure level 0, as
    the constructor leaves it, the level is 0 after every run of ticks,
    whatever the tensor counts are, and the quality settings handed to the
    filters are the unadjusted table entry of the current tier. *)
Theorem render_loop_never_manages_memory (this : FaceFilterApp World)
    (w : World) (inputs : list Tick) :
  PerformanceManager.memoryPressureLevel (performanceManager World this) = 0%Z ->
  let pm :=
    performanceManager World
      (ticks World canvasSize clearRect this w inputs).1 in
  PerformanceManager.memoryPressureLevel pm = 0%Z /\
  Quality.settings (PerformanceManager.getQualitySettings pm) =
  Constants.PERFORMANCE (PerformanceManager.performanceLevel pm).
Proof.
  intros H0 pm.
  assert (Hp : PerformanceManager.memoryPressureLevel pm = 0%Z)
    by (unfold pm; now rewrite ticks_pressure).
  split; [exact Hp |].
  unfold PerformanceManager.getQualitySettings. now rewrite Hp.
Qed.

Lemma animate_running (this : FaceFilterApp World) (w : World) (tick : Tick) :
  isRunning World this = true ->
  animate World canvasSize clearRect this w tick =
  (tryBlock World canvasSize clearRect this w tick).2.
Proof. intros H. unfold animate. now rewrite H. Qed.

(** What every tick of a running loop does before anything can throw. *)
Lemma tryBlock_clock (this : FaceFilterApp World) (w : World) (tick : Tick) :
  let this' := (tryBlock World canvasSize clearRect this w tick).2.1 in
  lastFrameTime World this' = currentTime tick /\
  isRunning World this' = isRunning World this /\
  skipFrameCounter World this' = (skipFrameCounter World this + 1)%Z /\
  filterRenderer World this' =
    FilterRenderer.updateAnimationTime World (filterRenderer World this)
      (currentTime tick - lastFrameTime World this)%num.
Proof.
  unfold tryBlock.
  destruct (tickFaces _ _ _) as [[faces | e] pm']; [| repeat split].
  destruct (if (0 <? length faces)%nat then _ else _) as [[u | e] w'];
    repeat split.
Qed.

(** The animation clock follows the wall clock: over any run of ticks of a
    running loop with finite clock readings, whatever is detected and
    whether or not a tick ends in the [catch], the animation time advances
    by the elapsed time in seconds, from the frame time on record to the
    last clock reading. *)
Theorem animation_clock_follows_wall_clock (inputs : list Tick)
    (this : FaceFilterApp World) (w : World) (t0 a0 : Q) :
  isRunning World this = true ->
  lastFrameTime World this = Fin t0 ->
  FilterRenderer.animationTime World (filterRenderer World this) = Fin a0 ->
  Forall (fun tick => isFinite (currentTime tick) = true) inputs ->
  let this' := (ticks World canvasSize clearRect this w inputs).1 in
  exists t a,
    lastFrameTime World this' = Fin t /\
    FilterRenderer.animationTime World (filterRenderer World this') = Fin a /\
    a - a0 == (t - t0) / 1000 /\
    lastFrameTime World this' = default (Fin t0) (currentTime <$> last inputs).
Proof.
  intros Hrun Ht Ha Hfin. revert this w t0 a0 Hrun Ht Ha.
  induction Hfin as [| tick inputs Htick _ IH]; intros this w t0 a0 Hrun Ht Ha.
  - exists t0, a0. cbn. repeat split; try assumption. field.
  - unfold ticks. cbn [foldl fst snd].
    rewrite (animate_running this w tick Hrun).
    destruct (tryBlock_clock this w tick) as (Hl & Hr & _ & Hf).
    destruct (tryBlock World canvasSize clearRect this w tick)
      as [r [this1 w1]].
    cbn [fst snd] in *.
    destruct (currentTime tick) as [| | |t1] eqn:Hc; try discriminate.
    destruct (IH this1 w1 t1 (a0 + (t1 + - t0) / 1000))
      as (t & a & H1 & H2 & H3 & H4).
    + congruence.
    + exact Hl.
    + rewrite Hf, Ht.
      cbn [FilterRenderer.updateAnimationTime FilterRenderer.animationTime].
      rewrite Ha. cbn [sub neg add div].
      destruct (Qis0_reflect 1000) as [E | _]; [discriminate E | reflexivity].
    + exists t, a. unfold ticks in *. split; [exact H1 |]. split; [exact H2 |].
      split.
      { revert H3. unfold Qdiv. change (/ 1000) with (1 # 1000).
        intros H3. lra. }
      rewrite H4. destruct inputs as [| tick' inputs]; [cbn; congruence |].
      rewrite last_cons_cons.
      destruct (last (tick' :: inputs)) eqn:E; [reflexivity |].
      apply last_None in E. discriminate E.
Qed.

(** A detection tick whose first detected face has no nose tip, while a
    previous snapshot is on record: [calculateFaceMovement] throws, the
    [catch] of [animate] swallows it, and the tick ends before the canvas is
    cleared.  The canvas keeps the previous frame's drawing, the snapshot on
    record and the cache are not replaced, and the tick still counts. *)
Theorem malformed_detection_freezes_the_overlay (this : FaceFilterApp World)
    (w : World) (tick : Tick) (face : Face) (rest : list Face) :
  let pm :=
    PerformanceManager.updateFPS (performanceManager World this)
      (currentTime tick - lastFrameTime World this)%num in
  isRunning World this = true ->
  PerformanceManager.shouldSkipFrame pm (skipFrameCounter World this) = false ->
  PerformanceManager.lastFaces (performanceManager World this) <> [] ->
  detected tick = face :: rest ->
  scaledMesh face !! 1%nat = None ->
  let after := animate World canvasSize clearRect this w tick in
  after.2 = w /\
  performanceManager World after.1 = pm /\
  PerformanceManager.lastFaces pm =
    PerformanceManager.lastFaces (performanceManager World this) /\
  PerformanceManager.cachedFaces pm =
    PerformanceManager.cachedFaces (performanceManager World this) /\
  skipFrameCounter World after.1 = (skipFrameCounter World this + 1)%Z.
Proof.
  intros pm Hrun Hskip Hlast Hdet Hnose after.
  destruct (updateFPS_faces (performanceManager World this)
              (currentTime tick - lastFrameTime World this)%num) as [Hl Hc].
  fold pm in Hl, Hc.
  assert (Hthrow :
    PerformanceManager.calculateFaceMovement pm (face :: rest) =
    (Throw TypeError, pm)).
  { unfold PerformanceManager.calculateFaceMovement. rewrite Hl.
    destruct (PerformanceManager.lastFaces (performanceManager World this))
      as [| old olds]; [contradiction |].
    cbn [length Nat.eqb orb zip zip_with PerformanceManager.movementLoop].
    unfold PerformanceManager.noseMovement. now rewrite Hnose. }
  unfold after, animate. rewrite Hrun. cbn [negb].
  unfold tryBlock. fold pm. rewrite Hskip.
  unfold tickFaces. cbn [negb]. rewrite Hdet, Hthrow.
  cbn [fst snd withManager performanceManager skipFrameCounter].
  repeat split; assumption.
Qed.

End RenderLoopTicks.

(** Three ticks of a freshly started application, with 80 tensors alive. *)
Lemma render_loop_never_manages_memory_witness :
  PerformanceManager.memoryPressureLevel
    (FaceFilterApp.performanceManager Recording
       (FaceFilterApp.ticks Recording recordingCanvas clearRecording
          startedApp [] threeTicks).1) = 0%Z.
Proof.
  refine (proj1 (render_loop_never_manages_memory Recording recordingCanvas
                   clearRecording startedApp [] threeTicks _)).
  reflexivity.
Defined.

(** The same three ticks: 48 ms of wall clock. *)
Lemma animation_clock_follows_wall_clock_witness :
  exists t a,
    FaceFilterApp.lastFrameTime Recording
      (FaceFilterApp.ticks Recording recordingCanvas clearRecording
         startedApp [] threeTicks).1 = Fin t /\
    FilterRenderer.animationTime Recording
      (FaceFilterApp.filterRenderer Recording
         (FaceFilterApp.ticks Recording recordingCanvas clearRecording
            startedApp [] threeTicks).1) = Fin a /\
    a - 0 == (t - 0) / 1000 /\
    FaceFilterApp.lastFrameTime Recording
      (FaceFilterApp.ticks Recording recordingCanvas clearRecording
         startedApp [] threeTicks).1 = Fin 48.
Proof.
  apply (animation_clock_follows_wall_clock Recording recordingCanvas
           clearRecording threeTicks startedApp [] 0 0).
  - reflexivity.
  - reflexivity.
  - reflexivity.
  - repeat constructor.
Defined.

(** A face without landmarks is detected while a frontal face is on record
    and drawn. *)
Lemma malformed_detection_freezes_the_overlay_witness :
  (FaceFilterApp.animate Recording recordingCanvas clearRecording trackingApp
     [Samples.frontalFace]
     {| FaceFilterApp.currentTime := Fin 16;
        FaceFilterApp.detected := [Samples.emptyFace];
        FaceFilterApp.numTensors := 0 |}).2 = [Samples.frontalFace].
Proof.
  refine (proj1 (malformed_detection_freezes_the_overlay Recording
                   recordingCanvas clearRecording trackingApp
                   [Samples.frontalFace]
                   {| FaceFilterApp.currentTime := Fin 16;
                      FaceFilterApp.detected := [Samples.emptyFace];
                      FaceFilterApp.numTensors := 0 |}
                   Samples.emptyFace [] _ _ _ _ _)).
  - reflexivity.
  - reflexivity.
  - discriminate.
  - reflexivity.
  - reflexivity.
Defined.

(** ** Platform detection ([BrowserDetector], [detectPerformance]) *)

Section Platform.
Import BrowserDetector PerformanceManager.

Lemma append_nil (s : string) : "" +:+ s = s.
Proof. reflexivity. Qed.

Lemma append_cons (c : Ascii.ascii) (a b : string) :
  String c a +:+ b = String c (a +:+ b).
Proof. reflexivity. Qed.

Lemma lowerCase_app (a b : string) :
  lowerCase (a +:+ b) = lowerCase a +:+ lowerCase b.
Proof. induction a as [| c a IH]; simpl; [reflexivity |]. now rewrite IH. Qed.

Lemma startsWith_lowerCase (pattern s : string) :
  startsWith pattern s = true ->
  startsWith (lowerCase pattern) (lowerCase s) = true.
Proof.
  revert s. induction pattern as [| a pattern IH]; intros [| b s];
    cbn [startsWith lowerCase]; try easy.
  intros H. apply andb_true_iff in H as [Hab Hs].
  apply Ascii.eqb_eq in Hab as ->. rewrite Ascii.eqb_refl. now apply IH.
Qed.

Lemma contains_lowerCase (pattern s : string) :
  contains pattern s = true ->
  contains (lowerCase pattern) (lowerCase s) = true.
Proof.
  induction s as [| c s IH]; cbn [contains lowerCase]; intros H;
    apply orb_true_iff in H as [H | H]; apply orb_true_iff.
  - left. now apply (startsWith_lowerCase pattern "").
  - discriminate.
  - left. now apply (startsWith_lowerCase pattern (String c s)).
  - right. now apply IH.
Qed.

Lemma isIOS_isSafari (this : BrowserDetector) :
  isIOS this = true -> isSafari this = true.
Proof.
  intros Hios. unfold isSafari. apply orb_true_iff. right.
  unfold isIOS, containsAny in *. cbn [existsb] in *.
  repeat (apply orb_true_iff in Hios as [Hios | Hios]);
    try discriminate; rewrite Hios; now rewrite ?orb_true_r.
Qed.

(** Every user agent that names an iPhone, iPad or iPod counts as Safari
    and as mobile, whatever browser it belongs to: it is given the iOS
    camera constraints and the Safari camera timeout. *)
Theorem ios_is_safari_and_mobile (this : BrowserDetector) :
  isIOS this = true ->
  isSafari this = true /\ isMobile this = true /\
  getCameraConstraints this = IOS_CONSTRAINTS /\
  getCameraTimeout this = SAFARI_TIMEOUT_MS.
Proof.
  intros Hios. pose proof (isIOS_isSafari this Hios) as Hsafari.
  assert (Hmobile : isMobile this = true).
  { unfold isMobile, containsAnyI, containsAny.
    unfold isIOS, containsAny in Hios. cbn [existsb] in Hios.
    cbn [fmap list_fmap existsb].
    repeat (apply orb_true_iff in Hios as [Hios | Hios]);
      try discriminate; apply contains_lowerCase in Hios;
      rewrite Hios; now rewrite ?orb_true_r. }
  unfold getCameraConstraints, getCameraTimeout.
  now rewrite Hios, Hsafari.
Qed.

Ltac split_chars H :=
  repeat match type of H with
    | (_ && _) = true =>
        let E := fresh "E" in apply andb_true_iff in H as [E H];
        apply Ascii.eqb_eq in E
    end.

Lemma marker_head (rest : string) :
  startsWith "chrome" rest || startsWith "android" rest = true ->
  exists r1 r2 rest',
    rest = String r1 (String r2 rest') /\
    startsWith "c" rest || startsWith "an" rest = true.
Proof.
  destruct rest as [| r1 [| r2 rest']]; cbn [startsWith].
  - discriminate.
  - rewrite !andb_false_r. discriminate.
  - intros H. exists r1, r2, rest'. split; [reflexivity |].
    apply orb_true_iff in H as [H | H]; split_chars H; subst; reflexivity.
Qed.

(** A match of [safari] cannot run from [pre] into a text that begins with
    [chrome] or [android]. *)
Lemma safari_overlap (pre rest : string) :
  startsWith "chrome" rest || startsWith "android" rest = true ->
  startsWith "safari" (pre +:+ rest) = true ->
  startsWith "safari" pre = true.
Proof.
  intros Hmark H.
  destruct (marker_head rest Hmark) as (r1 & r2 & rest' & -> & Hr).
  clear Hmark.
  destruct pre as [| c1 [| c2 [| c3 [| c4 [| c5 [| c6 pre]]]]]];
    rewrite ?append_cons, ?append_nil in H; cbn [startsWith] in *;
    split_chars H; subst; try discriminate Hr.
  reflexivity.
Qed.

Lemma safariAhead_blocked (pre rest : string) :
  startsWith "chrome" rest || startsWith "android" rest = true ->
  contains "safari" pre = false ->
  safariAhead (pre +:+ rest) = false.
Proof.
  intros Hmark. induction pre as [| c pre IH]; intros Hpre.
  - rewrite append_nil.
    destruct (marker_head rest Hmark) as (r1 & r2 & rest' & -> & Hr).
    cbn [safariAhead]. rewrite <- negb_orb, Hmark. cbn [negb andb].
    rewrite orb_false_r.
    destruct (startsWith "safari" (String r1 (String r2 rest'))) eqn:E;
      [| reflexivity].
    cbn [startsWith] in E. split_chars E. subst. discriminate Hr.
  - cbn [contains] in Hpre. apply orb_false_iff in Hpre as [Hs Hc].
    rewrite append_cons.
    cbn [safariAhead]. rewrite (IH Hc), andb_false_r, orb_false_r.
    destruct (startsWith "safari" (String c (pre +:+ rest))) eqn:E;
      [| reflexivity].
    rewrite <- append_cons in E.
    apply (safari_overlap (String c pre) rest Hmark) in E. congruence.
Qed.

(** A user agent in which [chrome] or [android] (in any case) occurs with
    no [safari] before it, and that names no iPhone, iPad or iPod, is not
    Safari, even when [Safari] follows later in the string: it is given the
    default camera constraints and timeout. *)
Theorem chrome_and_android_are_not_safari (this : BrowserDetector)
    (pre rest : string) :
  userAgent this = pre +:+ rest ->
  startsWith "chrome" (lowerCase rest) ||
    startsWith "android" (lowerCase rest) = true ->
  contains "safari" (lowerCase pre) = false ->
  isIOS this = false ->
  isSafari this = false /\
  getCameraConstraints this = DEFAULT_CONSTRAINTS /\
  getCameraTimeout this = DEFAULT_TIMEOUT_MS.
Proof.
  intros Hua Hmark Hpre Hios.
  assert (Hsafari : isSafari this = false).
  { unfold isSafari. rewrite Hua, lowerCase_app.
    rewrite (safariAhead_blocked _ _ Hmark Hpre). cbn [orb].
    rewrite <- Hua. unfold isIOS, containsAny in Hios. cbn [existsb] in *.
    repeat (apply orb_false_iff in Hios as [? Hios]).
    repeat (apply orb_false_iff; split); assumption. }
  unfold getCameraConstraints, getCameraTimeout. now rewrite Hios, Hsafari.
Qed.

(** A detection that finds nothing stored: on Safari and on every mobile
    browser the tier is never ['high'], and on iOS it is ['low'] however
    fast the benchmark ran. *)
Theorem fresh_detection_on_constrained_platforms (this : PerformanceManager)
    (bd : BrowserDetector) (env : Detection) :
  stored env = None ->
  let detected := performanceLevel (detectPerformance this bd env).1 in
  (isSafari bd || isMobile bd = true -> detected <> high) /\
  (isIOS bd = true -> detected = low).
Proof.
  intros Hmiss detected. unfold detected, detectPerformance. rewrite Hmiss.
  cbn [fst performanceLevel withLevel]. unfold platformLevel. split.
  - intros Hp.
    destruct (isSafari bd), (isMobile bd), (isIOS bd),
      (isOlderiOS (userAgent bd)), (benchmarkLevel bd (testDuration env));
      try discriminate Hp; cbn; discriminate.
  - intros Hios. rewrite (isIOS_isSafari bd Hios), Hios.
    destruct (isMobile bd), (isOlderiOS (userAgent bd)),
      (benchmarkLevel bd (testDuration env)); reflexivity.
Qed.

(** The detected tier is kept for a day: after a detection that stored its
    result at time [t], a call on the same browser that checks the clock
    less than 24 hours after [t] returns the stored tier, whatever its own
    benchmark would measure, and leaves the stored entry as it is. *)
Theorem detection_is_cached_for_a_day (this this' : PerformanceManager)
    (bd : BrowserDetector) (env env' : Detection) (t t' : Q) :
  stored env = None ->
  storageWritable env = true ->
  nowAtWrite env = Fin t ->
  stored env' = (detectPerformance this bd env).2 ->
  nowAtCheck env' = Fin t' ->
  t' - t < 86400000 ->
  performanceLevel (detectPerformance this' bd env').1 =
    performanceLevel (detectPerformance this bd env).1 /\
  (detectPerformance this' bd env').2 = stored env'.
Proof.
  intros Hmiss Hw Ht Hs Hc Hd.
  unfold detectPerformance in Hs. rewrite Hmiss, Hw in Hs. cbn [snd] in Hs.
  unfold detectPerformance at 1 3. rewrite Hs.
  cbn [timestamp cachedUserAgent level]. rewrite Hc, Ht, String.eqb_refl.
  unfold CACHE_DURATION_MS. cbn [sub neg add lt].
  destruct (Qltb_reflect (t' + - t) (24 * 60 * 60 * 1000)) as [_ | Hn].
  - cbn [andb fst snd performanceLevel withLevel].
    unfold detectPerformance. now rewrite Hmiss.
  - exfalso. apply Hn.
    assert (E : 24 * 60 * 60 * 1000 == 86400000) by reflexivity. lra.
Qed.

Lemma benchmarkLevel_mono (bd : BrowserDetector) (d1 d2 : Q) :
  d1 <= d2 ->
  (rank (benchmarkLevel bd (Fin d2)) <= rank (benchmarkLevel bd (Fin d1)))%nat.
Proof.
  intros Hd. unfold benchmarkLevel, HIGH_THRESHOLD_MOBILE,
    HIGH_THRESHOLD_DESKTOP, MEDIUM_THRESHOLD_MOBILE, MEDIUM_THRESHOLD_DESKTOP.
  destruct (isMobile bd); cbn [lt]; qcases; cbn [rank]; try lia; lra.
Qed.

Lemma platformLevel_mono (bd : BrowserDetector) (a b : Tier) :
  (rank a <= rank b)%nat ->
  (rank (platformLevel bd a) <= rank (platformLevel bd b))%nat.
Proof.
  unfold platformLevel.
  destruct (isSafari bd), (isIOS bd), (isOlderiOS (userAgent bd)),
    (isMobile bd), a, b; cbn; lia.
Qed.

(** On one browser, of two detections that find nothing stored the one
    with the slower benchmark never gets the higher tier. *)
Theorem slower_benchmark_never_ranks_higher (this : PerformanceManager)
    (bd : BrowserDetector) (env1 env2 : Detection) (d1 d2 : Q) :
  stored env1 = None -> stored env2 = None ->
  testDuration env1 = Fin d1 -> testDuration env2 = Fin d2 ->
  d1 <= d2 ->
  (rank (performanceLevel (detectPerformance this bd env2).1) <=
   rank (performanceLevel (detectPerformance this bd env1).1))%nat.
Proof.
  intros H1 H2 Hd1 Hd2 Hle. unfold detectPerformance. rewrite H1, H2, Hd1, Hd2.
  cbn [fst performanceLevel withLevel].
  apply platformLevel_mono, benchmarkLevel_mono, Hle.
Qed.

End Platform.

(** Safari on an iPhone. *)
Lemma ios_is_safari_and_mobile_witness :
  BrowserDetector.isSafari iphoneDetector = true /\
  BrowserDetector.isMobile iphoneDetector = true /\
  BrowserDetector.getCameraConstraints iphoneDetector =
    BrowserDetector.IOS_CONSTRAINTS /\
  BrowserDetector.getCameraTimeout iphoneDetector = 15000%Z.
Proof.
  apply (ios_is_safari_and_mobile iphoneDetector). reflexivity.
Defined.

(** Chrome on a desktop. *)
Lemma chrome_and_android_are_not_safari_witness :
  BrowserDetector.isSafari chromeDetector = false /\
  BrowserDetector.getCameraConstraints chromeDetector =
    BrowserDetector.DEFAULT_CONSTRAINTS /\
  BrowserDetector.getCameraTimeout chromeDetector = 10000%Z.
Proof.
  apply (chrome_and_android_are_not_safari chromeDetector chromePrefix
           chromeSuffix); reflexivity.
Defined.

(** An iPhone whose benchmark takes one millisecond. *)
Lemma fresh_detection_on_constrained_platforms_witness :
  PerformanceManager.performanceLevel
    (PerformanceManager.detectPerformance PerformanceManager.new
       iphoneDetector (firstVisit 1)).1 = low.
Proof.
  refine (proj2 (fresh_detection_on_constrained_platforms
                   PerformanceManager.new iphoneDetector (firstVisit 1) _) _);
    reflexivity.
Defined.

(** Desktop Chrome: a fast first visit, and a slow visit an hour later. *)
Lemma detection_is_cached_for_a_day_witness :
  PerformanceManager.performanceLevel
    (PerformanceManager.detectPerformance PerformanceManager.new
       chromeDetector
       (laterVisit
          (PerformanceManager.detectPerformance PerformanceManager.new
             chromeDetector (firstVisit 5)).2)).1 = high.
Proof.
  refine (proj1 (detection_is_cached_for_a_day PerformanceManager.new
                   PerformanceManager.new chromeDetector (firstVisit 5)
                   (laterVisit
                      (PerformanceManager.detectPerformance
                         PerformanceManager.new chromeDetector
                         (firstVisit 5)).2)
                   1005 3601005 _ _ _ _ _ _)); try reflexivity.
Defined.

(** Desktop Chrome with benchmarks of 5 and of 20 milliseconds. *)
Lemma slower_benchmark_never_ranks_higher_witness :
  (rank (PerformanceManager.performanceLevel
           (PerformanceManager.detectPerformance PerformanceManager.new
              chromeDetector (firstVisit 20)).1) <=
   rank (PerformanceManager.performanceLevel
           (PerformanceManager.detectPerformance PerformanceManager.new
              chromeDetector (firstVisit 5)).1))%nat.
Proof.
  apply (slower_benchmark_never_ranks_higher PerformanceManager.new
           chromeDetector (firstVisit 5) (firstVisit 20) 5 20);
    try reflexivity.
  discriminate.
Defined.

(** ** Fast trigonometry and helpers ([MathUtils]) *)

Lemma refSin_Fin (q : Q) :
  exists r, RefTrig.sin (Fin q) = Fin r /\ -1 <= r <= 1.
Proof.
  exists (RefTrig.sinQ q). split; [reflexivity |].
  unfold RefTrig.sinQ. apply cut12_bounds. qcases; lra.
Qed.

Lemma refSin_nonFin (a : num) : isFinite a = false -> RefTrig.sin a = NaN.
Proof. destruct a; simpl; congruence. Qed.

Lemma refSin_zero (q : Q) : q == 0 -> RefTrig.sin (Fin q) ≐ Fin 0.
Proof.
  intros E. cbn [RefTrig.sin eqv]. unfold RefTrig.sinQ.
  rewrite (Qred_complete q 0 E). reflexivity.
Qed.

Lemma refCos_zero (q : Q) : q == 0 -> RefMath.cos (Fin q) ≐ Fin 1.
Proof.
  intros E. cbn [RefMath.cos eqv]. unfold RefMath.cosQ.
  assert (E2 : q * q == 0) by (rewrite E; ring).
  rewrite (Qred_complete (q * q) 0 E2). reflexivity.
Qed.

#[global] Instance refTrig : TrigLib := {|
  sin := RefTrig.sin;
  sin_Fin := refSin_Fin;
  sin_nonFin := refSin_nonFin;
  sin_zero := refSin_zero;
  cos_zero := refCos_zero
|}.

Section FastTrig.
Context {M : MathLib} {T : TrigLib}.
Import MathUtils.

Lemma store_end (array : list (option num)) (s : nat) (value : num) :
  length array = s -> store array s value = array ++ [Some value].
Proof.
  intros <-. unfold store. rewrite Nat.ltb_irrefl, Nat.sub_diag. reflexivity.
Qed.

Lemma fill_loop (n s : nat) (this : MathUtils) :
  length (sinLookup this) = s -> length (cosLookup this) = s ->
  let this' := foldl fill this (seq s n) in
  sinLookup this' =
    sinLookup this ++
    ((fun i => Some (sin (rad (lookupSize this) i))) <$> seq s n) /\
  cosLookup this' =
    cosLookup this ++
    ((fun i => Some (cos (rad (lookupSize this) i))) <$> seq s n) /\
  lookupSize this' = lookupSize this /\
  initialized this' = initialized this.
Proof.
  revert s this. induction n as [| n IH]; intros s this Hs Hc.
  - cbn. now rewrite !app_nil_r.
  - cbn [seq foldl fmap list_fmap].
    destruct (IH (S s) (fill this s)) as (H1 & H2 & H3 & H4).
    + cbn [fill sinLookup]. rewrite (store_end _ _ _ Hs), length_app.
      cbn. lia.
    + cbn [fill cosLookup]. rewrite (store_end _ _ _ Hc), length_app.
      cbn. lia.
    + cbn zeta. rewrite H1, H2, H3, H4.
      cbn [fill sinLookup cosLookup lookupSize initialized].
      rewrite (store_end _ _ _ Hs), (store_end _ _ _ Hc), <- !app_assoc.
      repeat split.
Qed.

Lemma init_new :
  init new =
  {| sinLookup := (fun i => Some (sin (rad LOOKUP_SIZE i))) <$> seq 0 360;
     cosLookup := (fun i => Some (cos (rad LOOKUP_SIZE i))) <$> seq 0 360;
     lookupSize := LOOKUP_SIZE; initialized := true |}.
Proof.
  unfold init. cbn [initialized new lookupSize].
  destruct (fill_loop (Z.to_nat LOOKUP_SIZE) 0 new eq_refl eq_refl)
    as (H1 & H2 & H3 & _).
  cbn zeta in *. rewrite H1, H2, H3. reflexivity.
Qed.


Lemma rem_Fin (x y : Q) :
  0 < y ->
  exists r, rem (Fin x) (Fin y) = Fin r /\
            (x < 0 -> - y < r <= 0) /\ (0 <= x -> 0 <= r < y).
Proof.
  intros Hy. cbn [rem].
  destruct (Qis0_reflect y) as [E | _]; [lra |].
  eexists. split; [reflexivity |].
  assert (Hxy : x == y * (x / y)) by (field; lra).
  set (d := x / y) in *.
  destruct (Qltb_reflect d 0) as [Hneg | Hpos].
  - pose proof (Qle_ceiling d) as Hc.
    pose proof (Qceiling_lt d) as Hc'.
    unfold Z.sub in Hc'. rewrite inject_Z_plus, inject_Z_opp in Hc'.
    change (inject_Z 1) with 1 in Hc'.
    set (t := inject_Z (Qceiling d)) in *.
    split; [intros _; split; nra | intros Hx; exfalso; nra].
  - pose proof (Qfloor_le d) as Hf.
    pose proof (Qlt_floor d) as Hf'.
    rewrite inject_Z_plus in Hf'. change (inject_Z 1) with 1 in Hf'.
    set (t := inject_Z (Qfloor d)) in *.
    split; [intros Hx; exfalso; nra | intros _; split; nra].
Qed.

Lemma twoPI : exists y, (PI * Fin 2)%num = Fin y /\ 0 < y.
Proof. eexists. split; [reflexivity |]. reflexivity. Qed.

Lemma lookupIndex_Fin (this : MathUtils) (a : Q) :
  lookupSize this = LOOKUP_SIZE ->
  exists q z,
    lookupIndex this (Fin a) = Fin q /\ q == inject_Z z /\
    (0 <= z <= 359)%Z /\ (a < 0 -> z = 0%Z).
Proof.
  intros Hsize. unfold lookupIndex. rewrite Hsize.
  destruct twoPI as (y & -> & Hy).
  destruct (rem_Fin a y Hy) as (r & -> & Hneg & Hpos).
  unfold LOOKUP_SIZE, ofZ. cbn [div].
  destruct (Qis0_reflect y) as [E | _]; [lra |].
  cbn [mul floor sub neg add]. unfold ofZ.
  set (k := Qfloor (r / y * inject_Z 360)).
  assert (Hd : r == y * (r / y)) by (field; lra).
  pose proof (Qfloor_le (r / y * inject_Z 360)) as Hf.
  pose proof (Qlt_floor (r / y * inject_Z 360)) as Hf'.
  fold k in Hf, Hf'. rewrite inject_Z_plus in Hf'.
  change (inject_Z 360) with 360 in *. change (inject_Z 1) with 1 in *.
  set (d := r / y) in *.
  assert (Hk : (-360 <= k <= 359)%Z /\ (a < 0 -> (k <= 0)%Z) /\
               (0 <= a -> (0 <= k)%Z)).
  { destruct (Qlt_le_dec a 0) as [Ha | Ha].
    - destruct (Hneg Ha) as [L U].
      assert (Hd1 : -1 < d) by nra. assert (Hd2 : d <= 0) by nra.
      assert (inject_Z k <= inject_Z 0) by (change (inject_Z 0) with 0; lra).
      assert (inject_Z (-361) < inject_Z k)
        by (change (inject_Z (-361)) with (-361); lra).
      rewrite <- Zle_Qle in *. rewrite <- Zlt_Qlt in *.
      split; [lia |]. split; [intros _; lia | intros; lra].
    - destruct (Hpos Ha) as [L U].
      assert (Hd1 : 0 <= d) by nra. assert (Hd2 : d < 1) by nra.
      assert (inject_Z (-1) < inject_Z k)
        by (change (inject_Z (-1)) with (-1); lra).
      assert (inject_Z k < inject_Z 360)
        by (change (inject_Z 360) with 360; lra).
      rewrite <- !Zlt_Qlt in *.
      split; [lia |]. split; [intros; lra | intros _; lia]. }
  destruct Hk as (Hrange & Hkneg & Hkpos).
  assert (Hlt : Qltb (inject_Z k) (360 + - (1)) = negb (k =? 359)%Z).
  { destruct (Qltb_reflect (inject_Z k) (360 + - (1))) as [L | L];
      destruct (Z.eqb_spec k 359) as [-> | N]; try reflexivity.
    - exfalso. revert L. change (inject_Z 359) with 359. lra.
    - exfalso. apply L.
      assert (H' : inject_Z k < inject_Z 359) by (rewrite <- Zlt_Qlt; lia).
      revert H'. change (inject_Z 359) with 359. lra. }
  cbn [JS.min lt]. rewrite Hlt.
  destruct (Z.eqb_spec k 359) as [-> | N]; cbn [negb JS.max lt].
  - exists (360 + - (1)), 359%Z. repeat split; try lia; try reflexivity.
    intros Ha. specialize (Hkneg Ha). lia.
  - destruct (Qltb_reflect 0 (inject_Z k)) as [L | L].
    + exists (inject_Z k), k. split; [reflexivity |]. split; [reflexivity |].
      assert (H' : inject_Z 0 < inject_Z k) by (change (inject_Z 0) with 0; lra).
      rewrite <- Zlt_Qlt in H'. split; [lia |].
      intros Ha. specialize (Hkneg Ha). lia.
    + exists 0, 0%Z. repeat split; try lia; reflexivity.
Qed.

Lemma ready (this : MathUtils) :
  this = new \/ this = init new ->
  (if initialized this then this else init this) = init new.
Proof. intros [-> | ->]; [reflexivity |]. now rewrite init_new. Qed.

Lemma rad_Fin (i : nat) :
  exists q, rad LOOKUP_SIZE i = Fin q /\ (i = 0%nat -> q == 0).
Proof.
  unfold rad, LOOKUP_SIZE, ofZ, PI. cbn [mul div].
  destruct (Qis0_reflect (inject_Z 360)) as [E | _]; [discriminate E |].
  eexists. split; [reflexivity |]. intros ->. reflexivity.
Qed.

Lemma read_table (g : nat -> num) (q : Q) (z : Z) :
  q == inject_Z z -> (0 <= z <= 359)%Z ->
  read ((fun i => Some (g i)) <$> seq 0 360) (Fin q) = Some (g (Z.to_nat z)).
Proof.
  intros E Hz. unfold read. rewrite (asIndex_int q z E) by lia.
  cbn [mbind option_bind]. rewrite list_lookup_fmap.
  rewrite (lookup_seq_lt 0 360 (Z.to_nat z)) by lia. reflexivity.
Qed.

(** On a new or an initialised [MathUtils], [fastSin] and [fastCos] of a
    finite angle read a slot of the table: the clamped index is always
    between 0 and 359, so the result is a number between -1 and 1, never
    [undefined].  Of NaN or an infinite angle both return [undefined]. *)
Theorem fast_trig_is_defined_on_finite_angles (this : MathUtils) :
  this = new \/ this = init new ->
  (forall a : Q,
     exists s c,
       (fastSin this (Fin a)).1 = Some (Fin s) /\ -1 <= s <= 1 /\
       (fastCos this (Fin a)).1 = Some (Fin c) /\ -1 <= c <= 1) /\
  (forall angle,
     isFinite angle = false ->
     (fastSin this angle).1 = None /\ (fastCos this angle).1 = None).
Proof.
  intros Hthis. split.
  - intros a. unfold fastSin, fastCos. rewrite (ready this Hthis), init_new.
    cbn [fst sinLookup cosLookup].
    destruct (lookupIndex_Fin (init new) a) as (q & z & Hq & E & Hz & _);
      [now rewrite init_new |].
    rewrite init_new in Hq. rewrite Hq.
    rewrite (read_table (fun i => sin (rad LOOKUP_SIZE i)) q z E Hz).
    rewrite (read_table (fun i => cos (rad LOOKUP_SIZE i)) q z E Hz).
    destruct (rad_Fin (Z.to_nat z)) as (x & -> & _).
    destruct (sin_Fin x) as (s & -> & Hs).
    destruct (cos_Fin x) as (c & -> & Hc).
    exists s, c. repeat split; tauto.
  - intros angle Hangle. unfold fastSin, fastCos.
    rewrite (ready this Hthis), init_new. cbn [fst sinLookup cosLookup].
    unfold lookupIndex. destruct twoPI as (y & -> & Hy).
    destruct angle as [| | |a]; [| | | discriminate Hangle]; split; reflexivity.
Qed.

(** The lookup does not wrap negative angles: the remainder of a negative
    angle is negative or zero, its index is clamped to slot 0, and so for
    every negative angle [fastSin] returns the sine of 0, which is 0, and
    [fastCos] the cosine of 0, which is 1. *)
Theorem fast_trig_ignores_negative_angles (this : MathUtils) (a : Q) :
  this = new \/ this = init new ->
  a < 0 ->
  exists s c,
    (fastSin this (Fin a)).1 = Some (Fin s) /\ s == 0 /\
    (fastCos this (Fin a)).1 = Some (Fin c) /\ c == 1.
Proof.
  intros Hthis Ha. unfold fastSin, fastCos.
  rewrite (ready this Hthis), init_new. cbn [fst sinLookup cosLookup].
  destruct (lookupIndex_Fin (init new) a) as (q & z & Hq & E & Hz & Hneg);
    [now rewrite init_new |].
  rewrite init_new in Hq. rewrite Hq. rewrite (Hneg Ha) in *.
  rewrite (read_table (fun i => sin (rad LOOKUP_SIZE i)) q 0 E Hz).
  rewrite (read_table (fun i => cos (rad LOOKUP_SIZE i)) q 0 E Hz).
  destruct (rad_Fin (Z.to_nat 0)) as (x & -> & Hx).
  specialize (Hx eq_refl).
  pose proof (sin_zero x Hx) as Hs. pose proof (cos_zero x Hx) as Hc.
  destruct (sin (Fin x)) as [| | |s]; try contradiction.
  destruct (cos (Fin x)) as [| | |c]; try contradiction.
  exists s, c. repeat split; assumption.
Qed.
(** [clamp] with finite bounds: NaN stays NaN, and any other value, the
    infinities included, gives a finite number.  With [lo <= hi] that number
    lies between the bounds, and a value already between them is returned
    as the same number; with the bounds crossed ([hi < lo]) it is [lo],
    whatever the value. *)
Theorem clamp_stays_in_range (value : num) (lo hi : Q) :
  match value with
  | NaN => clamp value (Fin lo) (Fin hi) = NaN
  | _ =>
      exists r,
        clamp value (Fin lo) (Fin hi) = Fin r /\
        (lo <= hi ->
         lo <= r <= hi /\
         (forall v, value = Fin v -> lo <= v <= hi -> r == v)) /\
        (hi < lo -> r == lo)
  end.
Proof.
  unfold clamp.
  destruct value as [| | |v]; cbn [JS.min JS.max lt]; [reflexivity | | |].
  - destruct (Qltb_reflect lo hi) as [L | L].
    + exists hi. repeat split; try lra. intros v [=].
    + exists lo. repeat split; try lra. intros v [=].
  - exists lo. repeat split; try lra. intros v [=].
  - destruct (Qltb_reflect v hi) as [L | L]; cbn [lt].
    + destruct (Qltb_reflect lo v) as [L' | L'].
      * exists v. repeat split; try lra. now intros v' [= ->].
      * exists lo. repeat split; try lra. intros v' [= <-] Hv. lra.
    + destruct (Qltb_reflect lo hi) as [L' | L'].
      * exists hi. repeat split; try lra. intros v' [= <-] Hv. lra.
      * exists lo. repeat split; try lra. intros v' [= <-] Hv. lra.
Qed.

(** [lerp] of finite end points with a factor between 0 and 1 lies between
    the end points; factor 0 gives the first and factor 1 the second (in
    exact arithmetic). *)
Theorem lerp_stays_between (a b t : Q) :
  0 <= t <= 1 ->
  exists r,
    MathUtils.lerp (Fin a) (Fin b) (Fin t) = Fin r /\
    (a <= b -> a <= r <= b) /\ (b <= a -> b <= r <= a) /\
    (t == 0 -> r == a) /\ (t == 1 -> r == b).
Proof.
  intros [H0 H1]. unfold lerp. cbn [sub neg add mul].
  eexists. split; [reflexivity |].
  repeat split; intros; try nra.
Qed.

Lemma sumsq_zero (a b : Q) : a * a + b * b == 0 -> a == 0 /\ b == 0.
Proof.
  intros E.
  assert (Ha : 0 <= a * a) by nra. assert (Hb : 0 <= b * b) by nra.
  assert (Ea : a * a == 0) by lra. assert (Eb : b * b == 0) by lra.
  split; [destruct (Qmult_integral _ _ Ea) | destruct (Qmult_integral _ _ Eb)];
    assumption.
Qed.

(** [distance2D] of finite points is a finite, non-negative number, and it
    is 0 exactly when the two points are the same. *)
Theorem distance2D_is_zero_at_the_same_point (x1 y1 x2 y2 : Q) :
  exists r,
    distance2D (Fin x1) (Fin y1) (Fin x2) (Fin y2) = Fin r /\ 0 <= r /\
    (r == 0 <-> x1 == x2 /\ y1 == y2).
Proof.
  unfold distance2D. rewrite !pow_square. cbn [sub neg add mul].
  destruct (sqrt_Fin _ (sumsq_nonneg (x2 + - x1) (y2 + - y1)))
    as (r & -> & Hr & Hiff).
  exists r. split; [reflexivity |]. split; [assumption |].
  rewrite Hiff. split.
  - intros E. apply sumsq_zero in E as [Ex Ey]. split; lra.
  - intros [-> ->]. ring.
Qed.

End FastTrig.

(** A new object and the angle -3. *)
Lemma fast_trig_is_defined_on_finite_angles_witness :
  exists s c,
    (MathUtils.fastSin MathUtils.new (Fin (-3))).1 = Some (Fin s) /\
    -1 <= s <= 1 /\
    (MathUtils.fastCos MathUtils.new (Fin (-3))).1 = Some (Fin c) /\
    -1 <= c <= 1.
Proof.
  refine (proj1 (fast_trig_is_defined_on_finite_angles MathUtils.new _) (-3)).
  now left.
Defined.

Lemma fast_trig_ignores_negative_angles_witness :
  exists s c,
    (MathUtils.fastSin MathUtils.new (Fin (-3))).1 = Some (Fin s) /\ s == 0 /\
    (MathUtils.fastCos MathUtils.new (Fin (-3))).1 = Some (Fin c) /\ c == 1.
Proof.
  apply (fast_trig_ignores_negative_angles MathUtils.new (-3)).
  - now left.
  - reflexivity.
Defined.

(** Bounds 0 and 10, a value above them. *)
Lemma clamp_stays_in_range_witness :
  exists r,
    MathUtils.clamp (Fin 12) (Fin 0) (Fin 10) = Fin r /\
    (0 <= 10 ->
     0 <= r <= 10 /\
     (forall v, Fin 12 = Fin v -> 0 <= v <= 10 -> r == v)) /\
    (10 < 0 -> r == 0).
Proof.
  exact (clamp_stays_in_range (Fin 12) 0 10).
Defined.

Lemma lerp_stays_between_witness :
  exists r,
    MathUtils.lerp (Fin 10) (Fin 20) (Fin 0.3) = Fin r /\
    (10 <= 20 -> 10 <= r <= 20) /\ (20 <= 10 -> 20 <= r <= 10) /\
    (0.3 == 0 -> r == 10) /\ (0.3 == 1 -> r == 20).
Proof.
  apply (lerp_stays_between 10 20 0.3). split; discriminate.
Defined.

(** ** The sampler stays in range *)

Section SamplerRange.
Import ViewportUtils.

Lemma readByte_range (data : list Z) (index : num) :
  byteRange data ->
  exists o, readByte data index = ofZ <$> o /\
            forall v, o = Some v -> (0 <= v <= 255)%Z.
Proof.
  intros Hdata. unfold readByte.
  destruct (asIndex index) as [i |]; cbn [mbind option_bind];
    [| exists None; split; [reflexivity | discriminate]].
  exists (data !! i). split; [reflexivity |].
  intros v Hv. exact (Forall_lookup_1 _ _ _ _ Hdata Hv).
Qed.

Lemma orElse_range (o : option Z) (d : Z) :
  (0 <= d <= 255)%Z -> (forall v, o = Some v -> (0 <= v <= 255)%Z) ->
  exists c, orElse (ofZ <$> o) (ofZ d) = Fin c /\ 0 <= c <= 255.
Proof.
  intros Hd Ho.
  assert (Hz : forall z, (0 <= z <= 255)%Z -> 0 <= inject_Z z <= 255).
  { intros z [L U]. rewrite Zle_Qle in L, U.
    change (inject_Z 0) with 0 in L. change (inject_Z 255) with 255 in U.
    split; assumption. }
  destruct o as [v |]; cbn [fmap option_fmap option_map].
  - rewrite orElse_byte. eexists. split; [reflexivity |].
    apply Hz. destruct (v =? 0)%Z; [assumption | now apply Ho].
  - exists (inject_Z d). split; [reflexivity | now apply Hz].
Qed.

Lemma getPixel_range (data : list Z) (w px py : num) :
  byteRange data ->
  exists c0 c1 c2 c3,
    getPixel data w px py = [Fin c0; Fin c1; Fin c2; Fin c3] /\
    0 <= c0 <= 255 /\ 0 <= c1 <= 255 /\ 0 <= c2 <= 255 /\ 0 <= c3 <= 255.
Proof.
  intros Hdata. unfold getPixel.
  repeat match goal with
  | |- context [readByte data ?i] =>
      let o := fresh "o" in let E := fresh "E" in let R := fresh "R" in
      destruct (readByte_range data i Hdata) as (o & E & R); rewrite E; clear E
  end.
  change (Fin 0) with (ofZ 0). change (Fin 255) with (ofZ 255).
  destruct (orElse_range o 0) as (c0 & -> & H0); [lia | assumption |].
  destruct (orElse_range o0 0) as (c1 & -> & H1); [lia | assumption |].
  destruct (orElse_range o1 0) as (c2 & -> & H2); [lia | assumption |].
  destruct (orElse_range o2 255) as (c3 & -> & H3); [lia | assumption |].
  exists c0, c1, c2, c3. repeat split; tauto.
Qed.

Lemma round_range (q : Q) :
  0 <= q <= 255 -> exists z, round (Fin q) = ofZ z /\ (0 <= z <= 255)%Z.
Proof.
  intros [L U]. cbn [round]. eexists. split; [reflexivity |].
  pose proof (Qfloor_le (q + (1 # 2))) as Hf.
  pose proof (Qlt_floor (q + (1 # 2))) as Hf'.
  set (f := Qfloor (q + (1 # 2))) in *.
  assert (H1 : inject_Z (-1) < inject_Z f).
  { rewrite inject_Z_plus in Hf'. change (inject_Z 1) with 1 in Hf'.
    change (inject_Z (-1)) with (-1). lra. }
  assert (H2 : inject_Z f < inject_Z 256)
    by (change (inject_Z 256) with 256; lra).
  rewrite <- Zlt_Qlt in H1, H2. lia.
Qed.

Lemma blend_range (p q f : Q) :
  0 <= p <= 255 -> 0 <= q <= 255 -> 0 <= f <= 1 ->
  0 <= p * (1 + - f) + q * f <= 255.
Proof. intros. nra. Qed.

(** The clamped coordinate, its floor and the fraction between them. *)
Lemma clamp_fraction (x : Q) (w : Z) :
  (1 <= w)%Z ->
  exists c k,
    max (Fin 0) (min (ofZ w - Fin 1) (Fin x)) = Fin c /\
    floor (Fin c) = ofZ k /\ 0 <= c + - inject_Z k <= 1.
Proof.
  intros Hw. unfold ofZ. cbn [sub neg add min max lt].
  assert (Hw' : 0 <= inject_Z w + - (1)).
  { rewrite Zle_Qle in Hw. change (inject_Z 1) with 1 in Hw. lra. }
  assert (Hfrac : forall c, 0 <= c + - inject_Z (Qfloor c) <= 1).
  { intros c. pose proof (Qfloor_le c). pose proof (Qlt_floor c) as Hf.
    rewrite inject_Z_plus in Hf. change (inject_Z 1) with 1 in Hf. lra. }
  destruct (Qltb x (inject_Z w + - (1))); cbn [lt max];
    match goal with |- context [Qltb 0 ?c] => destruct (Qltb 0 c) end;
    eexists; eexists; (split; [reflexivity |]); cbn [floor];
    (split; [reflexivity | apply Hfrac]).
Qed.


(** Sampling never leaves the byte range: on a buffer of bytes, for every
    finite sampling position and every buffer size of at least 1 by 1, each
    of the four channels [bilinearSample] returns is an integer between 0
    and 255. *)
Theorem bilinearSample_stays_in_byte_range (imageData : list Z) (x y : Q)
    (w h : Z) :
  byteRange imageData -> (1 <= w)%Z -> (1 <= h)%Z ->
  Forall (fun v => exists z, v = ofZ z /\ (0 <= z <= 255)%Z)
    (bilinearSample imageData (Fin x) (Fin y) (ofZ w) (ofZ h)) /\
  length (bilinearSample imageData (Fin x) (Fin y) (ofZ w) (ofZ h)) = 4%nat.
Proof.
  intros Hdata Hw Hh. split; [| reflexivity].
  unfold bilinearSample.
  destruct (clamp_fraction x w Hw) as (cx & kx & -> & -> & Hfx).
  destruct (clamp_fraction y h Hh) as (cy & ky & -> & -> & Hfy).
  set (x2 := min _ _). set (y2 := min _ _).
  destruct (getPixel_range imageData (ofZ w) (ofZ kx) (ofZ ky) Hdata)
    as (a0 & a1 & a2 & a3 & -> & Ha0 & Ha1 & Ha2 & Ha3).
  destruct (getPixel_range imageData (ofZ w) x2 (ofZ ky) Hdata)
    as (b0 & b1 & b2 & b3 & -> & Hb0 & Hb1 & Hb2 & Hb3).
  destruct (getPixel_range imageData (ofZ w) (ofZ kx) y2 Hdata)
    as (c0 & c1 & c2 & c3 & -> & Hc0 & Hc1 & Hc2 & Hc3).
  destruct (getPixel_range imageData (ofZ w) x2 y2 Hdata)
    as (d0 & d1 & d2 & d3 & -> & Hd0 & Hd1 & Hd2 & Hd3).
  unfold ofZ.
  cbn [fmap list_fmap coord default from_option id lookup list_lookup
       sub neg add mul].
  repeat (apply Forall_cons_2); try apply Forall_nil_2;
    match goal with
    | |- exists z, round (Fin ?q) = _ /\ _ => apply (round_range q)
    end;
    apply blend_range; try apply blend_range; assumption.
Qed.

End SamplerRange.

(** The 2 by 2 buffer sampled at its centre. *)
Lemma bilinearSample_stays_in_byte_range_witness :
  Forall (fun v => exists z, v = ofZ z /\ (0 <= z <= 255)%Z)
    (ViewportUtils.bilinearSample fourPixels (Fin 0.5) (Fin 0.5) (ofZ 2)
       (ofZ 2)).
Proof.
  refine (proj1 (bilinearSample_stays_in_byte_range fourPixels 0.5 0.5 2 2
                   _ _ _)).
  - repeat constructor; lia.
  - lia.
  - lia.
Defined.

(** ** Detection and filter selection *)

Section Detection.
Import ViewportUtils FilterRenderer ModelLoader.
Variable World : Type.
Variable canvasSize : World -> Z * Z.

Lemma validFace_cull (face : Face) (cw ch : num) :
  validFace face = true -> exists b, shouldCullAnimation face cw ch = Ok b.
Proof.
  unfold validFace. intros H. apply Nat.leb_le in H.
  unfold shouldCullAnimation, getFaceDimensions, getFacePoints.
  cbn [noseTip leftEye rightEye foreheadCenter].
  destruct (lookup_lt_is_Some_2 (scaledMesh face) C.LANDMARKS.NOSE_TIP)
    as [nose ->]; [unfold C.LANDMARKS.NOSE_TIP; lia |].
  destruct (lookup_lt_is_Some_2 (scaledMesh face) C.LANDMARKS.LEFT_EYE)
    as [lEye ->]; [unfold C.LANDMARKS.LEFT_EYE; lia |].
  destruct (lookup_lt_is_Some_2 (scaledMesh face) C.LANDMARKS.RIGHT_EYE)
    as [rEye ->]; [unfold C.LANDMARKS.RIGHT_EYE; lia |].
  destruct (lookup_lt_is_Some_2 (scaledMesh face) C.LANDMARKS.FOREHEAD_CENTER)
    as [fore ->]; [unfold C.LANDMARKS.FOREHEAD_CENTER; lia |].
  cbn. eauto.
Qed.

Lemma forEach_valid (filter : Filter World) (t : num)
    (qs : Quality.QualitySettings) (cw ch : num) (faces : list Face)
    (w : World) :
  Forall (fun f => validFace f = true) faces ->
  (forEach World (renderFace World filter t qs cw ch) faces w).1 = Ok tt.
Proof.
  intros Hall. revert w. induction Hall as [| f faces Hf _ IH]; intros w;
    [reflexivity |].
  cbn [forEach]. unfold renderFace at 1.
  destruct (validFace_cull f cw ch Hf) as [[|] ->]; apply IH.
Qed.

Lemma detectFacesLoop_valid (steps attempt : nat)
    (estimate : nat -> option (list Face)) :
  Forall (fun f => validFace f = true)
    (detectFacesLoop steps attempt estimate).
Proof.
  revert attempt. induction steps as [| steps IH]; intros attempt;
    cbn [detectFacesLoop]; [constructor |].
  destruct (estimate attempt) as [faces |].
  - destruct (_ && _); [| apply IH].
    apply Forall_forall. intros f Hf. apply list_elem_of_In in Hf.
    now apply filter_In in Hf as [_ Hf].
  - destruct (3 <=? attempt)%nat; [constructor | apply IH].
Qed.

(** On Safari every face [detectFaces] returns has passed the mesh check
    of [detectFacesSafari], so it has at least 468 landmarks; the cull test
    of [render] finds all the landmarks it reads, and [render] completes
    without an exception on these faces, whatever the renderer, the filter
    and the canvas are. *)
Theorem safari_detections_render_without_error (this : ModelLoader)
    (bd : BrowserDetector.BrowserDetector) (videoWidth : num)
    (estimate : nat -> option (list Face)) :
  BrowserDetector.isSafari bd = true ->
  let faces := detectFaces this bd videoWidth estimate in
  Forall (fun f => (468 <= length (scaledMesh f))%nat) faces /\
  forall (r : FilterRenderer World) (w : World) (qs : Quality.QualitySettings),
    (render World canvasSize r w faces qs).1 = Ok tt.
Proof.
  intros Hsafari faces.
  assert (Hvalid : Forall (fun f => validFace f = true) faces).
  { unfold faces, detectFaces. rewrite Hsafari.
    destruct (_ || _); [constructor | apply detectFacesLoop_valid]. }
  split.
  - eapply Forall_impl; [exact Hvalid |].
    intros f Hf. now apply Nat.leb_le in Hf.
  - intros r w qs. unfold render.
    destruct (_ || _); [reflexivity |].
    destruct (filters World r !! currentFilterName World r); [| reflexivity].
    now apply forEach_valid.
Qed.

Lemma setFilter_known (r : FilterRenderer World) (name : string) :
  knownFilter r ->
  knownFilter (setFilter World r name).2 /\
  filters World (setFilter World r name).2 = filters World r.
Proof.
  intros Hk. unfold setFilter.
  destruct (String.eqb_spec name "none") as [-> | Hn]; cbn [orb].
  - split; [now left | reflexivity].
  - destruct (bool_decide_reflect (is_Some (filters World r !! name)))
      as [Hs | Hs]; cbn [snd]; [| now split].
    split; [now right | reflexivity].
Qed.

(** After any sequence of [setFilter] calls on a renderer whose current
    filter is ['none'] or registered, the current filter is still ['none']
    or registered and the set of filters is the same; a call that returns
    false changed nothing, and was given a name that is neither ['none'] nor
    registered. *)
Theorem setFilter_keeps_a_known_filter (r : FilterRenderer World)
    (names : list string) :
  knownFilter r ->
  let r' := foldl (fun r name => (setFilter World r name).2) r names in
  knownFilter r' /\ filters World r' = filters World r /\
  forall name,
    (setFilter World r' name).1 = false ->
    (setFilter World r' name).2 = r' /\
    name <> "none"%string /\ filters World r !! name = None.
Proof.
  intros Hk r'.
  assert (H : knownFilter r' /\ filters World r' = filters World r).
  { unfold r'. clear r'. revert r Hk.
    induction names as [| name names IH]; intros r Hk; [now split |].
    cbn [foldl]. destruct (setFilter_known r name Hk) as [Hk' Hf].
    destruct (IH _ Hk') as [H1 H2]. split; [exact H1 | congruence]. }
  destruct H as [H1 H2]. split; [exact H1 |]. split; [exact H2 |].
  intros name. unfold setFilter. rewrite H2.
  destruct (String.eqb_spec name "none") as [-> | Hn]; cbn [orb];
    [discriminate |].
  destruct (bool_decide_reflect (is_Some (filters World r !! name)))
    as [Hs | Hs]; cbn [fst snd]; [discriminate |].
  intros _. repeat split; [assumption |].
  destruct (filters World r !! name) eqn:E; [| reflexivity].
  exfalso. apply Hs. eauto.
Qed.

End Detection.

(** Safari on an iPhone, a detector that answers with a full face and an
    empty one: the empty one is dropped. *)
Lemma safari_detections_render_without_error_witness :
  Forall (fun f => (468 <= length (scaledMesh f))%nat)
    (ModelLoader.detectFaces loadedModel iphoneDetector (Fin 640) twoFaces).
Proof.
  refine (proj1 (safari_detections_render_without_error Recording
                   recordingCanvas loadedModel iphoneDetector (Fin 640)
                   twoFaces _)).
  reflexivity.
Defined.

(** The recording renderer, asked for a registered, an unknown and again a
    registered filter. *)
Lemma setFilter_keeps_a_known_filter_witness :
  knownFilter
    (foldl (fun r name => (FilterRenderer.setFilter Recording r name).2)
       (recordingRenderer "none")
       ["recorder"; "sparkles"; "fragile"]%string).
Proof.
  refine (proj1 (setFilter_keeps_a_known_filter Recording
                   (recordingRenderer "none")
                   ["recorder"; "sparkles"; "fragile"]%string _)).
  now left.
Defined.

(** ** The morph filter: what it paints and where it samples *)

Section Frame.
Context {M : MathLib}.
Import ViewportUtils MorphFilter Canvas2D.

Lemma lookup_bind_chunks {A B : Type} (g : A -> list B) (n : nat)
    (l : list A) (i k : nat) (a : A) :
  (forall a, length (g a) = n) ->
  l !! i = Some a -> (k < n)%nat ->
  (l ≫= g) !! (i * n + k)%nat = g a !! k.
Proof.
  intros Hg. revert i. induction l as [| a0 l IH]; intros i Hi Hk;
    [discriminate |].
  cbn [mbind list_bind].
  destruct i as [| i].
  - injection Hi as ->. cbn [Nat.mul Nat.add].
    rewrite lookup_app_l by (rewrite Hg; lia). reflexivity.
  - cbn [lookup list_lookup] in Hi.
    rewrite lookup_app_r by (rewrite Hg; lia).
    rewrite Hg. replace (S i * n + k - n)%nat with (i * n + k)%nat by lia.
    now apply IH.
Qed.

Lemma four_defaults (chunk : list Z) :
  length chunk = 4%nat ->
  (fun k => default 0%Z (chunk !! k)) <$> [0; 1; 2; 3]%nat = chunk.
Proof.
  destruct chunk as [| a [| b [| c [| d [| e chunk]]]]]; try discriminate.
  reflexivity.
Qed.

Lemma pixelAt_length (c : Canvas) (px py : Z) : length (pixelAt c px py) = 4%nat.
Proof. unfold pixelAt. now destruct (_ && _). Qed.

Lemma pixelAt_putImageData (c : Canvas) (img : ImageData) (dx dy : num)
    (px py : Z) :
  ((toLong dx <=? px) && (px <? toLong dx + dataWidth img) &&
   (toLong dy <=? py) && (py <? toLong dy + dataHeight img))%Z = false ->
  pixelAt (putImageData c img dx dy) px py = pixelAt c px py.
Proof.
  intros Hout. unfold pixelAt at 1.
  cbn [putImageData canvasWidth canvasHeight pixels].
  destruct ((0 <=? px) && (px <? canvasWidth c) &&
            (0 <=? py) && (py <? canvasHeight c))%Z eqn:Hin;
    [| unfold pixelAt; now rewrite Hin].
  apply andb_true_iff in Hin as [Hin Hy2].
  apply andb_true_iff in Hin as [Hin Hy1].
  apply andb_true_iff in Hin as [Hx1 Hx2].
  apply Z.leb_le in Hx1, Hy1. apply Z.ltb_lt in Hx2, Hy2.
  set (chunk := fun py px : Z =>
    if ((toLong dx <=? px) && (px <? toLong dx + dataWidth img) &&
        (toLong dy <=? py) && (py <? toLong dy + dataHeight img))%Z
    then (fun k => default 0%Z
            (data img !! (Z.to_nat (4 * ((py - toLong dy) * dataWidth img
                                         + (px - toLong dx))) + k)%nat))
           <$> [0; 1; 2; 3]%nat
    else pixelAt c px py).
  assert (Hchunk : forall py px, length (chunk py px) = 4%nat).
  { intros y x. unfold chunk. cbv beta.
    match goal with |- context [if ?b then _ else _] => destruct b end;
      [reflexivity |].
    apply pixelAt_length. }
  assert (Hrow : forall y,
            length (seqZ 0 (canvasWidth c) ≫= chunk y) =
            (Z.to_nat (canvasWidth c) * 4)%nat).
  { intros y. generalize (seqZ 0 (canvasWidth c)) (length_seqZ 0 (canvasWidth c)).
    intros l <-. induction l as [| x l IH]; [reflexivity |].
    cbn [mbind list_bind length]. rewrite length_app, Hchunk.
    change (foldr _ _ _) with (l ≫= chunk y) in *. cbn [mbind list_bind] in IH.
    rewrite IH. lia. }
  assert (Hlook : forall k, (k < 4)%nat ->
    (seqZ 0 (canvasHeight c) ≫= (fun py => seqZ 0 (canvasWidth c) ≫= chunk py))
      !! (Z.to_nat (4 * (py * canvasWidth c + px)) + k)%nat =
    chunk py px !! k).
  { intros k Hk.
    replace (Z.to_nat (4 * (py * canvasWidth c + px)) + k)%nat
      with (Z.to_nat py * (Z.to_nat (canvasWidth c) * 4)
            + (Z.to_nat px * 4 + k))%nat by nia.
    rewrite (lookup_bind_chunks
               (fun py => seqZ 0 (canvasWidth c) ≫= chunk py)
               (Z.to_nat (canvasWidth c) * 4) _ (Z.to_nat py) _ py Hrow).
    - apply (lookup_bind_chunks (chunk py) 4 _ (Z.to_nat px) k px (Hchunk py));
        [| exact Hk].
      rewrite lookup_seqZ. split; lia.
    - rewrite lookup_seqZ. split; lia.
    - nia. }
  cbn [fmap list_fmap].
  rewrite !Hlook by lia.
  unfold chunk at 1 2 3 4. cbv beta. rewrite Hout.
  pose proof (pixelAt_length c px py) as Hlen.
  destruct (pixelAt c px py) as [| a [| b [| d [| e [| f rest]]]]];
    try discriminate Hlen.
  reflexivity.
Qed.

Lemma morphRegion_Ok (this : MorphFilter) (ctx ctx' : Canvas)
    (lm : Landmarks) (region : Region) :
  morphRegion this ctx lm region = Ok ctx' ->
  exists bytes,
    ctx' =
    putImageData ctx
      {| dataWidth := Z.abs (toLong (width region));
         dataHeight := Z.abs (toLong (height region));
         data := bytes |}
      (minX region) (minY region).
Proof.
  unfold morphRegion.
  destruct (getImageData ctx _ _ _ _) as [img | e]; [| discriminate].
  cbn [mbind result_bind bind].
  unfold createImageData.
  destruct (_ || _)%Z; [discriminate |].
  cbn [mbind result_bind bind dataWidth dataHeight data].
  match goal with
  | |- context [forLoop ?n ?i ?body ?s] => destruct (forLoop n i body s) as [bytes | e]
  end; [| discriminate].
  cbn [mbind result_bind bind]. intros [= <-]. now exists bytes.
Qed.

(** The morph filter paints inside its processing region only: whatever
    [draw] does, the canvas keeps its size, and every pixel outside the
    rectangle of the processing region reads after the call as it read
    before. *)
Theorem draw_paints_inside_the_region_only (this : MorphFilter)
    (ctx : Canvas) (face : Face) (t : num) (qs : Quality.QualitySettings)
    (level : Tier) (dims : FaceDimensions) (px py : Z) :
  Quality.performanceLevel qs = Some level ->
  getFaceDimensions (getFacePoints face) = Ok dims ->
  let region :=
    calculateProcessingRegion (eyeCenter dims) (faceWidth dims)
      (faceHeight dims) (ofZ (canvasWidth ctx)) (ofZ (canvasHeight ctx))
      level in
  let ctx' := (draw this ctx face t qs).2.2 in
  canvasWidth ctx' = canvasWidth ctx /\
  canvasHeight ctx' = canvasHeight ctx /\
  (regionCovers region px py = false ->
   pixelAt ctx' px py = pixelAt ctx px py).
Proof.
  intros Hl Hd region ctx'. unfold ctx', draw. rewrite Hl, Hd. fold region.
  destruct (_ || _); [now repeat split |].
  destruct (morphRegion _ ctx (getMorphingLandmarks face) region)
    as [c | e] eqn:Hm; cbn [snd]; [| now repeat split].
  apply morphRegion_Ok in Hm as [bytes ->].
  split; [reflexivity |]. split; [reflexivity |].
  intros Hout. apply pixelAt_putImageData. exact Hout.
Qed.
End Frame.

(** The small face on the blank canvas: the corner pixel is outside the
    region. *)
Lemma draw_paints_inside_the_region_only_witness :
  Canvas2D.pixelAt
    (MorphFilter.draw MorphFilter.new blankMorphWorld.2 smallFace (Fin 0)
       highSettings).2.2 10 10 =
  Canvas2D.pixelAt blankMorphWorld.2 10 10.
Proof.
  refine (proj2 (proj2 (draw_paints_inside_the_region_only MorphFilter.new
                          blankMorphWorld.2 smallFace (Fin 0) highSettings
                          high _ 10 10 eq_refl eq_refl)) _).
  vm_compute. reflexivity.
Defined.

Section Finite.
Context {M : MathLib}.
Import ViewportUtils MorphFilter.

Lemma influence_factor_range (d w : Q) :
  0 <= w ->
  unitOrNaN 1 (max (Fin 0) (Fin 1 - Fin (Qabs d) / Fin w)).
Proof.
  intros Hw. pose proof (Qabs_nonneg d) as Hd. unfold unitOrNaN.
  num_simpl. destruct (Qis0_reflect w) as [E | N].
  - destruct (Qis0_reflect (Qabs d)) as [E' | N']; [now left |].
    destruct (Qltb_reflect 0 (Qabs d)) as [L | L]; [| exfalso; lra].
    right. exists 0. split; [reflexivity | lra].
  - num_simpl.
    assert (Hq : 0 <= Qabs d / w) by (apply Qle_shift_div_l; lra).
    destruct (Qltb_reflect 0 (1 + - (Qabs d / w))) as [L | L]; right.
    + eexists. split; [reflexivity |]. lra.
    + exists 0. split; [reflexivity | lra].
Qed.

Lemma slim_product (h v : num) :
  unitOrNaN 1 h -> unitOrNaN 1 v -> unitOrNaN 0.8 (h * v * Fin 0.8).
Proof.
  intros [-> | (a & -> & Ha)] [-> | (b & -> & Hb)]; try (now left).
  right. eexists. split; [reflexivity |]. nra.
Qed.

Lemma face_range (x y flx fly frx fry fhx fhy ctx cty : Q)
    (r1 r2 r3 r4 : Point) (lm : Landmarks) :
  faceLeft lm = Some (Fin flx :: Fin fly :: r1) ->
  faceRight lm = Some (Fin frx :: Fin fry :: r2) ->
  foreheadCenter lm = Some (Fin fhx :: Fin fhy :: r3) ->
  chinTip lm = Some (Fin ctx :: Fin cty :: r4) ->
  exists v, calculateFaceSlimInfluence (Fin x) (Fin y) lm = Ok v /\
            unitOrNaN 0.8 v.
Proof.
  intros Hl Hr Hf Hc. unfold calculateFaceSlimInfluence.
  rewrite Hl, Hr, Hf, Hc.
  cbn [coord default from_option id lookup list_lookup bind mbind
       result_bind deref].
  match goal with
  | |- context [if ?c then Ok (Fin 0) else _] => destruct c
  end.
  - eexists; split; [reflexivity |]. right. exists 0. split; [reflexivity | lra].
  - eexists; split; [reflexivity |].
    unfold C.FACE_SLIM_INTENSITY. apply slim_product.
    + cbn [add sub neg mul abs div].
      destruct (Qis0_reflect 2) as [E | _]; [exfalso; lra |].
      cbn [add neg].
      apply (influence_factor_range (x + - ((flx + frx) / 2))).
      pose proof (Qabs_nonneg (frx + - flx)). nra.
    + cbn [add sub neg mul abs div].
      destruct (Qis0_reflect 2) as [E | _]; [exfalso; lra |].
      cbn [add neg].
      apply (influence_factor_range (y + - ((fhy + cty) / 2))).
      pose proof (Qabs_nonneg (fhy + - cty)). nra.
Qed.

Section Params.
Variable this : MorphFilter.
Variables i es ms fs : Q.
Hypothesis Hi : intensity this = Fin i.
Hypothesis Hes : eyeScaleFactor this = Fin es.
Hypothesis Hms : mouthScaleFactor this = Fin ms.
Hypothesis Hfs : faceSlimFactor this = Fin fs.
Hypothesis Hirange : 0 <= i <= 1.
Hypothesis Hfsrange : 0 < fs <= 1.

Lemma undo_finite (s a b : Q) (v : num) (c : option Point) :
  1 <= s ->
  notInf v ->
  finiteOpt c = true ->
  (c = None -> v = Fin 0) ->
  exists a' b',
    undoEnlargement this (Fin s) v c (Fin a, Fin b) = Ok (Fin a', Fin b').
Proof.
  intros Hs Hv Hc Hn. unfold undoEnlargement. rewrite Hi.
  destruct Hv as [-> | [q ->]].
  - exists a, b. now cbn.
  - cbn [gt lt]. destruct (Qltb_reflect 0 q) as [Hq | Hq];
      [| now exists a, b].
    destruct c as [c |];
      [| specialize (Hn eq_refl); injection Hn as Hn; exfalso;
         rewrite Hn in Hq; lra].
    destruct (finitePoint_inv c Hc) as (cx & cy & rest & ->).
    num_simpl.
    destruct (Qis0_reflect (1 + (s + - (1)) * q * i)) as [E | N].
    { exfalso. assert (H1 : 0 <= (s + - (1)) * q) by nra.
      assert (H2 : 0 <= (s + - (1)) * q * i) by nra. lra. }
    num_simpl. cbn [fst snd]. num_simpl.
    eexists _, _. reflexivity.
Qed.

Lemma warp_finite (lm : Landmarks) (x y : Q) (cw ch : num) :
  1 <= es -> 1 <= ms ->
  completeLandmarks lm = true ->
  exists sx sy,
    inverseTransformPoint this (Fin x) (Fin y) lm cw ch = Ok (Fin sx, Fin sy).
Proof.
  intros He Hm Hc.
  pose proof (completeLandmarks_inv lm Hc)
    as ((flx & fly & r1 & Hfl) & (frx & fry & r2 & Hfr) &
        (fhx & fhy & r3 & Hfh) & (ctx & cty & r4 & Hct) &
        Hin & Hout & Hlc & Hrc & _ & _ & _ & _ & Hmc).
  unfold inverseTransformPoint. rewrite Hfl, Hfr, Hfs, Hes, Hms, Hi.
  cbn [bind mbind result_bind deref].
  destruct (face_range x y _ _ _ _ _ _ _ _ _ _ _ _ lm Hfl Hfr Hfh Hct)
    as (vf & -> & Nf).
  cbn [bind mbind result_bind].
  match goal with
  | |- context [undoEnlargement _ _ _ _ (?nx, _)] =>
      assert (Hx : exists x1, nx = Fin x1)
  end.
  { destruct Nf as [-> | (q & -> & Hq0 & Hq1)]; [now exists x |].
    cbn [gt lt]. destruct (Qltb_reflect 0 q) as [Hq | Hq]; [| now exists x].
    num_simpl.
    destruct (Qis0_reflect 2) as [E | _]; [exfalso; lra |].
    destruct (Qis0_reflect (1 + - ((1 + - fs) * q * i))) as [E | _].
    { exfalso. assert (H1 : (1 + - fs) * q <= 0.8) by nra.
      assert (H1' : 0 <= (1 + - fs) * q) by nra.
      assert (H2 : (1 + - fs) * q * i <= 0.8) by nra. lra. }
    num_simpl. eexists. reflexivity. }
  destruct Hx as (x1 & ->).
  destruct (eye_notInf this x y (leftEyeCenter lm) lm Hout Hin Hlc)
    as (vl & -> & Nl & Zl).
  destruct (eye_notInf this x y (rightEyeCenter lm) lm Hout Hin Hrc)
    as (vr & -> & Nr & Zr).
  cbn [bind mbind result_bind].
  destruct (undo_finite es x1 y vl _ He Nl Hlc Zl) as (x2 & y2 & H2).
  rewrite H2. cbn [bind mbind result_bind].
  destruct (undo_finite es x2 y2 vr _ He Nr Hrc Zr) as (x3 & y3 & H3).
  rewrite H3. cbn [bind mbind result_bind].
  destruct (mouth_notInf this (Fin x) (Fin y) (mouthCenter lm) lm)
    as (vm & -> & Nm & Zm).
  cbn [bind mbind result_bind].
  destruct (undo_finite ms x3 y3 vm _ Hm Nm Hmc Zm) as (x4 & y4 & H4).
  rewrite H4. eauto.
Qed.
End Params.

(** With the parameters of any of the three tiers, the inverse transform
    of a pixel with finite coordinates, on a complete set of finite
    landmarks, returns without an exception, and the point it returns has
    finite coordinates (in exact arithmetic).  An influence may still be
    NaN, as for a degenerate eye region; such an influence is not applied,
    so it does not reach the result. *)
Theorem warp_source_is_finite (this : MorphFilter) (level : Tier)
    (lm : Landmarks) (x y : Q) (cw ch : num) :
  completeLandmarks lm = true ->
  exists sx sy,
    inverseTransformPoint (adjustForPerformance this level) (Fin x) (Fin y)
      lm cw ch = Ok (Fin sx, Fin sy).
Proof.
  intros Hc.
  destruct level.
  - apply (warp_finite _ 1 2.5 2.2 0.85); try reflexivity; try exact Hc; lra.
  - apply (warp_finite _ 0.9 2 1.8 0.88); try reflexivity; try exact Hc; lra.
  - apply (warp_finite _ 0.8 1.6 1.4 0.9); try reflexivity; try exact Hc; lra.
Qed.

End Finite.

(** A pixel between the eyes of the frontal face, at tier medium. *)
Lemma warp_source_is_finite_witness :
  exists sx sy,
    MorphFilter.inverseTransformPoint
      (MorphFilter.adjustForPerformance MorphFilter.new medium)
      (Fin 300) (Fin 210)
      (MorphFilter.getMorphingLandmarks Samples.frontalFace)
      (Fin 640) (Fin 480) = Ok (Fin sx, Fin sy).
Proof.
  apply (warp_source_is_finite MorphFilter.new medium
           (MorphFilter.getMorphingLandmarks Samples.frontalFace)
           300 210 (Fin 640) (Fin 480)).
  vm_compute. reflexivity.
Defined.

(** ** The animated filters ([AnimatedFilter]) *)

Section Animated.
Context {M : MathLib} {T : TrigLib}.
Import ViewportUtils AnimatedFilter.

Lemma fast_negative (mu : MathUtils.MathUtils) (a : Q) :
  mu = MathUtils.new \/ mu = MathUtils.init MathUtils.new ->
  a < 0 ->
  MathUtils.fastSin mu (Fin a) =
    (Some (sin (rad MathUtils.LOOKUP_SIZE 0)), MathUtils.init MathUtils.new) /\
  MathUtils.fastCos mu (Fin a) =
    (Some (cos (rad MathUtils.LOOKUP_SIZE 0)), MathUtils.init MathUtils.new).
Proof.
  intros Hmu Ha. unfold MathUtils.fastSin, MathUtils.fastCos.
  rewrite (ready mu Hmu).
  destruct (lookupIndex_Fin (MathUtils.init MathUtils.new) a)
    as (q & z & Hq & E & Hz & Hneg); [now rewrite init_new |].
  rewrite Hq. rewrite (Hneg Ha) in *.
  assert (Hsin : MathUtils.sinLookup (MathUtils.init MathUtils.new) =
                 (fun i => Some (sin (rad MathUtils.LOOKUP_SIZE i))) <$> seq 0 360)
    by now rewrite init_new.
  assert (Hcos : MathUtils.cosLookup (MathUtils.init MathUtils.new) =
                 (fun i => Some (cos (rad MathUtils.LOOKUP_SIZE i))) <$> seq 0 360)
    by now rewrite init_new.
  rewrite Hsin, Hcos.
  rewrite (read_table (fun i => sin (rad MathUtils.LOOKUP_SIZE i)) q 0 E Hz).
  rewrite (read_table (fun i => cos (rad MathUtils.LOOKUP_SIZE i)) q 0 E Hz).
  split; reflexivity.
Qed.

(** A dot with a negative orbit speed does not orbit: at every time after
    the start its angle [time * speed] is negative, the table lookup reads
    slot 0 for every negative angle, and [drawMovingDot] makes the same
    calls, at the same place, whatever the time. *)
Theorem negative_orbit_stands_still (w : World) (centerX centerY size : num)
    (color : string) (faceWidth : num) (quality : Quality.QualitySettings)
    (t t' v : Q) :
  mathUtils w = MathUtils.new \/ mathUtils w = MathUtils.init MathUtils.new ->
  v < 0 -> 0 < t -> 0 < t' ->
  drawMovingDot centerX centerY size color (Fin t) (Fin v) faceWidth quality w
  = drawMovingDot centerX centerY size color (Fin t') (Fin v) faceWidth
      quality w.
Proof.
  intros Hmu Hv Ht Ht'.
  assert (Hstep : forall t, 0 < t ->
    drawMovingDot centerX centerY size color (Fin t) (Fin v) faceWidth quality w
    = drawMovingDot centerX centerY size color (Fin 1) (Fin v) faceWidth
        quality w).
  { clear t t' Ht Ht'. intros t Ht.
    unfold drawMovingDot. cbn [mul].
    unfold mbind, draw_bind, fastCos, fastSin.
    destruct (fast_negative (mathUtils w) (t * v) Hmu) as [Hs Hc]; [nra |].
    destruct (fast_negative (mathUtils w) (1 * v) Hmu) as [Hs1 Hc1]; [nra |].
    rewrite Hc, Hc1. cbn [fst snd mathUtils].
    destruct (fast_negative (MathUtils.init MathUtils.new) (t * v))
      as [Hs' _]; [now right | nra |].
    destruct (fast_negative (MathUtils.init MathUtils.new) (1 * v))
      as [Hs1' _]; [now right | nra |].
    rewrite Hs', Hs1'. reflexivity. }
  now rewrite (Hstep t Ht), (Hstep t' Ht').
Qed.

Lemma nesting_app (a b : list Cmd) (d : nat) :
  nesting d (a ++ b) = d' ← nesting d a; nesting d' b.
Proof.
  revert d. induction a as [| c a IH]; intros d; [reflexivity |].
  destruct c; cbn [app nesting]; try apply IH.
  destruct d; [reflexivity | apply IH].
Qed.

Lemma arcs_app (a b : list Cmd) : arcs (a ++ b) = (arcs a + arcs b)%nat.
Proof. unfold arcs. now rewrite List.filter_app, length_app. Qed.

Lemma tidy_ret {A : Type} (a : A) : tidy 0 (mret a : Draw A).
Proof.
  intros w. exists a, []. cbn. rewrite app_nil_r. repeat split; lia.
Qed.

Lemma tidy_bind {A B : Type} (n1 n2 : nat) (m : Draw A) (k : A -> Draw B) :
  tidy n1 m -> (forall a, tidy n2 (k a)) -> tidy (n1 + n2) (m ≫= k).
Proof.
  intros Hm Hk w. unfold mbind, draw_bind.
  destruct (Hm w) as (a & added1 & H1 & H2 & H3 & H4 & H5 & H6).
  destruct (m w) as [r w1]. cbn [fst snd] in *. subst r.
  destruct (Hk a w1) as (b & added2 & K1 & K2 & K3 & K4 & K5 & K6).
  exists b, (added1 ++ added2). rewrite K2, H2, K3, K4, app_assoc.
  repeat split; try assumption.
  - rewrite nesting_app, H5. exact K5.
  - rewrite arcs_app. lia.
Qed.

Lemma tidy_weaken {A : Type} (n n' : nat) (m : Draw A) :
  (n <= n')%nat -> tidy n m -> tidy n' m.
Proof.
  intros Hn Hm w. destruct (Hm w) as (a & added & H).
  exists a, added. intuition lia.
Qed.

Lemma tidy_emit (n : nat) (cmds : list Cmd) :
  nesting 0 cmds = Some 0%nat -> (arcs cmds <= n)%nat -> tidy n (emit cmds).
Proof. intros H Hn w. exists tt, cmds. cbn. repeat split; assumption. Qed.

Lemma tidy_fastSin (angle : num) : tidy 0 (fastSin angle).
Proof.
  intros w. eexists _, []. cbn. rewrite app_nil_r. repeat split; lia.
Qed.

Lemma tidy_fastCos (angle : num) : tidy 0 (fastCos angle).
Proof.
  intros w. eexists _, []. cbn. rewrite app_nil_r. repeat split; lia.
Qed.

Lemma tidy_inViewport (x y radius : num) : tidy 0 (inViewport x y radius).
Proof.
  intros w. eexists _, []. cbn. rewrite app_nil_r. repeat split; lia.
Qed.

Lemma tidy_lift {A : Type} (a : A) : tidy 0 (lift (Ok a)).
Proof.
  intros w. exists a, []. cbn. rewrite app_nil_r. repeat split; lia.
Qed.

Lemma tidy_forEachIndexed {A : Type} (n : nat) (callback : A -> nat -> Draw unit)
    (items : list A) (index : nat) :
  (forall item i, tidy n (callback item i)) ->
  tidy (length items * n) (forEachIndexed callback items index).
Proof.
  intros Hc. revert index. induction items as [| item items IH]; intros index.
  - apply tidy_ret.
  - cbn [forEachIndexed length Nat.mul]. apply tidy_bind; [apply Hc |].
    intros _. apply IH.
Qed.

Ltac tidy_step :=
  first
    [ apply tidy_fastSin | apply tidy_fastCos | apply tidy_inViewport
    | apply tidy_ret ].

Lemma tidy_bind0 {A B : Type} (n : nat) (m : Draw A) (k : A -> Draw B) :
  tidy 0 m -> (forall a, tidy n (k a)) -> tidy n (m ≫= k).
Proof. intros Hm Hk. apply (tidy_bind 0 n m k Hm Hk). Qed.

Lemma tidy_if {A : Type} (n : nat) (b : bool) (m1 m2 : Draw A) :
  tidy n m1 -> tidy n m2 -> tidy n (if b then m1 else m2).
Proof. now destruct b. Qed.

Lemma tidy_contained {A : Type} (n : nat) (bad : Prop) (m : Draw A) :
  tidy n m -> contained n bad m.
Proof.
  intros Hm w. destruct (Hm w) as (a & added & H1 & H2 & H3 & H4 & H5 & H6).
  exists added. do 5 (split; [assumption |]).
  intros e He. rewrite H1 in He. discriminate He.
Qed.

Lemma contained_tidy {A : Type} (n : nat) (bad : Prop) (m : Draw A) :
  contained n bad m -> ~ bad -> tidy n m.
Proof.
  intros Hm Hbad w. destruct (Hm w) as (added & H2 & H3 & H4 & H5 & H6 & H7).
  destruct (m w) as [[a | e] w1]; cbn [fst snd] in *.
  - exists a, added. do 5 (split; [first [reflexivity | assumption] |]).
    assumption.
  - destruct (H7 e eq_refl) as [_ Hb]. contradiction.
Qed.

Lemma contained_weaken {A : Type} (n n' : nat) (bad bad' : Prop)
    (m : Draw A) :
  (n <= n')%nat -> (bad -> bad') -> contained n bad m -> contained n' bad' m.
Proof.
  intros Hn Hb Hm w. destruct (Hm w) as (added & H2 & H3 & H4 & H5 & H6 & H7).
  exists added. do 4 (split; [assumption |]). split; [lia |].
  intros e He. destruct (H7 e He). auto.
Qed.

Lemma contained_bind {A B : Type} (n1 n2 : nat) (bad : Prop) (m : Draw A)
    (k : A -> Draw B) :
  contained n1 bad m -> (forall a, contained n2 bad (k a)) ->
  contained (n1 + n2) bad (m ≫= k).
Proof.
  intros Hm Hk w. unfold mbind, draw_bind.
  destruct (Hm w) as (added1 & H2 & H3 & H4 & H5 & H6 & H7).
  destruct (m w) as [[a | e] w1]; cbn [fst snd] in *.
  - destruct (Hk a w1) as (added2 & K2 & K3 & K4 & K5 & K6 & K7).
    exists (added1 ++ added2). rewrite K2, H2, K3, K4, app_assoc.
    do 3 (split; [first [reflexivity | assumption] |]).
    split; [rewrite nesting_app, H5; exact K5 |].
    split; [rewrite arcs_app; lia |]. exact K7.
  - exists added1. do 4 (split; [assumption |]). split; [lia |].
    intros e' [= <-]. exact (H7 e eq_refl).
Qed.

Lemma contained_arc (x y radius startAngle endAngle : num) :
  contained 1 (exists q, radius = Fin q /\ q < 0)
    (arc x y radius startAngle endAngle).
Proof.
  intros w. unfold arc.
  destruct (forallb isFinite [x; y; radius; startAngle; endAngle]
            && (radius <? Fin 0)%num) eqn:C.
  - exists []. cbn [lift fst snd]. rewrite app_nil_r.
    do 4 (split; [reflexivity |]). split; [cbn; lia |].
    intros e [= <-]. split; [reflexivity |].
    apply andb_true_iff in C as [F C]. cbn [forallb] in F.
    rewrite !andb_true_iff in F. destruct F as (_ & _ & F & _).
    destruct radius as [| | |q]; try discriminate F. cbn [lt] in C.
    exists q. split; [reflexivity |].
    now destruct (Qltb_reflect q 0).
  - exists [Arc x y radius startAngle endAngle]. cbn [emit fst snd trace
      canvasWidth canvasHeight].
    do 4 (split; [reflexivity |]). split; [cbn; lia |].
    intros e [=].
Qed.

Lemma contained_drawBouncingBall x y size color time quality :
  contained 1 (exists q, size = Fin q /\ q < 0)
    (drawBouncingBall x y size color time quality).
Proof.
  unfold drawBouncingBall.
  apply (contained_bind 0 1); [apply tidy_contained; tidy_step | intros s].
  apply (contained_bind 0 1);
    [apply tidy_contained; tidy_step | intros visible].
  destruct (negb visible);
    [apply tidy_contained, (tidy_weaken 0); [lia | tidy_step] |].
  apply (contained_bind 0 1);
    [apply tidy_contained, tidy_emit; [reflexivity | vm_compute; lia] |
     intros _].
  apply (contained_bind 1 0); [apply contained_arc | intros _].
  apply tidy_contained, tidy_emit; [reflexivity | vm_compute; lia].
Qed.

Lemma tidy_drawTwinklingStar x y size color time quality :
  tidy 0 (drawTwinklingStar x y size color time quality).
Proof.
  unfold drawTwinklingStar.
  apply tidy_bind0; [tidy_step | intros s].
  apply tidy_bind0; [tidy_step | intros visible].
  apply tidy_if; [tidy_step |].
  apply tidy_emit; [reflexivity | vm_compute; lia].
Qed.

Lemma tidy_drawHeart size color time pos i :
  tidy 0 (drawHeart size color time pos i).
Proof.
  unfold drawHeart.
  apply tidy_bind0; [tidy_step | intros f].
  apply tidy_bind0; [tidy_step | intros s].
  apply tidy_bind0; [tidy_step | intros visible].
  apply tidy_if; [tidy_step |].
  apply tidy_emit; [reflexivity | vm_compute; lia].
Qed.

Lemma tidy_drawFloatingHearts eyeCenter fw fh size color time index :
  tidy 0 (drawFloatingHearts eyeCenter fw fh size color time index).
Proof.
  unfold drawFloatingHearts. cbv zeta.
  match goal with
  | |- tidy _ (forEachIndexed ?cb ?items 0) =>
      apply (tidy_weaken (length items * 0)); [cbn; lia |];
      apply (tidy_forEachIndexed 0 cb items 0)
  end.
  intros. apply tidy_drawHeart.
Qed.

Lemma contained_drawMovingDot cx cy size color time speed fw quality :
  contained 1 (exists q, size = Fin q /\ q < 0)
    (drawMovingDot cx cy size color time speed fw quality).
Proof.
  unfold drawMovingDot.
  apply (contained_bind 0 1); [apply tidy_contained; tidy_step | intros c].
  apply (contained_bind 0 1); [apply tidy_contained; tidy_step | intros s].
  apply (contained_bind 0 1);
    [apply tidy_contained; tidy_step | intros visible].
  destruct (negb visible);
    [apply tidy_contained, (tidy_weaken 0); [lia | tidy_step] |].
  apply (contained_bind 0 1);
    [apply tidy_contained, tidy_emit; [reflexivity | vm_compute; lia] |
     intros _].
  apply (contained_bind 1 0); [apply contained_arc | intros _].
  apply tidy_contained, tidy_emit; [reflexivity | vm_compute; lia].
Qed.

Lemma tidy_drawSwimmingFish bx by_ size color time speed fw quality :
  tidy 1 (drawSwimmingFish bx by_ size color time speed fw quality).
Proof.
  unfold drawSwimmingFish.
  apply tidy_bind0; [tidy_step | intros s].
  apply tidy_bind0; [tidy_step | intros c].
  apply tidy_bind0; [tidy_step | intros p].
  apply tidy_bind0; [tidy_step | intros visible].
  apply tidy_if; [apply (tidy_weaken 0); [lia | tidy_step] |].
  apply tidy_emit; [reflexivity | vm_compute; lia].
Qed.

Lemma tidy_drawSparkle x y time actualCount quality i :
  tidy 1 (drawSparkle x y time actualCount quality i).
Proof.
  unfold drawSparkle.
  apply tidy_bind0; [tidy_step | intros d].
  apply tidy_bind0; [tidy_step | intros c].
  apply tidy_bind0; [tidy_step | intros s].
  apply tidy_bind0; [tidy_step | intros v].
  apply tidy_bind0; [tidy_step | intros visible].
  apply tidy_if; [| apply (tidy_weaken 0); [lia | tidy_step]].
  apply tidy_emit; [reflexivity | vm_compute; lia].
Qed.

Lemma fastSin_unit (mu : MathUtils.MathUtils) (angle : num) :
  mu = MathUtils.new \/ mu = MathUtils.init MathUtils.new ->
  default NaN (MathUtils.fastSin mu angle).1 = NaN \/
  exists s,
    default NaN (MathUtils.fastSin mu angle).1 = Fin s /\ -1 <= s <= 1.
Proof.
  intros Hmu. unfold MathUtils.fastSin. rewrite (ready mu Hmu), init_new.
  cbn [fst MathUtils.sinLookup].
  destruct angle as [| | |a].
  1-3: left; unfold MathUtils.lookupIndex;
       destruct twoPI as (y & -> & Hy); reflexivity.
  right.
  destruct (lookupIndex_Fin (MathUtils.init MathUtils.new) a)
    as (q & z & Hq & E & Hz & _); [now rewrite init_new |].
  rewrite init_new in Hq. rewrite Hq.
  rewrite (read_table (fun i => sin (rad MathUtils.LOOKUP_SIZE i)) q z E Hz).
  destruct (rad_Fin (Z.to_nat z)) as (x & -> & _).
  destruct (sin_Fin x) as (s & -> & Hs).
  exists s. split; [reflexivity | exact Hs].
Qed.

(** With the sine table as the constructor or [init] left it, the radius
    of a sparkle is NaN or lies between 1 and 5, and [ctx.arc] returns. *)
Lemma sparkle_radius (mu : MathUtils.MathUtils) (angle : num)
    (px py startAngle endAngle : num) :
  mu = MathUtils.new \/ mu = MathUtils.init MathUtils.new ->
  let sparkleSize :=
    (PARTICLE_SIZE_BASE
     + default NaN (MathUtils.fastSin mu angle).1 * PARTICLE_SIZE_VARIANCE)%num
  in
  (sparkleSize = NaN \/ exists q, sparkleSize = Fin q /\ 1 <= q <= 5) /\
  arc px py sparkleSize startAngle endAngle
  = emit [Arc px py sparkleSize startAngle endAngle].
Proof.
  intros Hmu sparkleSize. subst sparkleSize.
  unfold PARTICLE_SIZE_BASE, PARTICLE_SIZE_VARIANCE, arc.
  destruct (fastSin_unit mu angle Hmu) as [-> | (s & -> & Hs)];
    cbn [mul add lt].
  - split; [now left |]. now rewrite andb_false_r.
  - split; [right; eexists; split; [reflexivity | lra] |].
    destruct (Qltb_reflect (3 + s * 2) 0) as [L | _]; [exfalso; lra |].
    now rewrite andb_false_r.
Qed.

Lemma tidy_drawParticleBurst x y time color count quality :
  tidy (MorphFilter.iterations
          (min (default NaN count) (particleCount quality)))
    (drawParticleBurst x y time color count quality).
Proof.
  unfold drawParticleBurst.
  apply tidy_bind0; [tidy_step | intros visible].
  apply tidy_if; [apply (tidy_weaken 0); [lia | tidy_step] |].
  apply tidy_bind0; [apply tidy_emit; [reflexivity | vm_compute; lia] | intros _].
  match goal with
  | |- tidy ?n (forEachIndexed ?cb (seq 0 ?n) 0) =>
      apply (tidy_weaken (length (seq 0 n) * 1));
        [rewrite length_seq; lia |];
      apply (tidy_forEachIndexed 1 cb (seq 0 n) 0)
  end.
  intros i _. apply tidy_drawSparkle.
Qed.

Lemma iterations_min (c : num) (pc : Z) :
  (MorphFilter.iterations (min c (ofZ pc)) <= Z.to_nat pc)%nat /\
  (forall q, c = Fin q ->
     (MorphFilter.iterations (min c (ofZ pc)) <= Z.to_nat (Qceiling q))%nat).
Proof.
  unfold ofZ. destruct c as [| | |q]; cbn [min lt MorphFilter.iterations].
  - split; [lia | discriminate].
  - rewrite Qceiling_Z. split; [lia | discriminate].
  - split; [lia | discriminate].
  - destruct (Qltb_reflect (inject_Z pc) q) as [L | L];
      cbn [MorphFilter.iterations].
    + rewrite Qceiling_Z. split; [lia |]. intros q' [= <-].
      assert (Hle : (Qceiling (inject_Z pc) <= Qceiling q)%Z)
        by (apply Qceiling_resp_le; lra).
      rewrite Qceiling_Z in Hle. lia.
    + split; [| now intros q' [= <-]].
      assert (Hle : (Qceiling q <= Qceiling (inject_Z pc))%Z)
        by (apply Qceiling_resp_le; lra).
      rewrite Qceiling_Z in Hle. lia.
Qed.

(** [drawParticleBurst] returns normally and draws at most as many sparkles
    as the tier's [particleCount], and at most the part's [count] (rounded
    up); for a part that has no [count] it draws no sparkle at all. *)
Theorem particle_burst_is_bounded (x y time : num) (color : string)
    (count : option num) (quality : Quality.QualitySettings) (w : World) :
  let r := drawParticleBurst x y time color count quality w in
  exists added,
    r.1 = Ok tt /\ trace r.2 = trace w ++ added /\
    (arcs added <=
     Z.to_nat (Constants.particleCount (Quality.settings quality)))%nat /\
    (count = None -> arcs added = 0%nat) /\
    (forall c, count = Some (Fin c) ->
       (arcs added <= Z.to_nat (Qceiling c))%nat).
Proof.
  intros r. unfold r.
  destruct (tidy_drawParticleBurst x y time color count quality w)
    as ([] & added & H1 & H2 & _ & _ & _ & Harcs).
  exists added. split; [exact H1 |]. split; [exact H2 |].
  unfold particleCount in Harcs.
  destruct (iterations_min (default NaN count)
              (Constants.particleCount (Quality.settings quality)))
    as [Hpc Hc].
  split; [lia |]. split.
  - intros ->. cbn in Harcs. lia.
  - intros c ->. specialize (Hc c eq_refl). cbn [default from_option id] in *.
    lia.
Qed.

Lemma nesting_lift (cmds : list Cmd) (d e k : nat) :
  nesting d cmds = Some e -> nesting (d + k) cmds = Some (e + k)%nat.
Proof.
  revert d. induction cmds as [| c cmds IH]; intros d;
    [now intros [= ->] |].
  destruct c; cbn [nesting]; try apply IH.
  destruct d as [| d]; [discriminate |]. cbn [Nat.add]. apply IH.
Qed.

Lemma getPartPosition_Ok (part : Part) (face : Face) (eyeCenter : Point)
    (fw fh : num) (index : nat) :
  (264 <= length (scaledMesh face))%nat ->
  position part <> "right_cheek"%string \/
    (346 <= length (scaledMesh face))%nat ->
  exists xy,
    getPartPosition part (getFacePoints face) eyeCenter fw fh index = Ok xy.
Proof.
  intros Hlen Hcheek. unfold getPartPosition, getFacePoints.
  cbn [leftEye rightEye noseTip foreheadCenter leftCheek rightCheek].
  destruct (lookup_lt_is_Some_2 (scaledMesh face) C.LANDMARKS.NOSE_TIP)
    as [nose ->]; [unfold C.LANDMARKS.NOSE_TIP; lia |].
  destruct (lookup_lt_is_Some_2 (scaledMesh face) C.LANDMARKS.LEFT_EYE)
    as [lEye ->]; [unfold C.LANDMARKS.LEFT_EYE; lia |].
  destruct (lookup_lt_is_Some_2 (scaledMesh face) C.LANDMARKS.RIGHT_EYE)
    as [rEye ->]; [unfold C.LANDMARKS.RIGHT_EYE; lia |].
  destruct (lookup_lt_is_Some_2 (scaledMesh face) C.LANDMARKS.FOREHEAD_CENTER)
    as [fore ->]; [unfold C.LANDMARKS.FOREHEAD_CENTER; lia |].
  destruct (lookup_lt_is_Some_2 (scaledMesh face) C.LANDMARKS.LEFT_CHEEK)
    as [lCheek ->]; [unfold C.LANDMARKS.LEFT_CHEEK; lia |].
  repeat match goal with
    | |- context [String.eqb (position part) ?s] =>
        destruct (String.eqb_spec (position part) s)
    end; cbn [orb deref mbind result_bind bind]; eauto.
  destruct Hcheek as [Hc | Hc]; [contradiction |].
  destruct (lookup_lt_is_Some_2 (scaledMesh face) C.LANDMARKS.RIGHT_CHEEK)
    as [rCheek ->]; [unfold C.LANDMARKS.RIGHT_CHEEK; lia |].
  cbn [deref mbind result_bind bind]. eauto.
Qed.

(** The radius of a ball or of a dot is the face width, which is an
    absolute value, times the part's [size]: it is negative only if the
    [size] is. *)
Lemma negative_radius (a : num) (part : Part) :
  (exists q, (abs a * default NaN (size part))%num = Fin q /\ q < 0) ->
  sizeNotNegative part = false.
Proof.
  intros (q & E & Hq). unfold sizeNotNegative.
  destruct (size part) as [[| | |p] |]; cbn [default from_option id] in E;
    destruct a as [| | |x]; cbn [abs mul] in E;
    try discriminate E;
    try (unfold scaleInf in E;
         repeat match type of E with
           | context [if ?b then _ else _] => destruct b
           end; discriminate E).
  injection E as <-.
  pose proof (Qabs_nonneg x) as Hx.
  destruct (Qltb_reflect p 0) as [L | L]; [reflexivity |].
  exfalso. nra.
Qed.

Lemma contained_drawPart (face : Face) (dims : FaceDimensions) (a : num)
    (time : num) (quality : Quality.QualitySettings) (part : Part)
    (index : nat) :
  (264 <= length (scaledMesh face))%nat ->
  position part <> "right_cheek"%string \/
    (346 <= length (scaledMesh face))%nat ->
  faceWidth dims = abs a ->
  contained (partArcs quality) (sizeNotNegative part = false)
    (drawPart (getFacePoints face) dims time quality part index).
Proof.
  intros Hlen Hcheek Hw. unfold drawPart.
  destruct (getPartPosition_Ok part face (eyeCenter dims) (faceWidth dims)
              (faceHeight dims) index Hlen Hcheek) as [xy ->].
  apply (contained_bind 0);
    [apply tidy_contained, tidy_lift | intros xy'].
  pose proof (proj1 (iterations_min (default NaN (count part))
                (Constants.particleCount (Quality.settings quality)))) as Hn.
  cbv zeta. unfold partArcs. rewrite Hw.
  repeat match goal with
    | |- contained _ _ (if ?b then _ else _) => destruct b
    end.
  - eapply (contained_weaken 1);
      [lia | | apply contained_drawBouncingBall]; apply negative_radius.
  - apply tidy_contained, (tidy_weaken 0);
      [lia | apply tidy_drawTwinklingStar].
  - apply tidy_contained, (tidy_weaken 0);
      [lia | apply tidy_drawFloatingHearts].
  - eapply (contained_weaken 1);
      [lia | | apply contained_drawMovingDot]; apply negative_radius.
  - apply tidy_contained, (tidy_weaken 1);
      [lia | apply tidy_drawSwimmingFish].
  - apply tidy_contained. eapply tidy_weaken; [| apply tidy_drawParticleBurst].
    unfold particleCount. lia.
  - apply tidy_contained, (tidy_weaken 0); [lia | apply tidy_ret].
Qed.

Lemma getFaceDimensions_Ok (face : Face) :
  (264 <= length (scaledMesh face))%nat ->
  exists dims a,
    getFaceDimensions (getFacePoints face) = Ok dims /\
    faceWidth dims = abs a.
Proof.
  intros Hlen. unfold getFaceDimensions, getFacePoints.
  cbn [leftEye rightEye noseTip foreheadCenter].
  destruct (lookup_lt_is_Some_2 (scaledMesh face) C.LANDMARKS.NOSE_TIP)
    as [nose ->]; [unfold C.LANDMARKS.NOSE_TIP; lia |].
  destruct (lookup_lt_is_Some_2 (scaledMesh face) C.LANDMARKS.LEFT_EYE)
    as [lEye ->]; [unfold C.LANDMARKS.LEFT_EYE; lia |].
  destruct (lookup_lt_is_Some_2 (scaledMesh face) C.LANDMARKS.RIGHT_EYE)
    as [rEye ->]; [unfold C.LANDMARKS.RIGHT_EYE; lia |].
  destruct (lookup_lt_is_Some_2 (scaledMesh face) C.LANDMARKS.FOREHEAD_CENTER)
    as [fore ->]; [unfold C.LANDMARKS.FOREHEAD_CENTER; lia |].
  cbn. eauto.
Qed.

Lemma contained_parts (face : Face) (dims : FaceDimensions) (a : num)
    (time : num) (quality : Quality.QualitySettings) (parts : list Part)
    (index : nat) :
  (264 <= length (scaledMesh face))%nat ->
  faceWidth dims = abs a ->
  Forall (fun part => position part <> "right_cheek"%string \/
                      (346 <= length (scaledMesh face))%nat) parts ->
  contained (length parts * partArcs quality)
    (Exists (fun part => sizeNotNegative part = false) parts)
    (forEachIndexed (drawPart (getFacePoints face) dims time quality)
       parts index).
Proof.
  intros Hlen Hw Hall. revert index.
  induction Hall as [| part parts Hp _ IH]; intros index.
  - apply tidy_contained, tidy_ret.
  - cbn [forEachIndexed length Nat.mul]. apply contained_bind.
    + eapply contained_weaken;
        [reflexivity | | now apply (contained_drawPart face dims a)].
      intros Hbad. now apply Exists_cons_hd.
    + intros _. eapply contained_weaken; [reflexivity | | apply IH].
      intros Hbad. now apply Exists_cons_tl.
Qed.

Lemma sizes_not_negative (parts : list Part) :
  Forall (fun part => sizeNotNegative part = true) parts ->
  ~ Exists (fun part => sizeNotNegative part = false) parts.
Proof.
  intros Hall Hex. apply Exists_exists in Hex as (part & Hin & Hneg).
  rewrite Forall_forall in Hall. specialize (Hall part Hin). congruence.
Qed.

Lemma bind_Ok {A B : Type} (m : Draw A) (k : A -> Draw B) (w w' : World)
    (a : A) :
  m w = (Ok a, w') -> (m ≫= k) w = k a w'.
Proof. intros H. unfold mbind, draw_bind. now rewrite H. Qed.

Lemma bind_Throw {A B : Type} (m : Draw A) (k : A -> Draw B) (w w' : World)
    (e : exn) :
  m w = (Throw e, w') -> (m ≫= k) w = (Throw e, w').
Proof. intros H. unfold mbind, draw_bind. now rewrite H. Qed.

(** On a face whose mesh reaches the right-cheek landmark (346 points or
    more), [draw] of an animated filter only appends calls to the canvas, at
    most [partArcs] circles per part, and ends in one of two ways.  Either
    it returns, and then every [save] is paired with a [restore]; or it
    throws the [IndexSizeError] of [ctx.arc] with a negative radius, which
    needs a part of negative [size], and then the [restore] of [draw] is
    skipped and the canvas is left one saved state deeper.  With no negative
    [size] among the parts, whatever their types and positions, it
    returns. *)
Theorem animated_draw_balances_the_state_stack (parts : list Part)
    (face : Face) (time : num) (quality : Quality.QualitySettings)
    (w : World) :
  (346 <= length (scaledMesh face))%nat ->
  let r := draw parts face time quality w in
  exists added,
    trace r.2 = trace w ++ added /\
    (arcs added <= length parts * partArcs quality)%nat /\
    match r.1 with
    | Ok _ => nesting 0 added = Some 0%nat
    | Throw e =>
        e = IndexSizeError /\ nesting 0 added = Some 1%nat /\
        Exists (fun part => sizeNotNegative part = false) parts
    end /\
    (Forall (fun part => sizeNotNegative part = true) parts -> r.1 = Ok tt).
Proof.
  intros Hlen r. unfold r, draw.
  destruct (getFaceDimensions_Ok face) as (dims & a & Hdims & Hw); [lia |].
  rewrite (bind_Ok _ _ w w dims) by (unfold lift; now rewrite Hdims).
  rewrite (bind_Ok _ _ w (pushed w [Save]) tt) by reflexivity.
  destruct (contained_parts face dims a time quality parts 0) with
    (w := pushed w [Save]) as (body & H2 & _ & _ & H5 & H6 & H7).
  { lia. } { exact Hw. } { apply Forall_forall. intros; right; lia. }
  pose proof (nesting_lift body 0 0 1 H5) as H8. cbn [Nat.add] in H8.
  destruct (forEachIndexed _ parts 0 (pushed w [Save]))
    as [[[] | e] w2] eqn:E; cbn [fst snd] in *.
  - rewrite (bind_Ok _ _ _ w2 tt E). cbn [emit fst snd trace].
    exists ([Save] ++ body ++ [Restore]).
    split; [rewrite H2; cbn [pushed trace]; now rewrite <- !app_assoc |].
    split; [rewrite !arcs_app; cbn; lia |].
    split; [| reflexivity].
    cbn [app nesting]. rewrite nesting_app, H8. reflexivity.
  - rewrite (bind_Throw _ _ _ w2 e E). cbn [fst snd].
    exists ([Save] ++ body).
    split; [rewrite H2; cbn [pushed trace]; now rewrite <- !app_assoc |].
    split; [rewrite !arcs_app; cbn; lia |].
    destruct (H7 e eq_refl) as [-> Hbad].
    split; [split; [reflexivity | split; [exact H8 | exact Hbad]] |].
    intros Hall. now destruct (sizes_not_negative parts Hall).
Qed.

Lemma forEachIndexed_app {A : Type} (callback : A -> nat -> Draw unit)
    (pre post : list A) (index : nat) (w : World) :
  forEachIndexed callback (pre ++ post) index w =
  (forEachIndexed callback pre index ≫=
   fun _ => forEachIndexed callback post (index + length pre)) w.
Proof.
  revert index w. induction pre as [| item pre IH]; intros index w.
  - cbn [app forEachIndexed length]. rewrite Nat.add_0_r. reflexivity.
  - cbn [app forEachIndexed length].
    replace (index + S (length pre))%nat
      with (S index + length pre)%nat by lia.
    destruct (callback item index w) as [[[] | e] w1] eqn:E.
    + rewrite (bind_Ok _ _ _ _ _ E), IH.
      unfold mbind, draw_bind. now rewrite E.
    + rewrite (bind_Throw _ _ _ _ _ E).
      unfold mbind, draw_bind. now rewrite E.
Qed.

(** On a face whose mesh holds the eye landmarks but stops before the
    right-cheek landmark (264 to 345 points), [draw] of a filter that has a
    part at [right_cheek], after parts elsewhere whose [size] is not
    negative, throws a [TypeError] at that part, after its [save] and
    without the [restore]: the canvas is left one saved state deeper than
    it was. *)
Theorem missing_cheek_leaves_a_saved_state (pre post : list Part)
    (part : Part) (face : Face) (time : num)
    (quality : Quality.QualitySettings) (w : World) :
  (264 <= length (scaledMesh face) <= 345)%nat ->
  position part = "right_cheek"%string ->
  Forall (fun p => position p <> "right_cheek"%string /\
                   sizeNotNegative p = true) pre ->
  let r := draw (pre ++ part :: post) face time quality w in
  exists added,
    r.1 = Throw TypeError /\ trace r.2 = trace w ++ added /\
    nesting 0 added = Some 1%nat.
Proof.
  intros Hlen Hpos Hpre r. unfold r, draw.
  destruct (getFaceDimensions_Ok face) as (dims & a & Hdims & Hw); [lia |].
  rewrite (bind_Ok _ _ w w dims) by (unfold lift; now rewrite Hdims).
  rewrite (bind_Ok _ _ w (pushed w [Save]) tt) by reflexivity.
  assert (Htidy : tidy (length pre * partArcs quality)
            (forEachIndexed (drawPart (getFacePoints face) dims time quality)
               pre 0)).
  { apply (contained_tidy _
             (Exists (fun p => sizeNotNegative p = false) pre)).
    - apply (contained_parts face dims a); [lia | exact Hw |].
      eapply Forall_impl; [exact Hpre |]. intros p [Hp _]. now left.
    - apply sizes_not_negative. eapply Forall_impl; [exact Hpre |].
      now intros p [_ Hp]. }
  destruct (Htidy (pushed w [Save]))
    as ([] & body & H1 & H2 & _ & _ & H5 & H6).
  destruct (forEachIndexed _ pre 0 (pushed w [Save])) as [res w2] eqn:E.
  cbn [fst snd] in *. subst res.
  assert (Hthrow :
    forEachIndexed (drawPart (getFacePoints face) dims time quality)
      (pre ++ part :: post) 0 (pushed w [Save]) = (Throw TypeError, w2)).
  { rewrite forEachIndexed_app. rewrite (bind_Ok _ _ _ w2 tt E).
    cbn [forEachIndexed]. apply bind_Throw. unfold drawPart.
    apply bind_Throw. unfold lift. f_equal.
    unfold getPartPosition. rewrite Hpos. cbn [String.eqb Ascii.eqb].
    cbn. unfold getFacePoints. cbn [rightCheek].
    rewrite (proj2 (lookup_ge_None (scaledMesh face) C.LANDMARKS.RIGHT_CHEEK));
      [reflexivity |].
    unfold C.LANDMARKS.RIGHT_CHEEK. lia. }
  rewrite (bind_Throw _ _ _ w2 TypeError Hthrow). cbn [fst snd].
  exists ([Save] ++ body). split; [reflexivity |].
  split; [rewrite H2; cbn [pushed trace]; now rewrite <- !app_assoc |].
  cbn [app nesting]. exact (nesting_lift body 0 0 1 H5).
Qed.

End Animated.

(** A dot of speed -1 on a face 200 pixels wide, one and two seconds after
    the start. *)
Lemma negative_orbit_stands_still_witness :
  AnimatedFilter.drawMovingDot (Fin 320) (Fin 200) (Fin 10) "#FF6B6B"
    (Fin 1) (Fin (-1)) (Fin 200) highSettings blankCanvas
  = AnimatedFilter.drawMovingDot (Fin 320) (Fin 200) (Fin 10) "#FF6B6B"
      (Fin 2) (Fin (-1)) (Fin 200) highSettings blankCanvas.
Proof.
  apply (negative_orbit_stands_still blankCanvas (Fin 320) (Fin 200) (Fin 10)
           "#FF6B6B" (Fin 200) highSettings 1 2 (-1)).
  - now left.
  - reflexivity.
  - reflexivity.
  - reflexivity.
Defined.

(** The burst of [sparkle_burst], eight sparkles, at tier high. *)
Lemma particle_burst_is_bounded_witness :
  exists added,
    (AnimatedFilter.drawParticleBurst (Fin 320) (Fin 260) (Fin 1) "#FFD700"
       (Some (Fin 8)) highSettings blankCanvas).1 = Ok tt /\
    AnimatedFilter.trace
      (AnimatedFilter.drawParticleBurst (Fin 320) (Fin 260) (Fin 1) "#FFD700"
         (Some (Fin 8)) highSettings blankCanvas).2 = [] ++ added /\
    (arcs added <= 8)%nat.
Proof.
  destruct (particle_burst_is_bounded (Fin 320) (Fin 260) (Fin 1) "#FFD700"
              (Some (Fin 8)) highSettings blankCanvas)
    as (added & H1 & H2 & _ & _ & H5).
  exists added. split; [exact H1 |]. split; [exact H2 |].
  exact (H5 8 eq_refl).
Defined.

(** A ball of negative size on the frontal face: [ctx.arc] throws after
    the [save] of [draw] and the ball's property writes. *)
Lemma shrunk_ball_throws :
  let r := AnimatedFilter.draw [shrunkBall] Samples.frontalFace (Fin 0)
             highSettings blankCanvas in
  r.1 = Throw IndexSizeError /\
  AnimatedFilter.trace r.2 =
    [ AnimatedFilter.Save; AnimatedFilter.FillStyle "#FFE66D";
      AnimatedFilter.ShadowColor "#FFE66D";
      AnimatedFilter.ShadowBlur (Fin 10); AnimatedFilter.BeginPath ].
Proof. vm_compute. split; reflexivity. Qed.

(** The three stars on the frontal face. *)
Lemma animated_draw_balances_the_state_stack_witness :
  exists added,
    AnimatedFilter.trace
      (AnimatedFilter.draw twinkling_stars Samples.frontalFace (Fin 1)
         highSettings blankCanvas).2 = [] ++ added /\
    (arcs added <= length twinkling_stars * partArcs highSettings)%nat /\
    match (AnimatedFilter.draw twinkling_stars Samples.frontalFace (Fin 1)
             highSettings blankCanvas).1 with
    | Ok _ => nesting 0 added = Some 0%nat
    | Throw e =>
        e = IndexSizeError /\ nesting 0 added = Some 1%nat /\
        Exists (fun part => sizeNotNegative part = false) twinkling_stars
    end /\
    (Forall (fun part => sizeNotNegative part = true) twinkling_stars ->
     (AnimatedFilter.draw twinkling_stars Samples.frontalFace (Fin 1)
        highSettings blankCanvas).1 = Ok tt).
Proof.
  apply (animated_draw_balances_the_state_stack twinkling_stars
           Samples.frontalFace (Fin 1) highSettings blankCanvas).
  vm_compute. lia.
Defined.

(** The three stars on a face of 300 landmarks: the third star, at the
    right cheek, throws. *)
Lemma missing_cheek_leaves_a_saved_state_witness :
  exists added,
    (AnimatedFilter.draw
       ([star "crown"; star "left_cheek"] ++ star "right_cheek" :: [])
       Samples.shortFace (Fin 1) highSettings blankCanvas).1
      = Throw TypeError /\
    AnimatedFilter.trace
      (AnimatedFilter.draw
         ([star "crown"; star "left_cheek"] ++ star "right_cheek" :: [])
         Samples.shortFace (Fin 1) highSettings blankCanvas).2
      = [] ++ added /\
    nesting 0 added = Some 1%nat.
Proof.
  apply (missing_cheek_leaves_a_saved_state
           [star "crown"; star "left_cheek"] [] (star "right_cheek")
           Samples.shortFace (Fin 1) highSettings blankCanvas).
  - vm_compute. lia.
  - reflexivity.
  - repeat (apply Forall_cons_2); try apply Forall_nil_2;
      (split; [discriminate | reflexivity]).
Defined.
